(** * Coursera transcript summarizer: a shallow embedding of [app.py]

    The development follows the three stages of the script: the request
    built by [summarize_full_text], the line classifier of [create_pdf],
    and the rerun loop of the Streamlit page with its one-slot session
    cache. *)

From Stdlib Require Import List Bool Arith NArith ZArith QArith Lia.
From Stdlib Require Import Ascii String DecimalString.
Import ListNotations.
Close Scope Q_scope.

(** ** Python strings

    A Python [str] is a sequence of Unicode code points.  The bullet
    marker U+2022 and the whitespace classes of [str.strip] and of the
    regular expression class [\s] live outside ASCII, so a character is
    a code point and not a byte. *)

Module PyStr.

Definition char := N.
Definition str := list char.

(** ASCII literals of the script, as code points. *)
Definition lit (s : string) : str :=
  map N_of_ascii (list_ascii_of_string s).

Definition NL : char := 10%N.
Definition QUOTE : char := 34%N.
Definition BULLET : char := 8226%N.

Fixpoint eqb (a b : str) : bool :=
  match a, b with
  | [], [] => true
  | x :: a', y :: b' => N.eqb x y && eqb a' b'
  | _, _ => false
  end.

(** [str.isspace] on one code point; the same set is the class [\s] of
    [re] on [str] patterns. *)
Definition isspace (c : char) : bool :=
  ((9 <=? c) && (c <=? 13) || (28 <=? c) && (c <=? 32)
   || (c =? 133) || (c =? 160) || (c =? 5760)
   || (8192 <=? c) && (c <=? 8202)
   || (c =? 8232) || (c =? 8233) || (c =? 8239) || (c =? 8287)
   || (c =? 12288))%N.

Fixpoint dropWhile (p : char -> bool) (s : str) : str :=
  match s with
  | [] => []
  | c :: t => if p c then dropWhile p t else s
  end.

Definition lstrip (s : str) : str := dropWhile isspace s.
Definition rstrip (s : str) : str := rev (dropWhile isspace (rev s)).

(** [s.strip()] *)
Definition strip (s : str) : str := rstrip (lstrip s).

(** [s.startswith(p)] *)
Fixpoint startswith (p s : str) : bool :=
  match p, s with
  | [], _ => true
  | x :: p', y :: s' => N.eqb x y && startswith p' s'
  | _ :: _, [] => false
  end.

(** [s.split(sep)] for a separator of one code point. *)
Fixpoint split (sep : char) (s : str) : list str :=
  match s with
  | [] => [[]]
  | c :: t =>
      if N.eqb c sep then [] :: split sep t
      else match split sep t with
           | l :: ls => (c :: l) :: ls
           | [] => [[c]]
           end
  end.

(** [s.replace(old, new)]: left to right, occurrences do not overlap.
    [skip] counts the code points of a match still to be passed over. *)
Fixpoint replace_from (old new : str) (skip : nat) (s : str) : str :=
  match s with
  | [] => []
  | c :: t =>
      match skip with
      | S k => replace_from old new k t
      | O =>
          if startswith old s
          then new ++ replace_from old new (List.length old - 1) t
          else c :: replace_from old new 0 t
      end
  end.

Definition replace (old new s : str) : str :=
  match old with
  | [] => new ++ flat_map (fun c => c :: new) s
  | _ :: _ => replace_from old new 0 s
  end.

(** The lower-case mapping of an ASCII code point. *)
Definition ascii_lower (c : char) : char :=
  if ((65 <=? c) && (c <=? 90))%N then (c + 32)%N else c.

Definition isascii (c : char) : bool := (c <? 128)%N.

(** [str(n)] for an [int]. *)
Definition of_int (z : Z) : str :=
  lit (NilZero.string_of_int (Z.to_int z)).

(** [s] occurs in [t] as a contiguous block. *)
Definition occurs (s t : str) : Prop :=
  exists a b, t = a ++ s ++ b.

(** The same as a test. *)
Fixpoint occursb (p s : str) : bool :=
  startswith p s || match s with [] => false | _ :: t => occursb p t end.

End PyStr.

Import PyStr.

(** ** Exceptions

    The exceptions a run can end in: those of the subscripts and of
    [startswith], of the HTTP library, of the decoding of the upload,
    and of the layout library. *)

Inductive exn :=
| KeyError | IndexError | TypeError | AttributeError
| JSONDecodeError | UnicodeDecodeError | ConnectionError
| ValueError | LayoutError.

(** ** The document renderer ([create_pdf])

    [Paragraph] and [Spacer] are the flowables of the layout library; a
    paragraph owns its text and one of the three named styles the
    function registers.  The story is the list the loop appends to.
    The library parses the text of a paragraph as markup when the
    paragraph is built, and raises on text it cannot parse; it lays the
    story out in [doc.build].  Which texts parse and which stories lay
    out is the library's: it is a parameter of the model.  The
    serialisation into bytes is not modelled: a document is its page
    set-up and its story. *)

Inductive style_name := Heading2 | BulletStyle | BodyText.

Record paragraph_style := {
  fontSize : Z;
  leading : Z;
  spaceAfter : Z;
  leftIndent : option Z;
  bulletIndent : option Z
}.

(** The attributes [create_pdf] sets on each style, whether it adds the
    style or finds it in the sample sheet. *)
Definition styles (n : style_name) : paragraph_style :=
  match n with
  | BodyText =>
      {| fontSize := 11; leading := 14; spaceAfter := 6;
         leftIndent := None; bulletIndent := None |}
  | Heading2 =>
      {| fontSize := 14; leading := 18; spaceAfter := 10;
         leftIndent := None; bulletIndent := None |}
  | BulletStyle =>
      {| fontSize := 11; leading := 14; spaceAfter := 4;
         leftIndent := Some 20; bulletIndent := Some 10 |}
  end%Z.

Inductive flowable :=
| Paragraph (text : str) (style : style_name)
| Spacer (width height : Z).

Record document := {
  pagesize : Z * Z;
  rightMargin : Z;
  leftMargin : Z;
  topMargin : Z;
  bottomMargin : Z;
  story_of : list flowable
}.

Definition is_spacer (b : flowable) : bool :=
  match b with Spacer _ _ => true | Paragraph _ _ => false end.

(** The layout library as the renderer meets it: whether
    [Paragraph(text, style)] accepts a text as markup, and the
    exception [doc.build(story)] raises, if any. *)
Record reportlab := {
  paragraph_ok : str -> style_name -> bool;
  build_error : list flowable -> option exn
}.

(** Whether the library builds the block. *)
Definition accepted (rl : reportlab) (b : flowable) : bool :=
  match b with
  | Paragraph text style => paragraph_ok rl text style
  | Spacer _ _ => true
  end.

Definition REFUSAL : str := lit "please provide the transcript".
Definition HASHES : str := lit "##".
Definition STARS : str := lit "**".
Definition HASH : char := 35%N.
Definition STAR : char := 42%N.

(** The character class of the bullet pattern: star, hyphen, U+2022. *)
Definition is_marker (c : char) : bool :=
  ((c =? 42) || (c =? 45) || (c =? 8226))%N.

(** The substitution of the bullet pattern (a run of markers, then a run
    of [\s], both at the start of the line) by the empty string: the
    pattern is anchored at the
    start, so it matches at most once, greedily, and only when the line
    opens with a marker. *)
Definition strip_markers (line : str) : str :=
  match line with
  | c :: _ =>
      if is_marker c then dropWhile isspace (dropWhile is_marker line)
      else line
  | [] => []
  end.

(** The lazy group of the bold pattern, tried just after an opening
    [**]: the shortest run without a newline that is followed by [**].
    Returns the group and what follows the closing [**]. *)
Fixpoint find_close (s : str) : option (str * str) :=
  if startswith STARS s then Some ([], skipn 2 s)
  else match s with
       | [] => None
       | c :: t =>
           if N.eqb c NL then None
           else match find_close t with
                | Some (g, r) => Some (c :: g, r)
                | None => None
                end
       end.

(** The bold pattern at the head of [s]: the group and the rest. *)
Definition match_bold (s : str) : option (str * str) :=
  if startswith STARS s then find_close (skipn 2 s) else None.

(** [re.sub(r"\*\*(.*?)\*\*", r"<b>\1</b>", s)]: leftmost matches, each
    search resuming after the previous match.  The recursion is on
    [fuel]; [List.length s] of it is enough. *)
Fixpoint bold_sub_fuel (fuel : nat) (s : str) : str :=
  match fuel with
  | O => s
  | S f =>
      match s with
      | [] => []
      | c :: t =>
          match match_bold s with
          | Some (g, r) => lit "<b>" ++ g ++ lit "</b>" ++ bold_sub_fuel f r
          | None => c :: bold_sub_fuel f t
          end
      end
  end.

Definition bold_sub (s : str) : str := bold_sub_fuel (List.length s) s.

(** A text read as pieces: each piece is a stretch of text [a] and then
    a group [g] between two [**]; [tail] is what follows the last
    piece.  [tagged] is the same text with every group between the two
    bold tags. *)
Fixpoint marked (pieces : list (str * str)) (tail : str) : str :=
  match pieces with
  | [] => tail
  | (a, g) :: rest => a ++ STARS ++ g ++ STARS ++ marked rest tail
  end.

Fixpoint tagged (pieces : list (str * str)) (tail : str) : str :=
  match pieces with
  | [] => tail
  | (a, g) :: rest => a ++ lit "<b>" ++ g ++ lit "</b>" ++ tagged rest tail
  end.

(** The piece is the leftmost match of the bold pattern in what it
    opens: no [**] begins in [a] or on its last character, the group
    has no newline, and its closing [**] is the first one after the
    opening. *)
Definition bold_piece (p : str * str) : Prop :=
  ~ occurs STARS (fst p ++ [STAR])
  /\ ~ In NL (snd p)
  /\ ~ occurs STARS (snd p ++ [STAR]).

(** No two [**] follow one another in the text, so the bold pattern
    has nothing to match on a line. *)
Definition unpaired (s : str) : Prop :=
  forall a g b, s <> a ++ STARS ++ g ++ STARS ++ b.

Section Renderer.

(** [str.lower] beyond ASCII is the interpreter's Unicode table.  It
    maps a code point, read with the text before and after it (the
    final sigma rule looks at both), to the code points replacing it. *)
Variable unicode_lower : str -> char -> str -> str.

Fixpoint lower_from (before s : str) : str :=
  match s with
  | [] => []
  | c :: t =>
      (if isascii c then [ascii_lower c] else unicode_lower before c t)
        ++ lower_from (before ++ [c]) t
  end.

(** [s.lower()] *)
Definition lower (s : str) : str := lower_from [] s.

Definition is_bullet_line (line : str) : bool :=
  startswith (lit "* ") line || startswith (lit "- ") line
  || startswith [BULLET; 32%N] line.

(** The block a line asks for: the text and the style of the
    [Paragraph] call of its branch, [None] on [continue].  Whether the
    library builds that paragraph is the matter of [render_line]. *)
Definition line_block (raw : str) : option flowable :=
  let line := strip raw in
  if PyStr.eqb line [] || startswith REFUSAL (lower line) then None
  else if startswith HASHES line then
    Some (Paragraph (strip (replace HASHES [] line)) Heading2)
  else if is_bullet_line line then
    let cleaned_line := strip (strip_markers line) in
    let cleaned_line := bold_sub cleaned_line in
    Some (Paragraph ([BULLET; 32%N] ++ cleaned_line) BulletStyle)
  else
    let cleaned_line := bold_sub line in
    Some (Paragraph cleaned_line BodyText).

Definition append_block (story : list flowable) (raw : str) : list flowable :=
  match line_block raw with
  | Some b => story ++ [b]
  | None => story
  end.

(** The blocks one line asks for: one or none. *)
Definition blocks_of (raw : str) : list flowable :=
  match line_block raw with Some b => [b] | None => [] end.

(** The story the text asks for: the blocks of its lines, then the
    spacer.  It is the story of [create_pdf] when the library accepts
    every paragraph. *)
Definition planned_story (summary_text : str) : list flowable :=
  let lines := split NL (strip summary_text) in
  let story := fold_left append_block lines [] in
  story ++ [Spacer 1 20].

Definition planned_document (summary_text : str) : document :=
  {| pagesize := (612, 792)%Z;
     rightMargin := 40; leftMargin := 40;
     topMargin := 60; bottomMargin := 40;
     story_of := planned_story summary_text |}.

(** *** The renderer on the library *)

Variable rl : reportlab.

(** The call [Paragraph(text, style)]. *)
Definition paragraph (text : str) (style : style_name) : exn + flowable :=
  if paragraph_ok rl text style then inr (Paragraph text style)
  else inl ValueError.

(** [story.append(...)] of a paragraph that was built. *)
Definition appended (r : exn + flowable) : exn + option flowable :=
  match r with
  | inl e => inl e
  | inr b => inr (Some b)
  end.

(** One pass of the loop body: [inr None] is [continue], [inr (Some b)]
    is the block appended to the story, [inl e] the exception the
    paragraph raises. *)
Definition render_line (raw : str) : exn + option flowable :=
  let line := strip raw in
  if PyStr.eqb line [] || startswith REFUSAL (lower line) then inr None
  else if startswith HASHES line then
    appended (paragraph (strip (replace HASHES [] line)) Heading2)
  else if is_bullet_line line then
    let cleaned_line := strip (strip_markers line) in
    let cleaned_line := bold_sub cleaned_line in
    appended (paragraph ([BULLET; 32%N] ++ cleaned_line) BulletStyle)
  else
    let cleaned_line := bold_sub line in
    appended (paragraph cleaned_line BodyText).

(** The loop over the lines stops at the first exception. *)
Definition append_line (story : exn + list flowable) (raw : str)
  : exn + list flowable :=
  match story with
  | inl e => inl e
  | inr blocks =>
      match render_line raw with
      | inl e => inl e
      | inr (Some b) => inr (blocks ++ [b])
      | inr None => inr blocks
      end
  end.

(** The story [create_pdf] hands to [doc.build]. *)
Definition build_story (summary_text : str) : exn + list flowable :=
  let lines := split NL (strip summary_text) in
  match fold_left append_line lines (inr []) with
  | inl e => inl e
  | inr story => inr (story ++ [Spacer 1 20])
  end.

Definition create_pdf (summary_text : str) : exn + document :=
  match build_story summary_text with
  | inl e => inl e
  | inr story =>
      match build_error rl story with
      | Some e => inl e
      | None =>
          inr {| pagesize := (612, 792)%Z;
                 rightMargin := 40; leftMargin := 40;
                 topMargin := 60; bottomMargin := 40;
                 story_of := story |}
      end
  end.

End Renderer.

(** A case table without entries beyond ASCII: every other code point
    is its own lower case.  The closed examples below run on it. *)
Definition uncased : str -> char -> str -> str := fun _ c _ => [c].

(** Whether every [<] of a text opens [<b>] or [</b>]. *)
Fixpoint tags_known (s : str) : bool :=
  match s with
  | [] => true
  | c :: t =>
      (negb (N.eqb c 60)
       || startswith (lit "<b>") s || startswith (lit "</b>") s)
      && tags_known t
  end.

(** Two stand-ins for the layout library, for the closed examples: one
    that accepts every text, and one that refuses a [<] that opens no
    bold tag, as the library refuses [x<y]. *)
Definition lenient : reportlab :=
  {| paragraph_ok := fun _ _ => true; build_error := fun _ => None |}.

Definition strict : reportlab :=
  {| paragraph_ok := fun t _ => tags_known t; build_error := fun _ => None |}.

(** What every block of a story satisfies. *)
Definition well_formed_block (b : flowable) : Prop :=
  match b with
  | Spacer w h => w = 1%Z /\ h = 20%Z
  | Paragraph t Heading2 => ~ occurs HASHES t /\ strip t = t /\ ~ In NL t
  | Paragraph t BulletStyle =>
      startswith [BULLET; 32%N] t = true /\ ~ In NL t
  | Paragraph t BodyText => t <> [] /\ ~ In NL t
  end.

(** ** Python values and the HTTP exchange

    The values [response.json()] can hold, and the request the script
    posts.  A parsed JSON object is an association list with string
    keys. *)

Unset Elimination Schemes.
Inductive pyval :=
| VNone
| VBool (b : bool)
| VInt (z : Z)
| VFloat (q : Q)
| VStr (s : str)
| VList (l : list pyval)
| VDict (d : list (str * pyval)).
Set Elimination Schemes.

Fixpoint assoc (k : str) (d : list (str * pyval)) : option pyval :=
  match d with
  | [] => None
  | (k', v) :: d' => if PyStr.eqb k k' then Some v else assoc k d'
  end.

(** [v[k]] for a string key. *)
Definition getitem_key (v : pyval) (k : str) : exn + pyval :=
  match v with
  | VDict d => match assoc k d with Some x => inr x | None => inl KeyError end
  | _ => inl TypeError
  end.

(** [v[i]] for an index [i >= 0]. *)
Definition getitem_idx (v : pyval) (i : nat) : exn + pyval :=
  match v with
  | VList l => match nth_error l i with Some x => inr x | None => inl IndexError end
  | VStr s => match nth_error s i with Some c => inr (VStr [c]) | None => inl IndexError end
  | VDict _ => inl KeyError
  | _ => inl TypeError
  end.

Record http_request := {
  url : str;
  headers : list (str * str);
  json_body : pyval
}.

(** [json] is what [response.json()] returns, [None] when the body does
    not parse. *)
Record http_response := {
  status_code : Z;
  text : str;
  json : option pyval
}.

Definition MODEL_NAME : str := lit "meta-llama/llama-4-scout-17b-16e-instruct".
Definition API_URL : str := lit "https://api.groq.com/openai/v1/chat/completions".
Definition TEMPERATURE : Q := (3 # 10)%Q.

Definition TRIPLE_QUOTE : str := [QUOTE; QUOTE; QUOTE].

(** The f-string of [summarize_full_text] up to the interpolated
    transcript, and after it. *)
Definition PROMPT_HEAD : str :=
  [NL]
  ++ lit "    Summarize the following Coursera transcript into a neat, concise handout suitable for revision." ++ [NL]
  ++ lit "    Organize the information logically with clear headings and concise paragraphs or standard bullet points." ++ [NL]
  ++ lit "    Focus on key concepts, important definitions, procedures, and significant points." ++ [NL]
  ++ lit "    Do not use specific labels like 'Key Takeaway:', 'Example:', 'Tip:', or 'Note:'." ++ [NL]
  ++ lit "    Ensure the summary is easy to read and understand for a revision purpose." ++ [NL]
  ++ lit "    Only return the clean, summarized content. Do not repeat this prompt or add extra instructions or conversational text." ++ [NL]
  ++ [NL]
  ++ lit "    " ++ TRIPLE_QUOTE ++ [NL].

Definition PROMPT_TAIL : str :=
  [NL] ++ TRIPLE_QUOTE ++ [NL] ++ lit "    ".

Definition prompt_of (text : str) : str := PROMPT_HEAD ++ text ++ PROMPT_TAIL.

Definition payload_of (text : str) : pyval :=
  VDict [ (lit "model", VStr MODEL_NAME);
          (lit "messages",
            VList [ VDict [ (lit "role", VStr (lit "user"));
                            (lit "content", VStr (prompt_of text)) ] ]);
          (lit "temperature", VFloat TEMPERATURE) ].

(** ** The page: effects of one script run

    A run reads the widgets, reads and writes the session slot
    [full_summary_cached], posts to the remote endpoint and writes
    elements to the page.  An element is the [st.*] call that drew it,
    with its arguments: the value of a text area is the value argument
    of the call, what a keyed widget shows once it has a state of its
    own is not modelled.  [st.stop()] and [st.rerun()] leave the run the
    way an exception does. *)

Inductive element :=
| Title (body : str)
| Markdown (body : str)
| FileUploader (label : str)
| TextInput (label value : str)
| Info (body : str)
| Spinner (body : str)
| Error (body : str)
| Success (body : str)
| TextArea (label value : str) (height : Z) (key : str)
| Button (label : str)
| DownloadButton (label : str) (data : document) (file_name mime : str).

(** [cache]: [None] while the key is not in the session state,
    [Some None] when it holds Python's [None], [Some (Some s)] when it
    holds a summary.  Only strings are ever stored: the script calls
    [startswith] on a summary before it stores it. *)
Record world := {
  cache : option (option str);
  posts : list http_request;
  page : list element
}.

Inductive outcome (A : Type) :=
| Done (a : A)
| Raised (e : exn)
| Stopped
| Rerun.

Arguments Done {A} a.
Arguments Raised {A} e.
Arguments Stopped {A}.
Arguments Rerun {A}.

Definition M (A : Type) : Type := world -> outcome A * world.

Definition ret {A} (a : A) : M A := fun w => (Done a, w).

Definition bind {A B} (m : M A) (k : A -> M B) : M B :=
  fun w =>
    match m w with
    | (Done a, w') => k a w'
    | (Raised e, w') => (Raised e, w')
    | (Stopped, w') => (Stopped, w')
    | (Rerun, w') => (Rerun, w')
    end.

Declare Scope script_scope.
Delimit Scope script_scope with script.
Notation "x <- m ;; k" := (bind m (fun x => k))
  (at level 61, m at next level, right associativity) : script_scope.
Notation "m ;; k" := (bind m (fun _ => k))
  (at level 61, right associativity) : script_scope.
Open Scope script_scope.

Definition raise {A} (e : exn) : M A := fun w => (Raised e, w).
Definition st_stop {A} : M A := fun w => (Stopped, w).
Definition st_rerun {A} : M A := fun w => (Rerun, w).

Definition lift {A} (r : exn + A) : M A :=
  match r with inl e => raise e | inr a => ret a end.

Definition show (e : element) : M unit :=
  fun w => (Done tt, {| cache := cache w; posts := posts w; page := page w ++ [e] |}).

Definition get_cache : M (option (option str)) := fun w => (Done (cache w), w).

Definition set_cache (v : option str) : M unit :=
  fun w => (Done tt, {| cache := Some v; posts := posts w; page := page w |}).

(** The widgets of one run.  [uploaded_file] is [None] while nothing is
    uploaded; otherwise it carries what [read().decode("utf-8")] gives,
    [None] when the bytes are not UTF-8.  [regenerate] is what
    [st.button] returns: [true] only in the run a click starts. *)
Record widgets := {
  uploaded_file : option (option str);
  pdf_name : str;
  regenerate : bool
}.

(** [f"{pdf_name.strip() or 'summary'}.pdf"] *)
Definition download_name (pdf_name : str) : str :=
  (match strip pdf_name with
   | [] => lit "summary"
   | _ :: _ => strip pdf_name
   end) ++ lit ".pdf".

Definition EMOJI_BOOK : char := 128216%N.
Definition EMOJI_OUTBOX : char := 128228%N.
Definition EMOJI_PAGE : char := 128196%N.
Definition EMOJI_CHECK : char := 9989%N.
Definition EMOJI_MEMO : char := 128221%N.
Definition EMOJI_REPEAT : char := 128257%N.
Definition EMOJI_INBOX : char := 128229%N.

(** The same widgets in the run that follows a rerun request. *)
Definition no_rerun (w : widgets) : widgets :=
  {| uploaded_file := uploaded_file w; pdf_name := pdf_name w;
     regenerate := false |}.

(** Whether the session slot holds a summary. *)
Definition has_summary (wd : world) : bool :=
  match cache wd with Some (Some _) => true | _ => false end.

Section App.

(** The secret [GROQ_API_KEY]. *)
Variable API_KEY : str.

(** The endpoint: the answer to the [n]-th post of the session, or the
    exception [requests.post] raises. *)
Variable remote : nat -> http_request -> exn + http_response.

Variable unicode_lower : str -> char -> str -> str.

Variable rl : reportlab.

(** [requests.post(url, headers=headers, json=payload)] *)
Definition requests_post (rq : http_request) : M http_response :=
  fun w =>
    let w' := {| cache := cache w; posts := posts w ++ [rq]; page := page w |} in
    match remote (List.length (posts w)) rq with
    | inl e => (Raised e, w')
    | inr r => (Done r, w')
    end.

Definition request_of (text : str) : http_request :=
  {| url := API_URL;
     headers := [ (lit "Authorization", lit "Bearer " ++ API_KEY);
                  (lit "Content-Type", lit "application/json") ];
     json_body := payload_of text |}.

(** What the function returns from a response it has received. *)
Definition result_of_response (response : http_response) : exn + pyval :=
  if (status_code response =? 200)%Z then
    match json response with
    | None => inl JSONDecodeError
    | Some j =>
        match getitem_key j (lit "choices") with
        | inl e => inl e
        | inr choices =>
            match getitem_idx choices 0 with
            | inl e => inl e
            | inr choice =>
                match getitem_key choice (lit "message") with
                | inl e => inl e
                | inr message => getitem_key message (lit "content")
                end
            end
        end
    end
  else
    inr (VStr (lit "ERROR: " ++ of_int (status_code response)
                 ++ lit " - " ++ text response)).

Definition summarize_full_text (text : str) : M pyval :=
  response <- requests_post (request_of text) ;;
  lift (result_of_response response).

(** Lines 127 to 163: the main workflow of one run. *)
Definition main_workflow (w : widgets) : M unit :=
  match uploaded_file w with
  | Some file =>
      transcript <- lift (match file with
                          | Some t => inr t
                          | None => inl UnicodeDecodeError
                          end) ;;
      show (Info (lit "Summarizing the entire transcript...")) ;;
      present <- get_cache ;;
      (match present with
       | None => set_cache None
       | Some _ => ret tt
       end) ;;
      cached <- get_cache ;;
      summary <-
        (match cached with
         | Some (Some s) => ret s
         | _ =>
             show (Spinner (lit "Generating full summary... This might take a moment for long transcripts.")) ;;
             summary <- summarize_full_text transcript ;;
             match summary with
             | VStr s =>
                 (if startswith (lit "ERROR") s
                  then show (Error s) ;; st_stop
                  else ret tt) ;;
                 set_cache (Some s) ;;
                 ret s
             | _ => raise AttributeError
             end
         end) ;;
      show (Success ([EMOJI_CHECK] ++ lit " Summary complete!")) ;;
      show (Markdown (lit "### " ++ [EMOJI_MEMO] ++ lit " Generated Summary")) ;;
      show (TextArea (lit "Final Notes") summary 400 (lit "final_summary_box")) ;;
      show (Button ([EMOJI_REPEAT] ++ lit " Regenerate Full Summary")) ;;
      (if regenerate w
       then set_cache None ;; st_rerun
       else ret tt) ;;
      pdf <- lift (create_pdf unicode_lower rl summary) ;;
      show (DownloadButton ([EMOJI_INBOX] ++ lit " Download Notes as PDF")
              pdf (download_name (pdf_name w)) (lit "application/pdf"))
  | None =>
      show (Info (lit "Upload a transcript to begin."))
  end.

(** Lines 17 to 23, then the main workflow. *)
Definition script (w : widgets) : M unit :=
  show (Title ([EMOJI_BOOK] ++ lit " Coursera Transcript Summarizer (Groq + LLaMA 4)")) ;;
  show (Markdown (lit "Upload your transcript `.txt` file and get a revision-friendly PDF summary.")) ;;
  show (FileUploader ([EMOJI_OUTBOX] ++ lit " Upload transcript file (.txt)")) ;;
  show (TextInput ([EMOJI_PAGE] ++ lit " Enter output PDF file name (optional)") (pdf_name w)) ;;
  main_workflow w.

(** One run of the script: the page is drawn afresh. *)
Definition run (w : widgets) (wd : world) : outcome unit * world :=
  script w {| cache := cache wd; posts := posts wd; page := [] |}.

(** *** The session: user events and reruns

    A user event changes a widget and starts a run.  A run that ends in
    [st.rerun()] is followed at once by another one, in which the
    button reads [false].  The regenerate button can be clicked only
    when the last run drew it. *)

Record session := {
  state : world;
  file : option (option str);
  name : str
}.

Inductive event :=
| Upload (content : option str)
| RemoveFile
| EditName (value : str)
| ClickRegenerate.

Definition is_button (e : element) : bool :=
  match e with Button _ => true | _ => false end.

Definition is_download (e : element) : bool :=
  match e with DownloadButton _ _ _ _ => true | _ => false end.

Definition enabled (ev : event) (a : session) : bool :=
  match ev with
  | ClickRegenerate => existsb is_button (page (state a))
  | _ => true
  end.

Definition next_file (ev : event) (a : session) : option (option str) :=
  match ev with
  | Upload c => Some c
  | RemoveFile => None
  | _ => file a
  end.

Definition next_name (ev : event) (a : session) : str :=
  match ev with
  | EditName v => v
  | _ => name a
  end.

Definition clicked (ev : event) : bool :=
  match ev with ClickRegenerate => true | _ => false end.

(** The run an event starts and, when it asks for one, the rerun. *)
Definition run_with_rerun (f : option (option str)) (n : str) (click : bool)
    (wd : world) : world :=
  match run {| uploaded_file := f; pdf_name := n; regenerate := click |} wd with
  | (Rerun, wd1) =>
      snd (run {| uploaded_file := f; pdf_name := n; regenerate := false |} wd1)
  | (_, wd1) => wd1
  end.

Definition interact (ev : event) (a : session) : option session :=
  if enabled ev a then
    Some {| state := run_with_rerun (next_file ev a) (next_name ev a)
                       (clicked ev) (state a);
            file := next_file ev a;
            name := next_name ev a |}
  else None.

Inductive step : session -> event -> session -> Prop :=
| step_interact a ev a' : interact ev a = Some a' -> step a ev a'.

(** The first load of the page: nothing uploaded, the name field at its
    default, an empty session state. *)
Definition initial : session :=
  {| state := run_with_rerun None (lit "summary") false
                {| cache := None; posts := []; page := [] |};
     file := None;
     name := lit "summary" |}.

Inductive reachable : session -> Prop :=
| reach_initial : reachable initial
| reach_step a ev a' : reachable a -> step a ev a' -> reachable a'.

End App.

(** What lines 17 to 23 put on the page. *)
Definition header (w : widgets) : list element :=
  [ Title ([EMOJI_BOOK] ++ lit " Coursera Transcript Summarizer (Groq + LLaMA 4)");
    Markdown (lit "Upload your transcript `.txt` file and get a revision-friendly PDF summary.");
    FileUploader ([EMOJI_OUTBOX] ++ lit " Upload transcript file (.txt)");
    TextInput ([EMOJI_PAGE] ++ lit " Enter output PDF file name (optional)") (pdf_name w) ].

(** ** Sample data for the closed examples *)

Module Sample.

Definition key : str := lit "gsk-sample".
Definition transcript : str := lit "Week 1. Gradient descent.".

Definition answer_500 : http_response :=
  {| status_code := 500; text := lit "oops"; json := None |}.

Definition answer_ok : http_response :=
  {| status_code := 200;
     text := lit "{...}";
     json := Some (VDict [(lit "choices",
                     VList [VDict [(lit "message",
                       VDict [(lit "role", VStr (lit "assistant"));
                              (lit "content", VStr (lit "## Notes"))])]])]) |}.

Definition remote_500 : nat -> http_request -> exn + http_response :=
  fun _ _ => inr answer_500.

Definition remote_ok : nat -> http_request -> exn + http_response :=
  fun _ _ => inr answer_ok.

Definition fresh : world := {| cache := None; posts := []; page := [] |}.

Definition cached : world :=
  {| cache := Some (Some (lit "## Notes")); posts := []; page := [] |}.

Definition form (click : bool) : widgets :=
  {| uploaded_file := Some (Some transcript);
     pdf_name := lit "  week1 ";
     regenerate := click |}.

(** The session after the first load and the upload of the transcript,
    and after a click on the regenerate button. *)
Definition loaded : session :=
  {| state := run_with_rerun key remote_ok uncased lenient
                (Some (Some transcript)) (lit "summary") false
                (state (initial key remote_ok uncased lenient));
     file := Some (Some transcript);
     name := lit "summary" |}.

Definition regenerated : session :=
  {| state := run_with_rerun key remote_ok uncased lenient
                (Some (Some transcript)) (lit "summary") true
                (state loaded);
     file := Some (Some transcript);
     name := lit "summary" |}.
End Sample.

(** ** The style sheet of [create_pdf]

    Lines 62 to 94.  The sample sheet of the layout library maps style
    names to paragraph styles; [create_pdf] adds each of its three
    styles when the sheet lacks it and assigns to its attributes when
    the sheet has it.  Only the attributes the function touches are
    kept; a new [ParagraphStyle] takes the others from the library's
    defaults. *)

Record rl_style := {
  rl_fontName : str;
  rl_fontSize : Z;
  rl_leading : Z;
  rl_leftIndent : Z;
  rl_bulletIndent : Z;
  rl_alignment : Z;
  rl_spaceAfter : Z;
  rl_textColor : N
}.

Definition TA_LEFT : Z := 0.
Definition black : N := 0.

Definition stylesheet := str -> option rl_style.

Definition sheet_put (sh : stylesheet) (name : str) (st : rl_style) : stylesheet :=
  fun k => if PyStr.eqb k name then Some st else sh k.

Definition set_fontName (v : str) (s : rl_style) : rl_style :=
  {| rl_fontName := v; rl_fontSize := rl_fontSize s; rl_leading := rl_leading s;
     rl_leftIndent := rl_leftIndent s; rl_bulletIndent := rl_bulletIndent s;
     rl_alignment := rl_alignment s; rl_spaceAfter := rl_spaceAfter s;
     rl_textColor := rl_textColor s |}.
Definition set_fontSize (v : Z) (s : rl_style) : rl_style :=
  {| rl_fontName := rl_fontName s; rl_fontSize := v; rl_leading := rl_leading s;
     rl_leftIndent := rl_leftIndent s; rl_bulletIndent := rl_bulletIndent s;
     rl_alignment := rl_alignment s; rl_spaceAfter := rl_spaceAfter s;
     rl_textColor := rl_textColor s |}.
Definition set_leading (v : Z) (s : rl_style) : rl_style :=
  {| rl_fontName := rl_fontName s; rl_fontSize := rl_fontSize s; rl_leading := v;
     rl_leftIndent := rl_leftIndent s; rl_bulletIndent := rl_bulletIndent s;
     rl_alignment := rl_alignment s; rl_spaceAfter := rl_spaceAfter s;
     rl_textColor := rl_textColor s |}.
Definition set_leftIndent (v : Z) (s : rl_style) : rl_style :=
  {| rl_fontName := rl_fontName s; rl_fontSize := rl_fontSize s; rl_leading := rl_leading s;
     rl_leftIndent := v; rl_bulletIndent := rl_bulletIndent s;
     rl_alignment := rl_alignment s; rl_spaceAfter := rl_spaceAfter s;
     rl_textColor := rl_textColor s |}.
Definition set_bulletIndent (v : Z) (s : rl_style) : rl_style :=
  {| rl_fontName := rl_fontName s; rl_fontSize := rl_fontSize s; rl_leading := rl_leading s;
     rl_leftIndent := rl_leftIndent s; rl_bulletIndent := v;
     rl_alignment := rl_alignment s; rl_spaceAfter := rl_spaceAfter s;
     rl_textColor := rl_textColor s |}.
Definition set_alignment (v : Z) (s : rl_style) : rl_style :=
  {| rl_fontName := rl_fontName s; rl_fontSize := rl_fontSize s; rl_leading := rl_leading s;
     rl_leftIndent := rl_leftIndent s; rl_bulletIndent := rl_bulletIndent s;
     rl_alignment := v; rl_spaceAfter := rl_spaceAfter s;
     rl_textColor := rl_textColor s |}.
Definition set_spaceAfter (v : Z) (s : rl_style) : rl_style :=
  {| rl_fontName := rl_fontName s; rl_fontSize := rl_fontSize s; rl_leading := rl_leading s;
     rl_leftIndent := rl_leftIndent s; rl_bulletIndent := rl_bulletIndent s;
     rl_alignment := rl_alignment s; rl_spaceAfter := v;
     rl_textColor := rl_textColor s |}.
Definition set_textColor (v : N) (s : rl_style) : rl_style :=
  {| rl_fontName := rl_fontName s; rl_fontSize := rl_fontSize s; rl_leading := rl_leading s;
     rl_leftIndent := rl_leftIndent s; rl_bulletIndent := rl_bulletIndent s;
     rl_alignment := rl_alignment s; rl_spaceAfter := rl_spaceAfter s;
     rl_textColor := v |}.

Definition style_key (n : style_name) : str :=
  match n with
  | BodyText => lit "BodyText"
  | Heading2 => lit "Heading2"
  | BulletStyle => lit "BulletStyle"
  end.

Section StyleSheet.

(** The attributes of a [ParagraphStyle] built without arguments. *)
Variable defaults : rl_style.

(** Lines 66 to 73. *)
Definition setup_body (sh : stylesheet) : stylesheet :=
  match sh (lit "BodyText") with
  | None =>
      sheet_put sh (lit "BodyText")
        {| rl_fontName := rl_fontName defaults; rl_fontSize := 11;
           rl_leading := 14; rl_leftIndent := rl_leftIndent defaults;
           rl_bulletIndent := rl_bulletIndent defaults;
           rl_alignment := TA_LEFT; rl_spaceAfter := 6;
           rl_textColor := rl_textColor defaults |}
  | Some st =>
      let st := set_fontSize 11 st in
      let st := set_leading 14 st in
      let st := set_spaceAfter 6 st in
      let st := set_alignment TA_LEFT st in
      sheet_put sh (lit "BodyText") st
  end.

(** Lines 76 to 83. *)
Definition setup_heading (sh : stylesheet) : stylesheet :=
  match sh (lit "Heading2") with
  | None =>
      sheet_put sh (lit "Heading2")
        {| rl_fontName := lit "Helvetica-Bold"; rl_fontSize := 14;
           rl_leading := 18; rl_leftIndent := rl_leftIndent defaults;
           rl_bulletIndent := rl_bulletIndent defaults;
           rl_alignment := rl_alignment defaults; rl_spaceAfter := 10;
           rl_textColor := black |}
  | Some st =>
      let st := set_fontSize 14 st in
      let st := set_leading 18 st in
      let st := set_spaceAfter 10 st in
      let st := set_textColor black st in
      let st := set_fontName (lit "Helvetica-Bold") st in
      sheet_put sh (lit "Heading2") st
  end.

(** Lines 86 to 94. *)
Definition setup_bullet (sh : stylesheet) : stylesheet :=
  match sh (lit "BulletStyle") with
  | None =>
      sheet_put sh (lit "BulletStyle")
        {| rl_fontName := rl_fontName defaults; rl_fontSize := 11;
           rl_leading := 14; rl_leftIndent := 20; rl_bulletIndent := 10;
           rl_alignment := rl_alignment defaults; rl_spaceAfter := 4;
           rl_textColor := black |}
  | Some st =>
      let st := set_fontSize 11 st in
      let st := set_leading 14 st in
      let st := set_spaceAfter 4 st in
      let st := set_leftIndent 20 st in
      let st := set_bulletIndent 10 st in
      let st := set_textColor black st in
      sheet_put sh (lit "BulletStyle") st
  end.

(** The sheet [create_pdf] draws its paragraphs with, from the sample
    sheet. *)
Definition setup_styles (sample : stylesheet) : stylesheet :=
  setup_bullet (setup_heading (setup_body sample)).

End StyleSheet.

(** ** The views of the page *)

Definition INFO_RUNNING : element :=
  Info (lit "Summarizing the entire transcript...").
Definition SPINNER : element :=
  Spinner (lit "Generating full summary... This might take a moment for long transcripts.").

(** Lines 146 to 151: the calls from the success message to the
    regenerate button.  The summary is the value argument of the text
    area. *)
Definition summary_calls (summary : str) : list element :=
  [ Success ([EMOJI_CHECK] ++ lit " Summary complete!");
    Markdown (lit "### " ++ [EMOJI_MEMO] ++ lit " Generated Summary");
    TextArea (lit "Final Notes") summary 400 (lit "final_summary_box");
    Button ([EMOJI_REPEAT] ++ lit " Regenerate Full Summary") ].

(** Lines 156 to 161: the download of a document that was built. *)
Definition download_call (w : widgets) (pdf : document) : element :=
  DownloadButton ([EMOJI_INBOX] ++ lit " Download Notes as PDF")
    pdf (download_name (pdf_name w)) (lit "application/pdf").

(** What line 155 leaves for lines 156 to 161: the download when
    [create_pdf] returned a document, nothing when it raised. *)
Definition download_calls (w : widgets) (r : exn + document) : list element :=
  match r with
  | inr pdf => [download_call w pdf]
  | inl _ => []
  end.

(** The slot never holds a string that starts with [ERROR]. *)
Definition cache_clean (wd : world) : Prop :=
  forall s, cache wd = Some (Some s) -> startswith (lit "ERROR") s = false.

(** The widgets of the run a session state was drawn by. *)
Definition form_of (a : session) : widgets :=
  {| uploaded_file := file a; pdf_name := name a; regenerate := false |}.

(** ** Scenarios for the closed examples *)

(** The session an enabled event leads to. *)
Definition apply_event (API_KEY : str)
    (remote : nat -> http_request -> exn + http_response)
    (tbl : str -> char -> str -> str) (rl : reportlab) (ev : event)
    (a : session) : session :=
  {| state := run_with_rerun API_KEY remote tbl rl (next_file ev a)
                (next_name ev a) (clicked ev) (state a);
     file := next_file ev a;
     name := next_name ev a |}.

Module Scenario.

Definition other_transcript : str := lit "Week 2. Regularisation.".

Definition answer_no_choices : http_response :=
  {| status_code := 200; text := lit "{}"; json := Some (VDict []) |}.

Definition null_message : list (str * pyval) := [(lit "content", VNone)].
Definition null_choice : list (str * pyval) :=
  [(lit "message", VDict null_message)].
Definition null_body : list (str * pyval) :=
  [(lit "choices", VList [VDict null_choice])].

Definition answer_null : http_response :=
  {| status_code := 200; text := lit "{...}"; json := Some (VDict null_body) |}.

Definition ok_message : list (str * pyval) :=
  [(lit "role", VStr (lit "assistant")); (lit "content", VStr (lit "## Notes"))].
Definition ok_choice : list (str * pyval) := [(lit "message", VDict ok_message)].
Definition ok_body : list (str * pyval) :=
  [(lit "choices", VList [VDict ok_choice])].

(** An answer whose content holds a [<] that opens no tag. *)
Definition markup_message : list (str * pyval) :=
  [(lit "role", VStr (lit "assistant"));
   (lit "content", VStr (lit "Compare: if x<y then stop"))].
Definition markup_choice : list (str * pyval) :=
  [(lit "message", VDict markup_message)].
Definition markup_body : list (str * pyval) :=
  [(lit "choices", VList [VDict markup_choice])].

Definition answer_markup : http_response :=
  {| status_code := 200; text := lit "{...}"; json := Some (VDict markup_body) |}.

Definition remote_markup : nat -> http_request -> exn + http_response :=
  fun _ _ => inr answer_markup.

Definition remote_no_choices : nat -> http_request -> exn + http_response :=
  fun _ _ => inr answer_no_choices.

Definition remote_null : nat -> http_request -> exn + http_response :=
  fun _ _ => inr answer_null.

(** The first post is answered, the later ones fail. *)
Definition remote_flaky : nat -> http_request -> exn + http_response :=
  fun n _ => match n with
             | O => inr Sample.answer_ok
             | S _ => inr Sample.answer_500
             end.

Definition upload : event := Upload (Some Sample.transcript).

(** A summary is cached: first load, then the upload, all answered. *)
Definition summarised : session :=
  apply_event Sample.key Sample.remote_ok uncased lenient upload
    (initial Sample.key Sample.remote_ok uncased lenient).

Definition replaced : session :=
  apply_event Sample.key Sample.remote_ok uncased lenient
    (Upload (Some other_transcript)) summarised.

Definition summarised_flaky : session :=
  apply_event Sample.key remote_flaky uncased lenient upload
    (initial Sample.key remote_flaky uncased lenient).

Definition regenerated_flaky : session :=
  apply_event Sample.key remote_flaky uncased lenient ClickRegenerate summarised_flaky.

(** The upload was answered with an error. *)
Definition failed : session :=
  apply_event Sample.key Sample.remote_500 uncased lenient upload
    (initial Sample.key Sample.remote_500 uncased lenient).

Definition failed_renamed : session :=
  apply_event Sample.key Sample.remote_500 uncased lenient (EditName (lit "notes"))
    failed.

(** The same upload answered with the markup, on the strict library. *)
Definition summarised_markup : session :=
  apply_event Sample.key remote_markup uncased strict upload
    (initial Sample.key remote_markup uncased strict).

End Scenario.

(** * Properties *)

(** ** Strings *)

Example strip_example :
  strip (lit "  ab c  ") = lit "ab c" /\ strip (lit "   ") = [].
Proof. split; reflexivity. Qed.

Example split_example :
  split NL (lit "a" ++ [NL] ++ [NL] ++ lit "b" ++ [NL])
  = [lit "a"; []; lit "b"; []]
  /\ split NL [] = [[]].
Proof. split; reflexivity. Qed.

Example replace_example :
  replace HASHES [] (lit "### Topic ## x ####") = lit "# Topic  x "
  /\ replace [] (lit "-") (lit "abc") = lit "-a-b-c-".
Proof. split; reflexivity. Qed.

Example bold_sub_example :
  bold_sub (lit "***a*** x **b") = lit "<b>*a</b>* x **b"
  /\ bold_sub (lit "**a" ++ [NL] ++ lit "**b**") = lit "**a" ++ [NL] ++ lit "<b>b</b>"
  /\ bold_sub (lit "****") = lit "<b></b>".
Proof. repeat split; reflexivity. Qed.

Example strip_markers_example :
  strip_markers (lit "*-  x") = lit "x"
  /\ strip_markers (lit "x * y") = lit "x * y".
Proof. split; reflexivity. Qed.

Example of_int_example :
  of_int 404 = lit "404" /\ of_int 0 = lit "0" /\ of_int (-5) = lit "-5".
Proof. repeat split; reflexivity. Qed.

Example build_story_example :
  build_story uncased strict
    (lit "## Plan" ++ [NL] ++ [NL] ++ lit "- **Goal**: learn" ++ [NL]
     ++ lit "plain text" ++ [NL])
  = inr [ Paragraph (lit "Plan") Heading2;
          Paragraph ([BULLET; 32%N] ++ lit "<b>Goal</b>: learn") BulletStyle;
          Paragraph (lit "plain text") BodyText;
          Spacer 1 20 ]
  /\ build_story uncased strict
       (lit "## Plan" ++ [NL] ++ lit "stop if x<y" ++ [NL] ++ lit "plain text")
     = inl ValueError.
Proof. split; vm_compute; reflexivity. Qed.

Lemma startswith_app (p s : str) : startswith p (p ++ s) = true.
Proof.
  induction p as [|c p IH]; simpl; [reflexivity|].
  now rewrite N.eqb_refl, IH.
Qed.

Lemma startswith_inv (p s : str) :
  startswith p s = true -> exists r, s = p ++ r.
Proof.
  revert s; induction p as [|c p IH]; intros s H.
  - now exists s.
  - destruct s as [|d s]; simpl in H; [discriminate|].
    apply andb_true_iff in H as [Hc Hp].
    apply N.eqb_eq in Hc; subst d.
    destruct (IH _ Hp) as [r ->]. now exists r.
Qed.

Lemma startswith_occurs (p s : str) : startswith p s = true -> occurs p s.
Proof.
  intros H. destruct (startswith_inv _ _ H) as [r ->]. now exists [], r.
Qed.

Lemma occurs_tail (p s : str) (c : char) : occurs p s -> occurs p (c :: s).
Proof.
  intros (a & b & ->). now exists (c :: a), b.
Qed.

Lemma dropWhile_idem (p : char -> bool) (s : str) :
  dropWhile p (dropWhile p s) = dropWhile p s.
Proof.
  induction s as [|c s IH]; simpl; [reflexivity|].
  destruct (p c) eqn:E; [exact IH|]. simpl. now rewrite E.
Qed.

Lemma dropWhile_all (p : char -> bool) (s : str) :
  forallb p s = true -> dropWhile p s = [].
Proof.
  induction s as [|c s IH]; simpl; [reflexivity|].
  intros H. apply andb_true_iff in H as [Hc Hs]. rewrite Hc. auto.
Qed.

Lemma strip_blank (s : str) : forallb isspace s = true -> strip s = [].
Proof.
  intros H. unfold strip, lstrip. now rewrite dropWhile_all.
Qed.

Lemma strip_lstrip (s : str) : strip (lstrip s) = strip s.
Proof.
  unfold strip, lstrip. now rewrite dropWhile_idem.
Qed.

(** *** [replace] *)

Lemma replace_from_skip (old new : str) (a s : str) :
  replace_from old new (List.length a) (a ++ s) = replace_from old new 0 s.
Proof.
  induction a as [|c a IH]; simpl; [reflexivity|]. exact IH.
Qed.

Lemma replace_from_absent (old new s : str) :
  ~ occurs old s -> replace_from old new 0 s = s.
Proof.
  induction s as [|c s IH]; intros H; simpl; [reflexivity|].
  destruct (startswith old (c :: s)) eqn:E.
  - exfalso. apply H. now apply startswith_occurs.
  - f_equal. apply IH. intros Ho. apply H. now apply occurs_tail.
Qed.

(** The leftmost occurrence is replaced and the search resumes after it. *)
Lemma replace_from_first (old new a b : str) (c : char) (o : str) :
  old = c :: o ->
  (forall a1 a2, a = a1 ++ a2 -> a2 <> [] -> startswith old (a2 ++ old ++ b) = false) ->
  replace_from old new 0 (a ++ old ++ b) = a ++ new ++ replace_from old new 0 b.
Proof.
  intros Ho. induction a as [|d a IH]; intros Hfirst.
  - simpl app at 1. subst old. simpl app at 1.
    cbn [replace_from]. 
    change (c :: o ++ b) with ((c :: o) ++ b).
    rewrite startswith_app.
    replace (List.length (c :: o) - 1) with (List.length o) by (simpl; lia).
    now rewrite replace_from_skip.
  - cbn [app replace_from].
    assert (E : startswith old ((d :: a) ++ old ++ b) = false)
      by (apply (Hfirst [] (d :: a)); [reflexivity|discriminate]).
    cbn [app] in E. rewrite E.
    f_equal. apply IH. intros a1 a2 -> Hne.
    apply (Hfirst (d :: a1) a2); [reflexivity|exact Hne].
Qed.

Lemma startswith_pair (x y : char) (s : str) :
  startswith [x; y] s = true -> exists r, s = x :: y :: r.
Proof.
  intros H. destruct (startswith_inv _ _ H) as [r ->]. now exists r.
Qed.

(** When [x x] does not occur in [a ++ [x]], no proper suffix of [a]
    followed by [x x] opens with [x x]. *)
Lemma first_pair (x : char) (a1 a2 b : str) :
  ~ occurs [x; x] ((a1 ++ a2) ++ [x]) -> a2 <> [] ->
  startswith [x; x] (a2 ++ [x; x] ++ b) = false.
Proof.
  intros Hno Hne.
  destruct (startswith [x; x] (a2 ++ [x; x] ++ b)) eqn:E; [|reflexivity].
  exfalso. apply Hno.
  apply startswith_pair in E as [r E].
  destruct a2 as [|u [|v a2]]; [congruence| |].
  - injection E as -> _. exists a1, []. now rewrite <- app_assoc.
  - injection E as -> -> _. exists a1, (a2 ++ [x]).
    now rewrite <- !app_assoc.
Qed.

Lemma replace_hashes_first (a b : str) :
  ~ occurs HASHES (a ++ [HASH]) ->
  replace HASHES [] (a ++ HASHES ++ b) = a ++ replace HASHES [] b.
Proof.
  intros Hno. unfold replace, HASHES. cbn [lit list_ascii_of_string map].
  change (N_of_ascii "#") with HASH.
  apply replace_from_first with (c := HASH) (o := [HASH]); [reflexivity|].
  intros a1 a2 -> Hne. now apply (first_pair HASH a1 a2 b).
Qed.

Lemma replace_hashes_absent (s : str) :
  ~ occurs HASHES s -> replace HASHES [] s = s.
Proof.
  intros H. unfold replace. change HASHES with [HASH; HASH] in *.
  now apply replace_from_absent.
Qed.

(** *** The bold pattern *)

Lemma occurs_stars_head (c : char) (g r : str) :
  startswith STARS (c :: g ++ STARS ++ r) = false ->
  ~ occurs STARS (g ++ [STAR]) ->
  ~ occurs STARS ((c :: g) ++ [STAR]).
Proof.
  change STARS with [STAR; STAR].
  intros E Hno (a & b & Hab). destruct a as [|d a].
  - cbn [app] in Hab. destruct g as [|x g].
    + cbn [app] in *. injection Hab as -> _. discriminate.
    + cbn [app] in *. injection Hab as -> -> _. discriminate.
  - cbn [app] in Hab. injection Hab as _ Hab. apply Hno. now exists a, b.
Qed.

Lemma find_close_sound (s g r : str) :
  find_close s = Some (g, r) ->
  s = g ++ STARS ++ r /\ ~ In NL g /\ ~ occurs STARS (g ++ [STAR]).
Proof.
  revert g r; induction s as [|c s IH]; intros g r.
  - simpl. discriminate.
  - cbn [find_close].
    destruct (startswith STARS (c :: s)) eqn:E.
    + intros [= <- <-].
      apply (startswith_pair STAR STAR) in E as [t E].
      injection E as -> ->.
      repeat split; [now intros [] | ].
      change STARS with [STAR; STAR].
      intros (a & b & Hab). destruct a as [|? [|? ?]]; discriminate.
    + destruct (N.eqb_spec c NL) as [->|Hc]; [discriminate|].
      destruct (find_close s) as [[g' r']|] eqn:F; [|discriminate].
      intros [= <- <-]. destruct (IH _ _ eq_refl) as (-> & Hnl & Hno).
      repeat split.
      * intros [H|H]; [congruence|contradiction].
      * now apply occurs_stars_head with (r := r').
Qed.

Lemma find_close_complete (g r : str) :
  ~ In NL g -> ~ occurs STARS (g ++ [STAR]) ->
  find_close (g ++ STARS ++ r) = Some (g, r).
Proof.
  induction g as [|c g IH]; intros Hnl Hno.
  - reflexivity.
  - change ((c :: g) ++ STARS ++ r) with (c :: g ++ STARS ++ r).
    cbn [find_close].
    destruct (startswith STARS (c :: g ++ STARS ++ r)) eqn:E.
    + exfalso. apply Hno.
      apply (startswith_pair STAR STAR) in E as [t E].
      injection E as -> E. change STARS with [STAR; STAR] in *.
      destruct g as [|d g]; cbn [app] in E.
      * now exists [], [].
      * injection E as -> _. now exists [], (g ++ [STAR]).
    + destruct (N.eqb_spec c NL) as [->|Hc]; [exfalso; apply Hnl; now left|].
      rewrite IH; [reflexivity| |].
      * intros H. apply Hnl. now right.
      * intros H. apply Hno. now apply occurs_tail.
Qed.

Lemma find_close_length (s g r : str) :
  find_close s = Some (g, r) -> List.length r < List.length s.
Proof.
  intros H. apply find_close_sound in H as (-> & _ & _).
  rewrite !length_app. change (List.length STARS) with 2. lia.
Qed.

Lemma match_bold_length (s g r : str) :
  match_bold s = Some (g, r) -> List.length r < List.length s.
Proof.
  unfold match_bold. destruct (startswith STARS s) eqn:E; [|discriminate].
  apply (startswith_pair STAR STAR) in E as [t ->].
  intros H. apply find_close_length in H. cbn [skipn List.length] in *. lia.
Qed.

(** Fuel beyond the length of the string changes nothing. *)
Lemma bold_sub_fuel_enough (n : nat) (s : str) :
  List.length s <= n -> bold_sub_fuel n s = bold_sub s.
Proof.
  unfold bold_sub.
  assert (H : forall m n s, List.length s <= m -> List.length s <= n ->
                            bold_sub_fuel m s = bold_sub_fuel n s).
  { clear. induction m as [|m IH]; intros n s Hm Hn.
    - destruct s; [|simpl in Hm; lia]. now destruct n.
    - destruct n as [|n]; [destruct s; [reflexivity|simpl in Hn; lia]|].
      destruct s as [|c t]; [reflexivity|].
      cbn [bold_sub_fuel].
      destruct (match_bold (c :: t)) as [[g r]|] eqn:E.
      + apply match_bold_length in E. simpl in *.
        rewrite (IH n r); [reflexivity| lia | lia].
      + simpl in *. rewrite (IH n t); [reflexivity| lia | lia]. }
  intros Hn. apply H; [exact Hn | lia].
Qed.

Lemma bold_sub_match (s g r : str) :
  match_bold s = Some (g, r) ->
  bold_sub s = lit "<b>" ++ g ++ lit "</b>" ++ bold_sub r.
Proof.
  intros E. pose proof (match_bold_length _ _ _ E) as L.
  unfold bold_sub at 1. destruct s as [|c t]; [discriminate|].
  cbn [List.length bold_sub_fuel]. rewrite E.
  rewrite bold_sub_fuel_enough; [reflexivity| simpl in L; lia].
Qed.

Lemma bold_sub_nomatch (c : char) (t : str) :
  match_bold (c :: t) = None -> bold_sub (c :: t) = c :: bold_sub t.
Proof.
  intros E. unfold bold_sub at 1. cbn [List.length bold_sub_fuel].
  now rewrite E.
Qed.

(** Text without [**] is left as it is. *)
Lemma bold_sub_plain (s : str) : ~ occurs STARS s -> bold_sub s = s.
Proof.
  induction s as [|c s IH]; intros H; [reflexivity|].
  rewrite bold_sub_nomatch.
  - f_equal. apply IH. intros Ho. apply H. now apply occurs_tail.
  - unfold match_bold. destruct (startswith STARS (c :: s)) eqn:E; [|reflexivity].
    exfalso. apply H. now apply startswith_occurs.
Qed.

(** The leftmost [**g**] becomes [<b>g</b>]; the text before it is kept
    and the substitution goes on after it. *)
Lemma bold_sub_first (a g b : str) :
  ~ occurs STARS (a ++ [STAR]) ->
  ~ In NL g -> ~ occurs STARS (g ++ [STAR]) ->
  bold_sub (a ++ STARS ++ g ++ STARS ++ b)
  = a ++ lit "<b>" ++ g ++ lit "</b>" ++ bold_sub b.
Proof.
  intros Ha Hnl Hg. induction a as [|c a IH].
  - cbn [app]. apply bold_sub_match. unfold match_bold.
    change (STARS ++ g ++ STARS ++ b) with (STAR :: STAR :: g ++ STARS ++ b).
    change (startswith STARS (STAR :: STAR :: g ++ STARS ++ b)) with true.
    cbn [skipn]. now apply find_close_complete.
  - cbn [app]. rewrite bold_sub_nomatch.
    + f_equal. apply IH. intros H. apply Ha. now apply occurs_tail.
    + unfold match_bold.
      assert (E : startswith STARS ((c :: a) ++ STARS ++ g ++ STARS ++ b) = false).
      { change STARS with [STAR; STAR] in *.
        apply (first_pair STAR [] (c :: a) (g ++ [STAR; STAR] ++ b)); [exact Ha|discriminate]. }
      cbn [app] in E. now rewrite E.
Qed.

Lemma occurs_cons_inv (p : str) (c : char) (s : str) :
  occurs p (c :: s) -> startswith p (c :: s) = true \/ occurs p s.
Proof.
  intros (a & b & H). destruct a as [|d a].
  - left. cbn [app] in H. rewrite H. apply startswith_app.
  - right. injection H as _ ->. now exists a, b.
Qed.

(** What the deletion of [##] leaves holds no [##]. *)
Lemma replace_hashes_clean (s : str) : ~ occurs HASHES (replace HASHES [] s).
Proof.
  unfold replace. change HASHES with [HASH; HASH].
  remember (List.length s) as n eqn:Hn.
  revert s Hn. induction n as [n IH] using lt_wf_ind. intros s Hn.
  destruct s as [|c t].
  - intros (a & b & H). destruct a; discriminate.
  - cbn [replace_from].
    destruct (startswith [HASH; HASH] (c :: t)) eqn:E.
    + apply startswith_pair in E as [r E]. injection E as -> ->.
      cbn [app List.length Nat.sub replace_from].
      apply (IH (List.length r)); [simpl in Hn; lia | reflexivity].
    + intros H. apply occurs_cons_inv in H as [H|H].
      * destruct t as [|d t].
        -- cbn in H. rewrite andb_false_r in H. discriminate.
        -- cbn [replace_from] in H.
           destruct (startswith [HASH; HASH] (d :: t)) eqn:E2.
           ++ apply startswith_pair in E2 as [r E2]. injection E2 as -> ->.
              cbn [startswith] in E. rewrite N.eqb_refl in E.
              cbn [startswith] in H.
              apply andb_true_iff in H as [Hc _].
              rewrite Hc in E. discriminate.
           ++ cbn [startswith] in H, E.
              apply andb_true_iff in H as [Hc H].
              apply andb_true_iff in H as [Hd _].
              rewrite Hc, Hd in E. discriminate.
      * revert H. apply (IH (List.length t)); [simpl in Hn; lia | reflexivity].
Qed.

(** ** The renderer *)

Section RendererFacts.

Variable tbl : str -> char -> str -> str.

Lemma lower_ascii_prefix (p before rest : str) :
  forallb isascii p = true ->
  lower_from tbl before (p ++ rest)
  = map ascii_lower p ++ lower_from tbl (before ++ p) rest.
Proof.
  revert before; induction p as [|c p IH]; intros before H.
  - cbn [app map]. now rewrite app_nil_r.
  - cbn [forallb] in H. apply andb_true_iff in H as [Hc Hp].
    cbn [app map lower_from]. rewrite Hc, (IH _ Hp).
    cbn [app]. now rewrite <- app_assoc.
Qed.

Lemma ascii_lower_ascii (c : char) :
  isascii (ascii_lower c) = true -> isascii c = true.
Proof.
  unfold ascii_lower, isascii.
  destruct ((65 <=? c) && (c <=? 90))%N eqn:E; [|tauto].
  intros _. apply andb_true_iff in E as [_ E].
  apply N.leb_le in E. apply N.ltb_lt. lia.
Qed.

(** An ASCII first character other than [p] or [P] rules the refusal
    phrase out. *)
Lemma refusal_head (c : char) (t : str) :
  isascii c = true -> N.eqb 112 (ascii_lower c) = false ->
  startswith REFUSAL (lower tbl (c :: t)) = false.
Proof.
  intros Ha Hp. unfold lower. cbn [lower_from]. rewrite Ha.
  cbn [app]. change REFUSAL with (112%N :: tl REFUSAL).
  cbn [startswith]. now rewrite Hp.
Qed.

Lemma line_block_heading (raw : str) :
  startswith HASHES (strip raw) = true ->
  line_block tbl raw
  = Some (Paragraph (strip (replace HASHES [] (strip raw))) Heading2).
Proof.
  intros H. unfold line_block. rewrite H.
  apply (startswith_pair HASH HASH) in H as [t H]. rewrite H.
  now rewrite refusal_head.
Qed.

Lemma line_block_not_spacer (raw : str) (b : flowable) :
  line_block tbl raw = Some b -> is_spacer b = false.
Proof.
  unfold line_block.
  destruct (PyStr.eqb (strip raw) [] || _); [discriminate|].
  destruct (startswith HASHES (strip raw)); [now intros [= <-]|].
  destruct (is_bullet_line (strip raw)); now intros [= <-].
Qed.

Lemma fold_append_line (lines : list str) (story : list flowable) :
  fold_left (append_block tbl) lines story
  = story ++ flat_map (blocks_of tbl) lines.
Proof.
  revert story; induction lines as [|l lines IH]; intros story.
  - cbn. now rewrite app_nil_r.
  - cbn [fold_left flat_map]. rewrite IH. unfold append_block, blocks_of.
    destruct (line_block tbl l).
    + now rewrite <- app_assoc.
    + reflexivity.
Qed.

End RendererFacts.

(** ** The blocks the lines ask for *)

Lemma occursb_false (p s : str) : occursb p s = false -> ~ occurs p s.
Proof.
  induction s as [|c s IH]; cbn [occursb]; intros H Ho.
  - destruct Ho as (a & b & Hab). rewrite orb_false_r in H.
    destruct a; [|discriminate]. destruct p; discriminate.
  - apply orb_false_iff in H as [H1 H2].
    apply occurs_cons_inv in Ho as [Ho|Ho]; [congruence|].
    now apply IH.
Qed.

Lemma filter_none {A} (p : A -> bool) (l : list A) :
  Forall (fun x => p x = false) l -> filter p l = [].
Proof.
  induction 1 as [|x l Hx _ IH]; [reflexivity|].
  cbn [filter]. now rewrite Hx.
Qed.

Section PlannedBlocks.

Variable tbl : str -> char -> str -> str.

(** A line that after trimming opens with the heading marker [## ]
    asks for a heading.  Its text is the trimmed line with every [##]
    deleted, trimmed again; when no [##] follows the marker, that is
    the rest of the line after the marker, trimmed. *)
Lemma planned_heading_marker (raw rest : str) :
  strip raw = lit "## " ++ rest ->
  line_block tbl raw
  = Some (Paragraph (strip (replace HASHES [] (strip raw))) Heading2)
  /\ (~ occurs HASHES rest ->
      line_block tbl raw = Some (Paragraph (strip rest) Heading2))
  /\ line_block tbl (lit "## Key Points")
     = Some (Paragraph (lit "Key Points") Heading2).
Proof.
  intros H.
  assert (R : line_block tbl raw
              = Some (Paragraph (strip (replace HASHES [] (strip raw))) Heading2)).
  { apply line_block_heading. now rewrite H. }
  split; [exact R|]. split; [|reflexivity].
  intros Hno. rewrite R, H. do 2 f_equal.
  change (lit "## " ++ rest) with (HASH :: HASH :: 32%N :: rest).
  unfold replace. change HASHES with [HASH; HASH].
  cbn [replace_from startswith List.length Nat.sub app].
  rewrite N.eqb_refl. cbn [andb app].
  change (startswith [HASH; HASH] (32%N :: rest)) with false. cbv iota.
  rewrite replace_from_absent by exact Hno.
  reflexivity.
Qed.

(** A line that after trimming opens with [##], a space after it or
    not, asks for a heading whose text is the trimmed line with every
    [##] deleted, trimmed again: the leftmost [##] goes and the
    deletion carries on after it, so no [##] is left. *)
Lemma planned_heading_hashes (raw : str) :
  startswith HASHES (strip raw) = true ->
  line_block tbl raw
  = Some (Paragraph (strip (replace HASHES [] (strip raw))) Heading2)
  /\ ~ occurs HASHES (replace HASHES [] (strip raw))
  /\ (forall a b, strip raw = a ++ HASHES ++ b ->
        ~ occurs HASHES (a ++ [HASH]) ->
        replace HASHES [] (strip raw) = a ++ replace HASHES [] b)
  /\ line_block tbl (lit "### Topic")
     = Some (Paragraph (lit "# Topic") Heading2)
  /\ line_block tbl (lit "## A ## B")
     = Some (Paragraph (lit "A  B") Heading2)
  /\ line_block tbl (lit "##Title")
     = Some (Paragraph (lit "Title") Heading2).
Proof.
  intros H. split; [now apply line_block_heading|].
  split; [apply replace_hashes_clean|].
  split; [|repeat split].
  intros a b -> Hno. now apply replace_hashes_first.
Qed.

Lemma is_marker_inv (m : char) :
  is_marker m = true -> m = STAR \/ m = 45%N \/ m = BULLET.
Proof.
  unfold is_marker. intros H.
  apply orb_true_iff in H as [H|H]; [apply orb_true_iff in H as [H|H]|];
    apply N.eqb_eq in H; auto.
Qed.

(** A line that after trimming opens with a bullet marker and a space
    asks for a bullet: the marker and the white space after it are
    gone, the text is trimmed, and the bold pattern is rewritten from
    left to right, [**g**] into [<b>g</b>].  For the marker U+2022 the
    case table must leave that code point alone, as Unicode does. *)
Lemma planned_bullet_line (raw : str) (m : char) (rest : str) :
  strip raw = m :: 32%N :: rest ->
  is_marker m = true ->
  (m = BULLET -> forall before after, tbl before BULLET after = [BULLET]) ->
  line_block tbl raw
  = Some (Paragraph ([BULLET; 32%N] ++ bold_sub (strip rest)) BulletStyle)
  /\ (forall a g b,
        strip rest = a ++ STARS ++ g ++ STARS ++ b ->
        ~ occurs STARS (a ++ [STAR]) ->
        ~ In NL g -> ~ occurs STARS (g ++ [STAR]) ->
        bold_sub (strip rest) = a ++ lit "<b>" ++ g ++ lit "</b>" ++ bold_sub b)
  /\ (~ occurs STARS (strip rest) -> bold_sub (strip rest) = strip rest)
  /\ line_block tbl (lit "* **Term**: definition")
     = Some (Paragraph ([BULLET; 32%N] ++ lit "<b>Term</b>: definition")
               BulletStyle).
Proof.
  intros H Hm Htbl.
  split; [|split; [|split; [apply bold_sub_plain | reflexivity]]].
  - unfold line_block. rewrite H.
    assert (Hr : startswith REFUSAL (lower tbl (m :: 32%N :: rest)) = false).
    { destruct (is_marker_inv _ Hm) as [->|[->| ->]].
      - now apply refusal_head.
      - now apply refusal_head.
      - unfold lower. cbn [lower_from].
        change (isascii BULLET) with false. cbv iota.
        now rewrite (Htbl eq_refl). }
    rewrite Hr.
    assert (Hh : startswith HASHES (m :: 32%N :: rest) = false)
      by (destruct (is_marker_inv _ Hm) as [->|[->| ->]]; reflexivity).
    assert (Hb : is_bullet_line (m :: 32%N :: rest) = true)
      by (destruct (is_marker_inv _ Hm) as [->|[->| ->]]; reflexivity).
    cbn [PyStr.eqb orb]. rewrite Hh, Hb.
    unfold strip_markers. rewrite Hm. cbn [dropWhile]. rewrite Hm.
    change (is_marker 32%N) with false. cbv iota.
    change (isspace 32%N) with true. cbv iota.
    fold (lstrip rest). now rewrite strip_lstrip.
  - intros a g b -> Ha Hnl Hg. now apply bold_sub_first.
Qed.

(** A line of white space only, and a line that after trimming opens
    with the refusal phrase in any mix of upper and lower case, ask for
    no block. *)
Lemma planned_blank_and_refusal (raw : str) :
  (forallb isspace raw = true
   \/ (exists p rest, strip raw = p ++ rest /\ map ascii_lower p = REFUSAL)
   \/ startswith REFUSAL (lower tbl (strip raw)) = true) ->
  line_block tbl raw = None
  /\ (forall story, append_block tbl story raw = story)
  /\ (forall before after story,
        fold_left (append_block tbl) (before ++ raw :: after) story
        = fold_left (append_block tbl) (before ++ after) story).
Proof.
  intros H.
  assert (R : line_block tbl raw = None).
  { unfold line_block. destruct H as [H|[(p & rest & H & Hp)|H]].
    - now rewrite (strip_blank _ H).
    - rewrite H. unfold lower. rewrite lower_ascii_prefix.
      + rewrite Hp, startswith_app. now rewrite orb_true_r.
      + apply forallb_forall. intros c Hc. apply ascii_lower_ascii.
        apply (in_map ascii_lower) in Hc. rewrite Hp in Hc.
        revert Hc. generalize (ascii_lower c). intros d Hd.
        unfold REFUSAL in Hd. cbn in Hd.
        repeat (destruct Hd as [<-|Hd]; [reflexivity|]). contradiction.
    - rewrite H. now rewrite orb_true_r. }
  split; [exact R|].
  assert (A : forall story, append_block tbl story raw = story)
    by (intros; unfold append_block; now rewrite R).
  split; [exact A|].
  intros before after story. rewrite !fold_left_app. cbn [fold_left].
  now rewrite A.
Qed.

(** The story a text asks for is the blocks of its lines, none of
    them a spacer, and then one spacer. *)
Lemma planned_story_spacer (summary_text : str) :
  planned_story tbl summary_text
  = flat_map (blocks_of tbl) (split NL (strip summary_text)) ++ [Spacer 1 20]
  /\ Forall (fun b => is_spacer b = false)
       (flat_map (blocks_of tbl) (split NL (strip summary_text)))
  /\ filter is_spacer (planned_story tbl summary_text) = [Spacer 1 20]
  /\ story_of (planned_document tbl summary_text) = planned_story tbl summary_text
  /\ planned_story tbl [] = [Spacer 1 20]
  /\ (Forall (fun l => line_block tbl l = None) (split NL (strip summary_text))
      <-> planned_story tbl summary_text = [Spacer 1 20]).
Proof.
  assert (E : planned_story tbl summary_text
              = flat_map (blocks_of tbl) (split NL (strip summary_text))
                  ++ [Spacer 1 20]).
  { unfold planned_story. now rewrite fold_append_line. }
  assert (F : forall lines,
             Forall (fun b => is_spacer b = false) (flat_map (blocks_of tbl) lines)).
  { induction lines as [|l lines IH]; cbn [flat_map]; [constructor|].
    apply Forall_app. split; [|exact IH]. unfold blocks_of.
    destruct (line_block tbl l) eqn:R; constructor; [|constructor].
    exact (line_block_not_spacer tbl l _ R). }
  split; [exact E|]. split; [apply F|].
  split.
  { rewrite E, filter_app. cbn [filter is_spacer].
    replace (filter is_spacer (flat_map (blocks_of tbl) (split NL (strip summary_text))))
      with (@nil flowable); [reflexivity|].
    symmetry. apply filter_none, F. }
  split; [reflexivity|]. split; [reflexivity|].
  rewrite E. generalize (split NL (strip summary_text)) as lines.
  intros lines. split.
  - intros H. induction H as [|l lines Hl _ IH]; [reflexivity|].
    cbn [flat_map]. unfold blocks_of at 1. now rewrite Hl.
  - induction lines as [|l lines IH]; [constructor|].
    cbn [flat_map]. unfold blocks_of at 1.
    destruct (line_block tbl l) eqn:R.
    + cbn [app]. intros [= _ Hx].
      destruct (flat_map (blocks_of tbl) lines); discriminate.
    + cbn [app]. intros Hx. constructor; [exact R|now apply IH].
Qed.

End PlannedBlocks.

(** ** Trimming and splitting *)

Lemma dropWhile_app_all (p : char -> bool) (a s : str) :
  forallb p a = true -> dropWhile p (a ++ s) = dropWhile p s.
Proof.
  induction a as [|c a IH]; cbn [app forallb dropWhile]; [reflexivity|].
  intros H. apply andb_true_iff in H as [Hc Ha]. rewrite Hc. auto.
Qed.

Lemma dropWhile_decomp (p : char -> bool) (s : str) :
  exists a, s = a ++ dropWhile p s /\ forallb p a = true.
Proof.
  induction s as [|c s (a & E & Ha)]; [now exists []|].
  cbn [dropWhile]. destruct (p c) eqn:Hc.
  - exists (c :: a). cbn [app forallb]. rewrite Hc, Ha. split; [now f_equal|reflexivity].
  - now exists [].
Qed.

Lemma forallb_rev (p : char -> bool) (s : str) :
  forallb p (rev s) = forallb p s.
Proof.
  induction s as [|c s IH]; [reflexivity|].
  cbn [rev forallb]. rewrite forallb_app, IH. cbn [forallb].
  rewrite andb_true_r. apply andb_comm.
Qed.

Lemma rstrip_app_blank (x b : str) :
  forallb isspace b = true -> rstrip (x ++ b) = rstrip x.
Proof.
  intros H. unfold rstrip. rewrite rev_app_distr, dropWhile_app_all; [reflexivity|].
  now rewrite forallb_rev.
Qed.

Lemma rstrip_decomp (x : str) :
  exists b, x = rstrip x ++ b /\ forallb isspace b = true.
Proof.
  unfold rstrip. destruct (dropWhile_decomp isspace (rev x)) as (a & E & Ha).
  exists (rev a). split; [|now rewrite forallb_rev].
  rewrite <- rev_app_distr, <- E. now rewrite rev_involutive.
Qed.

Lemma strip_decomp (s : str) :
  exists a b, s = a ++ strip s ++ b
              /\ forallb isspace a = true /\ forallb isspace b = true.
Proof.
  destruct (dropWhile_decomp isspace s) as (a & E & Ha).
  destruct (rstrip_decomp (lstrip s)) as (b & F & Hb).
  exists a, b. unfold strip. split; [|now split].
  rewrite <- F. exact E.
Qed.

Lemma strip_lstrip_app_blank (s b : str) :
  forallb isspace b = true -> rstrip (lstrip (s ++ b)) = rstrip (lstrip s).
Proof.
  intros H. induction s as [|c s IH].
  - cbn [app]. unfold lstrip. now rewrite (dropWhile_all _ _ H).
  - unfold lstrip in *. cbn [app dropWhile]. destruct (isspace c); [exact IH|].
    now apply (rstrip_app_blank (c :: s) b).
Qed.

(** White space around a string does not change what [strip] gives. *)
Lemma strip_pad (a s b : str) :
  forallb isspace a = true -> forallb isspace b = true ->
  strip (a ++ s ++ b) = strip s.
Proof.
  intros Ha Hb. unfold strip, lstrip at 1.
  rewrite (dropWhile_app_all _ _ _ Ha). now apply strip_lstrip_app_blank.
Qed.

Lemma strip_idem (s : str) : strip (strip s) = strip s.
Proof.
  destruct (strip_decomp s) as (a & b & E & Ha & Hb).
  rewrite E at 2. now rewrite strip_pad.
Qed.

Lemma occurs_strip (p s : str) : occurs p (strip s) -> occurs p s.
Proof.
  destruct (strip_decomp s) as (a & b & E & _ & _).
  intros (u & v & H). rewrite E, H. exists (a ++ u), (v ++ b).
  now rewrite <- !app_assoc.
Qed.

Lemma In_strip (c : char) (s : str) : In c (strip s) -> In c s.
Proof.
  destruct (strip_decomp s) as (a & b & E & _ & _).
  intros H. rewrite E. apply in_or_app. right. apply in_or_app. now left.
Qed.

Lemma split_nonempty (sep : char) (s : str) : split sep s <> [].
Proof.
  destruct s as [|c s]; cbn [split]; [discriminate|].
  destruct (N.eqb c sep); [discriminate|].
  destruct (split sep s); discriminate.
Qed.

(** The lines of [x] followed by a newline and [y] are the lines of [x],
    then the lines of [y]. *)
Lemma split_app_sep (sep : char) (x y : str) :
  split sep (x ++ sep :: y) = split sep x ++ split sep y.
Proof.
  induction x as [|c x IH]; cbn [app split].
  - now rewrite N.eqb_refl.
  - destruct (N.eqb c sep); [now rewrite IH|].
    rewrite IH. pose proof (split_nonempty sep x) as N.
    destruct (split sep x); [contradiction|reflexivity].
Qed.

(** What is appended to a text goes to its last line. *)
Lemma split_app (sep : char) (x : str) :
  exists front last_line,
    split sep x = front ++ [last_line]
    /\ forall y, split sep (x ++ y)
                 = front ++ (last_line ++ hd [] (split sep y))
                             :: tl (split sep y).
Proof.
  induction x as [|c x (front & l & E & H)].
  - exists [], []. split; [reflexivity|]. intros y. cbn [app].
    pose proof (split_nonempty sep y) as N.
    now destruct (split sep y).
  - cbn [app split]. destruct (N.eqb c sep).
    + exists ([] :: front), l. split; [now rewrite E|].
      intros y. now rewrite H.
    + destruct front as [|f front].
      * exists [], (c :: l). split; [now rewrite E|].
        intros y. now rewrite H.
      * exists ((c :: f) :: front), l. split; [now rewrite E|].
        intros y. now rewrite H.
Qed.

Lemma split_no_sep (sep : char) (s : str) :
  Forall (fun l => ~ In sep l) (split sep s).
Proof.
  induction s as [|c s IH]; cbn [split].
  - constructor; [now intros []|constructor].
  - destruct (N.eqb_spec c sep) as [->|Hc].
    + constructor; [now intros []|exact IH].
    + destruct (split sep s) as [|l ls]; [constructor; [|constructor]|].
      * intros [H|[]]. congruence.
      * inversion IH as [|? ? Hl Hls]; subst. constructor; [|exact Hls].
        intros [H|H]; [congruence|contradiction].
Qed.

Lemma split_blank (s : str) :
  forallb isspace s = true ->
  Forall (fun l => forallb isspace l = true) (split NL s).
Proof.
  induction s as [|c s IH]; cbn [split forallb]; intros H.
  - constructor; [reflexivity|constructor].
  - apply andb_true_iff in H as [Hc Hs]. specialize (IH Hs).
    destruct (N.eqb c NL).
    + constructor; [reflexivity|exact IH].
    + destruct (split NL s) as [|l ls]; [constructor; [|constructor]|].
      * cbn. now rewrite Hc.
      * inversion IH; subst. constructor; [|assumption].
        cbn [forallb]. now rewrite Hc.
Qed.

Lemma split_length (sep : char) (s : str) :
  List.length (split sep s) = S (count_occ N.eq_dec s sep).
Proof.
  induction s as [|c s IH]; [reflexivity|].
  cbn [split count_occ]. destruct (N.eqb_spec c sep) as [->|Hc].
  - destruct (N.eq_dec sep sep); [|contradiction]. cbn. now rewrite IH.
  - destruct (N.eq_dec c sep); [contradiction|].
    rewrite <- IH. destruct (split sep s); [|reflexivity].
    now elim (split_nonempty sep s).
Qed.

(** ** The blocks of a whole text *)

Lemma replace_from_subset (old : str) (k : nat) (s : str) (c : char) :
  In c (replace_from old [] k s) -> In c s.
Proof.
  revert k; induction s as [|d s IH]; intros k; cbn [replace_from]; [tauto|].
  destruct k as [|k].
  - destruct (startswith old (d :: s)).
    + cbn [app]. intros H. right. eapply IH, H.
    + intros [H|H]; [now left|right; eapply IH, H].
  - intros H. right. eapply IH, H.
Qed.

Lemma replace_hashes_pair (s : str) :
  replace HASHES [] (HASH :: HASH :: s) = replace HASHES [] s.
Proof. reflexivity. Qed.

Lemma replace_hashes_single (s : str) :
  startswith [HASH] s = false ->
  replace HASHES [] (HASH :: s) = HASH :: replace HASHES [] s.
Proof.
  intros H. unfold replace. change HASHES with [HASH; HASH].
  cbn [replace_from]. destruct s as [|c s]; [reflexivity|].
  cbn [startswith] in *. rewrite N.eqb_refl. cbn [andb].
  rewrite andb_true_r in *. now rewrite H.
Qed.

Lemma replace_hashes_run (k : nat) (odd : bool) (s : str) :
  startswith [HASH] s = false ->
  replace HASHES []
    (repeat HASH (2 * k + (if odd then 1 else 0)) ++ s)
  = (if odd then [HASH] else []) ++ replace HASHES [] s.
Proof.
  intros H. induction k as [|k IH].
  - destruct odd; cbn [Nat.mul Nat.add repeat app]; [|reflexivity].
    now apply replace_hashes_single.
  - replace (2 * S k + (if odd then 1 else 0))
      with (S (S (2 * k + (if odd then 1 else 0)))) by lia.
    cbn [repeat app]. now rewrite replace_hashes_pair.
Qed.

Lemma find_close_subset (s g r : str) (c : char) :
  find_close s = Some (g, r) -> (In c g -> In c s) /\ (In c r -> In c s).
Proof.
  intros H. apply find_close_sound in H as (-> & _ & _).
  split; intros Hc; apply in_or_app; [now left|].
  right. apply in_or_app. now right.
Qed.

(** The substitution adds nothing but the characters of the two tags. *)
Lemma bold_sub_subset (s : str) (c : char) :
  In c (bold_sub s) -> In c s \/ In c (lit "<b>/").
Proof.
  remember (List.length s) as n eqn:Hn. revert s Hn.
  induction n as [n IH] using lt_wf_ind. intros s Hn.
  destruct s as [|d t]; [now left|].
  destruct (match_bold (d :: t)) as [[g r]|] eqn:E.
  - rewrite (bold_sub_match _ _ _ E).
    pose proof (match_bold_length _ _ _ E) as L.
    unfold match_bold in E.
    destruct (startswith STARS (d :: t)) eqn:S; [|discriminate].
    apply (startswith_pair STAR STAR) in S as [u S]. rewrite S in *.
    cbn [skipn] in E. destruct (find_close_subset _ _ _ c E) as [Hg Hr].
    intros H. apply in_app_or in H as [H|H].
    { right. cbn in H |- *. tauto. }
    apply in_app_or in H as [H|H].
    { left. right. right. now apply Hg. }
    apply in_app_or in H as [H|H].
    { right. cbn in H |- *. tauto. }
    destruct (IH (List.length r) ltac:(lia) r eq_refl H) as [H'|H'];
      [left; right; right; now apply Hr | now right].
  - rewrite (bold_sub_nomatch _ _ E). intros [H|H]; [left; now left|].
    destruct (IH (List.length t) ltac:(subst; cbn; lia) t eq_refl H) as [H'|H'];
      [left; now right | now right].
Qed.

Lemma bold_sub_nonempty (s : str) : s <> [] -> bold_sub s <> [].
Proof.
  destruct s as [|d t]; [congruence|]. intros _.
  destruct (match_bold (d :: t)) as [[g r]|] eqn:E.
  - rewrite (bold_sub_match _ _ _ E). discriminate.
  - rewrite (bold_sub_nomatch _ _ E). discriminate.
Qed.

Lemma strip_markers_subset (s : str) (c : char) :
  In c (strip_markers s) -> In c s.
Proof.
  assert (D : forall p x, In c (dropWhile p x) -> In c x).
  { intros p x. destruct (dropWhile_decomp p x) as (a & E & _).
    intros H. rewrite E. apply in_or_app. now right. }
  unfold strip_markers. destruct s as [|d s]; [tauto|].
  destruct (is_marker d); [|tauto]. intros H. now apply D, D in H.
Qed.

Section RendererMore.

Variable tbl : str -> char -> str -> str.

Lemma line_block_strip (raw : str) :
  line_block tbl (strip raw) = line_block tbl raw.
Proof. unfold line_block. now rewrite strip_idem. Qed.

Lemma line_block_pad (a raw b : str) :
  forallb isspace a = true -> forallb isspace b = true ->
  line_block tbl (a ++ raw ++ b) = line_block tbl raw.
Proof. intros Ha Hb. unfold line_block. now rewrite strip_pad. Qed.

Lemma blocks_of_blank (l : str) :
  forallb isspace l = true -> blocks_of tbl l = [].
Proof.
  intros H. unfold blocks_of, line_block. now rewrite (strip_blank _ H).
Qed.

Lemma blocks_blank_lines (ls : list str) :
  Forall (fun l => forallb isspace l = true) ls ->
  flat_map (blocks_of tbl) ls = [].
Proof.
  induction 1 as [|l ls Hl _ IH]; [reflexivity|].
  cbn [flat_map]. now rewrite (blocks_of_blank _ Hl), IH.
Qed.

Lemma blocks_lead_blank (a s : str) :
  forallb isspace a = true ->
  flat_map (blocks_of tbl) (split NL (a ++ s))
  = flat_map (blocks_of tbl) (split NL s).
Proof.
  induction a as [|c a IH]; cbn [app forallb]; [reflexivity|].
  intros H. apply andb_true_iff in H as [Hc Ha]. specialize (IH Ha).
  cbn [split]. destruct (N.eqb c NL).
  - cbn [flat_map]. rewrite IH.
    now rewrite (blocks_of_blank [] eq_refl).
  - pose proof (split_nonempty NL (a ++ s)) as N1.
    pose proof (split_nonempty NL s) as N2.
    rewrite <- IH. destruct (split NL (a ++ s)) as [|l ls]; [contradiction|].
    cbn [flat_map]. f_equal. unfold blocks_of.
    pose proof (line_block_pad [c] l []) as P.
    rewrite app_nil_r in P. cbn [app forallb] in P.
    rewrite P; [reflexivity | now rewrite Hc | reflexivity].
Qed.

Lemma blocks_trail_blank (s b : str) :
  forallb isspace b = true ->
  flat_map (blocks_of tbl) (split NL (s ++ b))
  = flat_map (blocks_of tbl) (split NL s).
Proof.
  intros Hb. destruct (split_app NL s) as (front & l & E & H).
  rewrite H, E, !flat_map_app. f_equal. cbn [flat_map].
  pose proof (split_blank b Hb) as B.
  pose proof (split_nonempty NL b) as Nb.
  destruct (split NL b) as [|w ws]; [contradiction|].
  inversion B as [|? ? Hw Hws]; subst. cbn [hd tl].
  rewrite (blocks_blank_lines ws Hws). f_equal. unfold blocks_of.
  pose proof (line_block_pad [] l w eq_refl Hw) as P.
  cbn [app] in P. now rewrite P.
Qed.

(** The trimming of the whole text changes no block. *)
Lemma blocks_strip (s : str) :
  flat_map (blocks_of tbl) (split NL (strip s))
  = flat_map (blocks_of tbl) (split NL s).
Proof.
  destruct (strip_decomp s) as (a & b & E & Ha & Hb).
  rewrite E at 2. rewrite (blocks_lead_blank _ _ Ha).
  now rewrite (blocks_trail_blank _ _ Hb).
Qed.

Lemma planned_story_lines (s : str) :
  planned_story tbl s = flat_map (blocks_of tbl) (split NL s) ++ [Spacer 1 20].
Proof.
  unfold planned_story. now rewrite fold_append_line, blocks_strip.
Qed.

Lemma blocks_of_length (l : str) : List.length (blocks_of tbl l) <= 1.
Proof. unfold blocks_of. destruct (line_block tbl l); cbn; lia. Qed.

Lemma flat_map_blocks_length (ls : list str) :
  List.length (flat_map (blocks_of tbl) ls) <= List.length ls.
Proof.
  induction ls as [|l ls IH]; [reflexivity|].
  cbn [flat_map List.length]. rewrite length_app.
  pose proof (blocks_of_length l). lia.
Qed.

End RendererMore.

Section PlannedStories.

Variable tbl : str -> char -> str -> str.

(** A trimmed line that opens with a single [#], or with a star or a
    hyphen that no space follows, or with any other ASCII character but
    [p] and [P], asks for a body paragraph: its text is the trimmed
    line with the bold pattern rewritten. *)
Lemma planned_plain_line (raw : str) (c : char) (t : str) :
  strip raw = c :: t ->
  (c = HASH /\ startswith [HASH] t = false)
  \/ ((c = STAR \/ c = 45%N) /\ startswith [32%N] t = false)
  \/ (isascii c = true /\ c <> 80%N /\ c <> 112%N
      /\ c <> HASH /\ c <> STAR /\ c <> 45%N) ->
  line_block tbl raw = Some (Paragraph (bold_sub (strip raw)) BodyText).
Proof.
  intros E H. unfold line_block. rewrite E.
  assert (R : startswith REFUSAL (lower tbl (c :: t)) = false).
  { destruct H as [[-> _]|[[[-> | ->] _]|(Ha & H80 & H112 & _)]];
      try (now apply refusal_head).
    apply refusal_head; [exact Ha|].
    unfold ascii_lower. destruct ((65 <=? c) && (c <=? 90))%N eqn:U.
    - apply N.eqb_neq. intros Hc. apply H80.
      apply (f_equal (fun x => N.sub x 32)) in Hc.
      rewrite N.add_sub in Hc. now subst c.
    - apply N.eqb_neq. congruence. }
  rewrite R. cbn [PyStr.eqb orb].
  assert (F : startswith HASHES (c :: t) = false
              /\ is_bullet_line (c :: t) = false).
  { destruct H as [[-> Hh]|[[Hc Hs]|(Ha & _ & _ & Hh & Hs & Hm)]].
    - split; [|reflexivity]. change HASHES with [HASH; HASH].
      cbn [startswith] in *. rewrite N.eqb_refl. cbn [andb].
      destruct t; [reflexivity|]. cbn [startswith] in *.
      now rewrite andb_true_r in *.
    - split; [destruct Hc as [-> | ->]; reflexivity|].
      unfold is_bullet_line.
      assert (Q : forall m, startswith [m; 32%N] (c :: t)
                            = (m =? c)%N && startswith [32%N] t).
      { intros m. cbn [startswith]. destruct t; [|reflexivity].
        now rewrite andb_false_r. }
      change (lit "* ") with [STAR; 32%N].
      change (lit "- ") with [45%N; 32%N].
      rewrite !Q, Hs, !andb_false_r. reflexivity.
    - apply N.eqb_neq in Hh, Hs, Hm.
      split.
      + change HASHES with [HASH; HASH]. cbn [startswith].
        rewrite N.eqb_sym, Hh. reflexivity.
      + unfold is_bullet_line.
        change (lit "* ") with [STAR; 32%N].
        change (lit "- ") with [45%N; 32%N].
        cbn [startswith]. rewrite (N.eqb_sym STAR), Hs, (N.eqb_sym 45), Hm.
        cbn [andb orb].
        destruct (N.eqb_spec BULLET c) as [<-|]; [discriminate Ha|reflexivity]. }
  destruct F as [-> ->]. reflexivity.
Qed.

(** A line asks for at most one block. *)
Lemma planned_story_length (summary_text : str) :
  1 <= List.length (planned_story tbl summary_text)
  /\ List.length (planned_story tbl summary_text)
     <= count_occ N.eq_dec summary_text NL + 2.
Proof.
  rewrite planned_story_lines, length_app. cbn [List.length].
  pose proof (flat_map_blocks_length tbl (split NL summary_text)) as L.
  rewrite split_length in L. lia.
Qed.

(** The story two texts joined by a newline ask for. *)
Lemma planned_story_joined (x y : str) :
  planned_story tbl (x ++ NL :: y)
  = removelast (planned_story tbl x) ++ planned_story tbl y.
Proof.
  rewrite !planned_story_lines, split_app_sep, flat_map_app, removelast_last.
  now rewrite <- app_assoc.
Qed.

Lemma line_block_well_formed (raw : str) (b : flowable) :
  ~ In NL raw -> line_block tbl raw = Some b -> well_formed_block b.
Proof.
  intros Hnl. unfold line_block.
  assert (Hs : ~ In NL (strip raw)) by (intros H; now apply Hnl, In_strip).
  assert (Hb : forall x, ~ In NL x -> ~ In NL (bold_sub x)).
  { intros x Hx H. apply bold_sub_subset in H as [H|H]; [now apply Hx|].
    cbn in H. repeat (destruct H as [H|H]; [discriminate H|]). exact H. }
  destruct (PyStr.eqb (strip raw) [] || _) eqn:D; [discriminate|].
  apply orb_false_iff in D as [D _].
  destruct (startswith HASHES (strip raw)).
  - intros [= <-]. cbn [well_formed_block]. split; [|split].
    + intros H. apply occurs_strip in H. revert H. apply replace_hashes_clean.
    + apply strip_idem.
    + intros H. apply In_strip in H. unfold replace in H.
      change HASHES with [HASH; HASH] in H.
      now apply replace_from_subset in H.
  - destruct (is_bullet_line (strip raw)).
    + intros [= <-]. cbn [well_formed_block]. split; [reflexivity|].
      cbn [app]. intros [H|[H|H]]; [discriminate H|discriminate H|].
      revert H. apply Hb. intros H.
      now apply In_strip, strip_markers_subset in H.
    + intros [= <-]. cbn [well_formed_block]. split; [|now apply Hb].
      apply bold_sub_nonempty. intros H. now rewrite H in D.
Qed.

(** Every block a text asks for is well formed. *)
Lemma planned_story_well_formed (summary_text : str) :
  Forall well_formed_block (planned_story tbl summary_text).
Proof.
  rewrite planned_story_lines. apply Forall_app. split.
  - pose proof (split_no_sep NL summary_text) as H.
    induction H as [|l ls Hl _ IH]; [constructor|].
    cbn [flat_map]. apply Forall_app. split; [|exact IH].
    unfold blocks_of. destruct (line_block tbl l) eqn:R; [|constructor].
    constructor; [|constructor]. now apply (line_block_well_formed l).
  - constructor; [|constructor]. now split.
Qed.

(** A trimmed line that opens with a run of two or more [#] asks for
    a heading from which the run goes in pairs. *)
Lemma planned_heading_hash_run (raw : str) (k : nat) (odd : bool) (rest : str) :
  strip raw = repeat HASH (2 * k + (if odd then 1 else 0)) ++ rest ->
  1 <= k ->
  startswith [HASH] rest = false ->
  line_block tbl raw
  = Some (Paragraph
            (strip ((if odd then [HASH] else []) ++ replace HASHES [] rest))
            Heading2).
Proof.
  intros E Hk Hr. rewrite line_block_heading.
  - now rewrite E, replace_hashes_run.
  - rewrite E. destruct k as [|k]; [lia|].
    replace (2 * S k + (if odd then 1 else 0))
      with (S (S (2 * k + (if odd then 1 else 0)))) by lia.
    reflexivity.
Qed.

End PlannedStories.
Lemma find_close_absent (t : str) : ~ occurs STARS t -> find_close t = None.
Proof.
  intros H. destruct (find_close t) as [[g r]|] eqn:E; [|reflexivity].
  exfalso. apply H. apply find_close_sound in E as (-> & _ & _).
  now exists g, r.
Qed.

Lemma bold_sub_open_only (t : str) :
  ~ occurs STARS t -> bold_sub (STARS ++ t) = STARS ++ t.
Proof.
  intros H. change (STARS ++ t) with (STAR :: STAR :: t).
  rewrite bold_sub_nomatch.
  2:{ unfold match_bold. change (startswith STARS (STAR :: STAR :: t)) with true.
      cbn [skipn]. now apply find_close_absent. }
  f_equal. rewrite bold_sub_nomatch.
  - f_equal. now apply bold_sub_plain.
  - unfold match_bold. destruct (startswith STARS (STAR :: t)) eqn:E; [|reflexivity].
    cbn [skipn]. apply find_close_absent. intros Ho. apply H.
    destruct t as [|c t]; [cbn in E; discriminate|]. now apply occurs_tail.
Qed.

Section PlannedLineBreaks.

Variable tbl : str -> char -> str -> str.

(** White space next to a line break changes no block. *)
Lemma planned_blanks_at_breaks (x y ws : str) :
  forallb isspace ws = true ->
  planned_story tbl (x ++ ws ++ NL :: y) = planned_story tbl (x ++ NL :: y)
  /\ planned_story tbl (x ++ NL :: ws ++ y) = planned_story tbl (x ++ NL :: y).
Proof.
  intros H. rewrite !planned_story_lines. split; f_equal.
  - rewrite app_assoc, !split_app_sep, !flat_map_app. f_equal.
    now apply blocks_trail_blank.
  - change (x ++ NL :: ws ++ y) with (x ++ NL :: (ws ++ y)).
    rewrite !split_app_sep, !flat_map_app. f_equal.
    now apply blocks_lead_blank.
Qed.

End PlannedLineBreaks.

(** ** The bold pattern on a whole line *)

Lemma bold_sub_pieces (pieces : list (str * str)) (tail : str) :
  Forall bold_piece pieces ->
  bold_sub (marked pieces tail) = tagged pieces (bold_sub tail).
Proof.
  induction 1 as [|[a g] pieces (Ha & Hn & Hg) _ IH]; [reflexivity|].
  cbn [marked tagged fst snd] in *.
  rewrite bold_sub_first by assumption. now rewrite IH.
Qed.

Lemma bold_sub_unpaired (s : str) : unpaired s -> bold_sub s = s.
Proof.
  induction s as [|c s IH]; intros H; [reflexivity|].
  rewrite bold_sub_nomatch.
  - f_equal. apply IH. intros a g b E. apply (H (c :: a) g b).
    cbn [app]. now rewrite E.
  - destruct (match_bold (c :: s)) as [[g r]|] eqn:E; [|reflexivity].
    exfalso. unfold match_bold in E.
    destruct (startswith STARS (c :: s)) eqn:S; [|discriminate].
    apply (startswith_pair STAR STAR) in S as [u S]. rewrite S in E.
    cbn [skipn] in E. apply find_close_sound in E as (E & _).
    apply (H [] g r). rewrite S, E. reflexivity.
Qed.

Lemma find_close_exists (g b : str) :
  ~ In NL g -> find_close (g ++ STARS ++ b) <> None.
Proof.
  induction g as [|c g IH]; intros Hn.
  - cbn. discriminate.
  - change ((c :: g) ++ STARS ++ b) with (c :: g ++ STARS ++ b).
    cbn [find_close].
    destruct (startswith STARS (c :: g ++ STARS ++ b)); [discriminate|].
    destruct (N.eqb_spec c NL) as [->|Hc]; [elim Hn; now left|].
    specialize (IH (fun H => Hn (or_intror H))).
    destruct (find_close (g ++ STARS ++ b)) as [[? ?]|];
      [discriminate|contradiction].
Qed.

Lemma match_bold_exists (g b : str) :
  ~ In NL g -> match_bold (STARS ++ g ++ STARS ++ b) <> None.
Proof.
  intros H. unfold match_bold.
  change (STARS ++ g ++ STARS ++ b) with (STAR :: STAR :: g ++ STARS ++ b).
  change (startswith STARS (STAR :: STAR :: g ++ STARS ++ b)) with true.
  cbn [skipn]. now apply find_close_exists.
Qed.

Lemma no_stars_nil : ~ occurs STARS ([] ++ [STAR]).
Proof. intros (u & v & H). destruct u as [|? [|? ?]]; discriminate. Qed.

(** Every line reads as pieces the pattern matches, one after the
    other, and a tail it does not match. *)
Lemma bold_pieces_exist (s : str) :
  ~ In NL s ->
  exists pieces tail,
    s = marked pieces tail /\ Forall bold_piece pieces /\ unpaired tail.
Proof.
  remember (List.length s) as n eqn:Hn. revert s Hn.
  induction n as [n IH] using lt_wf_ind. intros s Hn Hnl.
  destruct s as [|c t].
  - exists [], []. split; [reflexivity|]. split; [constructor|].
    intros a g b H. destruct a; discriminate H.
  - destruct (match_bold (c :: t)) as [[g r]|] eqn:E.
    + pose proof (match_bold_length _ _ _ E) as L.
      unfold match_bold in E.
      destruct (startswith STARS (c :: t)) eqn:S; [|discriminate].
      apply (startswith_pair STAR STAR) in S as [u S]. rewrite S in *.
      cbn [skipn] in E. apply find_close_sound in E as (-> & Hg1 & Hg2).
      destruct (IH (List.length r) ltac:(subst n; lia) r eq_refl)
        as (pieces & tail & -> & F & U).
      { intros H. apply Hnl. right. right. apply in_or_app. right.
        apply in_or_app. now right. }
      exists (([], g) :: pieces), tail. split; [reflexivity|].
      split; [|exact U]. constructor; [|exact F].
      split; [exact no_stars_nil|]. split; assumption.
    + destruct (IH (List.length t) ltac:(subst n; cbn; lia) t eq_refl)
        as (pieces & tail & Et & F & U).
      { intros H. apply Hnl. now right. }
      destruct pieces as [|[a g] pieces].
      * cbn [marked] in Et. subst tail.
        exists [], (c :: t). split; [reflexivity|]. split; [constructor|].
        intros a g b H. destruct a as [|d a].
        -- cbn [app] in H. rewrite H in E, Hnl.
           revert E. apply match_bold_exists.
           intros Hg. apply Hnl. apply in_or_app. right.
           apply in_or_app. now left.
        -- injection H as _ H. exact (U a g b H).
      * exists ((c :: a, g) :: pieces), tail.
        split; [cbn [marked app]; now rewrite Et|].
        split; [|exact U].
        inversion F as [|? ? (Ha & Hg1 & Hg2) F']; subst.
        constructor; [|exact F']. cbn [fst snd] in *.
        split; [|split; assumption].
        intros Ho. apply occurs_cons_inv in Ho as [Ho|Ho]; [|now apply Ha].
        apply (startswith_pair STAR STAR) in Ho as [u Hu].
        injection Hu as -> Hu. change (a ++ [STAR] = STAR :: u) in Hu.
        assert (Es : STAR :: marked ((a, g) :: pieces) tail
                     = STARS ++ (u ++ STAR :: g) ++ STARS ++ marked pieces tail).
        { cbn [marked].
          change (a ++ STARS ++ g ++ STARS ++ marked pieces tail)
            with (a ++ [STAR] ++ STAR :: g ++ STARS ++ marked pieces tail).
          rewrite (app_assoc a [STAR]), Hu. cbn [app]. now rewrite <- app_assoc. }
        rewrite Es in E, Hnl. revert E. apply match_bold_exists.
        intros Hg. apply Hnl. apply in_or_app. right.
           apply in_or_app. now left.
Qed.

(** ** The renderer on the library *)

Section RendererOnLibrary.

Variable tbl : str -> char -> str -> str.
Variable rl : reportlab.

Lemma appended_accepted (t : str) (s : style_name) :
  paragraph_ok rl t s = true ->
  appended (paragraph rl t s) = inr (Some (Paragraph t s)).
Proof. intros H. unfold paragraph. now rewrite H. Qed.

Lemma appended_refused (t : str) (s : style_name) :
  paragraph_ok rl t s = false ->
  appended (paragraph rl t s) = inl ValueError.
Proof. intros H. unfold paragraph. now rewrite H. Qed.

(** The loop body builds the paragraph the line asks for. *)
Lemma render_line_plan (raw : str) :
  render_line tbl rl raw
  = match line_block tbl raw with
    | None => inr None
    | Some (Paragraph t s) => appended (paragraph rl t s)
    | Some (Spacer w h) => inr (Some (Spacer w h))
    end.
Proof.
  unfold render_line, line_block.
  destruct (PyStr.eqb (strip raw) [] || _); [reflexivity|].
  destruct (startswith HASHES (strip raw)); [reflexivity|].
  now destruct (is_bullet_line (strip raw)).
Qed.

Lemma render_line_accepted (raw : str) :
  render_line tbl rl raw
  = match line_block tbl raw with
    | None => inr None
    | Some b => if accepted rl b then inr (Some b) else inl ValueError
    end.
Proof.
  rewrite render_line_plan.
  destruct (line_block tbl raw) as [[t s|w h]|]; try reflexivity.
  unfold paragraph. cbn [accepted]. now destruct (paragraph_ok rl t s).
Qed.

Lemma render_line_paragraph (raw t : str) (s : style_name) :
  line_block tbl raw = Some (Paragraph t s) ->
  render_line tbl rl raw = appended (paragraph rl t s)
  /\ (paragraph_ok rl t s = true ->
      render_line tbl rl raw = inr (Some (Paragraph t s)))
  /\ (paragraph_ok rl t s = false -> render_line tbl rl raw = inl ValueError).
Proof.
  intros H. rewrite render_line_plan, H.
  split; [reflexivity|].
  split; intros Hp; [now apply appended_accepted|now apply appended_refused].
Qed.

Lemma render_line_none (raw : str) :
  line_block tbl raw = None <-> render_line tbl rl raw = inr None.
Proof.
  rewrite render_line_accepted.
  destruct (line_block tbl raw) as [b|]; [|tauto].
  destruct (accepted rl b); split; discriminate.
Qed.

Lemma fold_append_line_raised (lines : list str) (e : exn) :
  fold_left (append_line tbl rl) lines (inl e) = inl e.
Proof. induction lines as [|l lines IH]; [reflexivity|exact IH]. Qed.

Lemma fold_append_line_plan (lines : list str) (story : list flowable) :
  fold_left (append_line tbl rl) lines (inr story)
  = if forallb (accepted rl) (flat_map (blocks_of tbl) lines)
    then inr (story ++ flat_map (blocks_of tbl) lines)
    else inl ValueError.
Proof.
  revert story; induction lines as [|l lines IH]; intros story.
  - cbn. now rewrite app_nil_r.
  - assert (S : append_line tbl rl (inr story) l
                = match line_block tbl l with
                  | None => inr story
                  | Some b => if accepted rl b then inr (story ++ [b])
                              else inl ValueError
                  end).
    { unfold append_line. rewrite render_line_accepted.
      destruct (line_block tbl l) as [b|]; [|reflexivity].
      now destruct (accepted rl b). }
    cbn [fold_left flat_map]. rewrite S. unfold blocks_of at 1 3.
    destruct (line_block tbl l) as [b|].
    + cbn [app forallb]. destruct (accepted rl b); cbn [andb].
      * rewrite IH. now rewrite <- app_assoc.
      * apply fold_append_line_raised.
    + cbn [app]. apply IH.
Qed.

(** The story is the one the text asks for when the library builds
    every paragraph of it; otherwise the first paragraph it refuses
    ends the loop. *)
Lemma build_story_plan (s : str) :
  build_story tbl rl s
  = if forallb (accepted rl) (flat_map (blocks_of tbl) (split NL (strip s)))
    then inr (planned_story tbl s)
    else inl ValueError.
Proof.
  unfold build_story, planned_story.
  rewrite fold_append_line_plan, fold_append_line. cbn [app].
  now destruct (forallb _ _).
Qed.

Lemma build_story_built (s : str) (story : list flowable) :
  build_story tbl rl s = inr story -> story = planned_story tbl s.
Proof.
  rewrite build_story_plan. destruct (forallb _ _); [|discriminate].
  now intros [= <-].
Qed.

End RendererOnLibrary.

(** ** The renderer: lines and story *)

Section RendererClaims.

Variable tbl : str -> char -> str -> str.
Variable rl : reportlab.

(** C5, amended.  On a line that after trimming opens with the heading
    marker [## ] the loop calls [Paragraph] with the heading style and
    with the trimmed line less every [##], trimmed again; when no [##]
    follows the marker, that text is the rest of the line after the
    marker, trimmed.  When the library accepts the text the heading
    block is appended; when it refuses it, the [ValueError] leaves the
    loop.  In particular [## Key Points] gives the heading
    [Key Points] when the library accepts that text. *)
Theorem heading_marker_stripped (raw rest : str) :
  strip raw = lit "## " ++ rest ->
  let text := strip (replace HASHES [] (strip raw)) in
  render_line tbl rl raw = appended (paragraph rl text Heading2)
  /\ (paragraph_ok rl text Heading2 = true ->
      render_line tbl rl raw = inr (Some (Paragraph text Heading2)))
  /\ (paragraph_ok rl text Heading2 = false ->
      render_line tbl rl raw = inl ValueError)
  /\ (~ occurs HASHES rest -> text = strip rest)
  /\ (paragraph_ok rl (lit "Key Points") Heading2 = true ->
      render_line tbl rl (lit "## Key Points")
      = inr (Some (Paragraph (lit "Key Points") Heading2))).
Proof.
  intros H text.
  destruct (planned_heading_marker tbl raw rest H) as (P & Q & K).
  destruct (render_line_paragraph tbl rl _ _ _ P) as (R1 & R2 & R3).
  split; [exact R1|]. split; [exact R2|]. split; [exact R3|].
  split.
  - intros Hno. specialize (Q Hno). rewrite P in Q. now injection Q.
  - intros Hk.
    exact (proj1 (proj2 (render_line_paragraph tbl rl _ _ _ K)) Hk).
Qed.

(** C10, amended.  On a line that after trimming opens with [##], a
    space after it or not, the loop calls [Paragraph] with the heading
    style and with the trimmed line less every [##], trimmed again: the
    leftmost [##] goes and the deletion carries on after it, so no [##]
    is left.  When the library accepts the text the heading block is
    appended; when it refuses it, the [ValueError] leaves the loop.
    [### Topic] asks for the heading [# Topic], and a [##] in the
    middle of the line goes too. *)
Theorem heading_deletes_every_hashes (raw : str) :
  startswith HASHES (strip raw) = true ->
  let text := strip (replace HASHES [] (strip raw)) in
  render_line tbl rl raw = appended (paragraph rl text Heading2)
  /\ (paragraph_ok rl text Heading2 = true ->
      render_line tbl rl raw = inr (Some (Paragraph text Heading2)))
  /\ (paragraph_ok rl text Heading2 = false ->
      render_line tbl rl raw = inl ValueError)
  /\ ~ occurs HASHES (replace HASHES [] (strip raw))
  /\ (forall a b, strip raw = a ++ HASHES ++ b ->
        ~ occurs HASHES (a ++ [HASH]) ->
        replace HASHES [] (strip raw) = a ++ replace HASHES [] b)
  /\ render_line tbl rl (lit "### Topic")
     = appended (paragraph rl (lit "# Topic") Heading2)
  /\ render_line tbl rl (lit "## A ## B")
     = appended (paragraph rl (lit "A  B") Heading2)
  /\ render_line tbl rl (lit "##Title")
     = appended (paragraph rl (lit "Title") Heading2).
Proof.
  intros H text.
  destruct (planned_heading_hashes tbl raw H) as (P & Q1 & Q2 & K1 & K2 & K3).
  destruct (render_line_paragraph tbl rl _ _ _ P) as (R1 & R2 & R3).
  split; [exact R1|]. split; [exact R2|]. split; [exact R3|].
  split; [exact Q1|]. split; [exact Q2|].
  split; [exact (proj1 (render_line_paragraph tbl rl _ _ _ K1))|].
  split; [exact (proj1 (render_line_paragraph tbl rl _ _ _ K2))|].
  exact (proj1 (render_line_paragraph tbl rl _ _ _ K3)).
Qed.

(** C6, amended.  On a line that after trimming opens with a bullet
    marker and a space the loop calls [Paragraph] with the bullet style
    and with the bullet prefix followed by the rest of the line: the
    marker and the white space after it are gone, the rest is trimmed,
    and the bold pattern is rewritten in it.  The rest reads as pieces
    that each end in a group between two [**], and a tail in which no
    two [**] follow one another; every group comes out between the two
    bold tags and the text around the groups is kept.  When the library
    accepts the text the bullet block is appended; when it refuses it,
    the [ValueError] leaves the loop.  [* **Term**: definition] asks
    for the bullet text [<b>Term</b>: definition].  For the marker
    U+2022 the case table must leave that code point alone, as Unicode
    does. *)
Theorem bullet_line_bold (raw : str) (m : char) (rest : str) :
  strip raw = m :: 32%N :: rest ->
  is_marker m = true ->
  (m = BULLET -> forall before after, tbl before BULLET after = [BULLET]) ->
  let text := [BULLET; 32%N] ++ bold_sub (strip rest) in
  render_line tbl rl raw = appended (paragraph rl text BulletStyle)
  /\ (paragraph_ok rl text BulletStyle = true ->
      render_line tbl rl raw = inr (Some (Paragraph text BulletStyle)))
  /\ (paragraph_ok rl text BulletStyle = false ->
      render_line tbl rl raw = inl ValueError)
  /\ (forall pieces tail,
        strip rest = marked pieces tail -> Forall bold_piece pieces ->
        bold_sub (strip rest) = tagged pieces (bold_sub tail))
  /\ (forall tail, unpaired tail -> bold_sub tail = tail)
  /\ (~ In NL (strip rest) ->
      exists pieces tail,
        strip rest = marked pieces tail
        /\ Forall bold_piece pieces /\ unpaired tail
        /\ bold_sub (strip rest) = tagged pieces tail)
  /\ render_line tbl rl (lit "* **Term**: definition")
     = appended (paragraph rl ([BULLET; 32%N] ++ lit "<b>Term</b>: definition")
                  BulletStyle).
Proof.
  intros H Hm Htbl text.
  destruct (planned_bullet_line tbl raw m rest H Hm Htbl) as (P & _ & _ & K).
  destruct (render_line_paragraph tbl rl _ _ _ P) as (R1 & R2 & R3).
  split; [exact R1|]. split; [exact R2|]. split; [exact R3|].
  split; [intros pieces tail -> F; now apply bold_sub_pieces|].
  split; [exact bold_sub_unpaired|].
  split; [|exact (proj1 (render_line_paragraph tbl rl _ _ _ K))].
  intros Hnl. destruct (bold_pieces_exist _ Hnl) as (pieces & tail & E & F & U).
  exists pieces, tail. split; [exact E|]. split; [exact F|].
  split; [exact U|].
  rewrite E, (bold_sub_pieces _ _ F). now rewrite (bold_sub_unpaired _ U).
Qed.

(** C7.  A line of white space only, and a line that after trimming
    opens with the refusal phrase in any mix of upper and lower case,
    give no block and no call of the library: the loop goes on with the
    story as it was, so the outcome is the same with the line and
    without. *)
Theorem blank_and_refusal_dropped (raw : str) :
  (forallb isspace raw = true
   \/ (exists p rest, strip raw = p ++ rest /\ map ascii_lower p = REFUSAL)
   \/ startswith REFUSAL (lower tbl (strip raw)) = true) ->
  render_line tbl rl raw = inr None
  /\ (forall story, append_line tbl rl story raw = story)
  /\ (forall before after story,
        fold_left (append_line tbl rl) (before ++ raw :: after) story
        = fold_left (append_line tbl rl) (before ++ after) story).
Proof.
  intros H.
  assert (R : render_line tbl rl raw = inr None).
  { apply render_line_none. exact (proj1 (planned_blank_and_refusal tbl raw H)). }
  split; [exact R|].
  assert (A : forall story, append_line tbl rl story raw = story).
  { intros [e|blocks]; [reflexivity|]. unfold append_line. now rewrite R. }
  split; [exact A|].
  intros before after story. rewrite !fold_left_app. cbn [fold_left].
  now rewrite A.
Qed.

(** C8, amended.  When the library accepts the paragraph of every
    line, the story is the blocks of the lines, none of them a spacer,
    and then one spacer; for the empty text, and when every line is
    dropped, the spacer is all there is.  When the library refuses a
    paragraph the [ValueError] leaves the function: there is no story
    and no spacer. *)
Theorem story_ends_with_spacer (summary_text : str) :
  let blocks := flat_map (blocks_of tbl) (split NL (strip summary_text)) in
  build_story tbl rl summary_text
  = (if forallb (accepted rl) blocks
     then inr (blocks ++ [Spacer 1 20])
     else inl ValueError)
  /\ Forall (fun b => is_spacer b = false) blocks
  /\ (forall story,
        build_story tbl rl summary_text = inr story ->
        story = blocks ++ [Spacer 1 20]
        /\ filter is_spacer story = [Spacer 1 20])
  /\ (forall pdf,
        create_pdf tbl rl summary_text = inr pdf ->
        build_story tbl rl summary_text = inr (story_of pdf))
  /\ (forall e,
        build_story tbl rl summary_text = inl e ->
        e = ValueError /\ create_pdf tbl rl summary_text = inl ValueError)
  /\ build_story tbl rl [] = inr [Spacer 1 20]
  /\ (Forall (fun l => render_line tbl rl l = inr None)
        (split NL (strip summary_text))
      <-> build_story tbl rl summary_text = inr [Spacer 1 20]).
Proof.
  intros blocks.
  destruct (planned_story_spacer tbl summary_text) as (P1 & P2 & P3 & _ & _ & P6).
  fold blocks in P1, P2.
  assert (E : build_story tbl rl summary_text
              = (if forallb (accepted rl) blocks
                 then inr (blocks ++ [Spacer 1 20])
                 else inl ValueError)).
  { rewrite build_story_plan. fold blocks. now rewrite P1. }
  split; [exact E|]. split; [exact P2|]. split; [|split; [|split; [|split]]].
  - intros story Hs. apply build_story_built in Hs. subst story.
    split; [exact P1|exact P3].
  - intros pdf. unfold create_pdf.
    destruct (build_story tbl rl summary_text) as [e|story]; [discriminate|].
    destruct (build_error rl story); [discriminate|]. now intros [= <-].
  - intros e He. unfold create_pdf. rewrite E in He |- *.
    destruct (forallb (accepted rl) blocks); [discriminate He|].
    injection He as <-. split; reflexivity.
  - reflexivity.
  - split.
    + intros F. rewrite build_story_plan.
      assert (N : Forall (fun l => line_block tbl l = None)
                    (split NL (strip summary_text))).
      { eapply Forall_impl; [|exact F]. intros l Hl.
        now apply (render_line_none tbl rl). }
      apply P6 in N. rewrite N in P1.
      assert (B : blocks = []).
      { destruct blocks as [|b [|? ?]]; [reflexivity|discriminate|discriminate]. }
      fold blocks. rewrite B, N. reflexivity.
    + intros Hs. apply build_story_built in Hs. symmetry in Hs.
      apply P6 in Hs. eapply Forall_impl; [|exact Hs]. intros l Hl.
      now apply render_line_none.
Qed.

End RendererClaims.

(** C5 as the spec words it: the heading text would be the trimmed
    line less its marker.  On [## A ## B], with a library that accepts
    every text, the loop gives [A  B]: neither the line less its
    leading marker, [A ## B], nor the line less every [## ], [A B].
    And a heading block is not always produced: a library that refuses
    a [<] that opens no tag, as the layout library does, raises on
    [## if x<y then stop]. *)
Lemma heading_text_not_line_less_marker :
  ~ (forall tbl raw,
       startswith (lit "## ") (strip raw) = true ->
       render_line tbl lenient raw
       = inr (Some (Paragraph (skipn 3 (strip raw)) Heading2)))
  /\ ~ (forall tbl raw,
          startswith (lit "## ") (strip raw) = true ->
          render_line tbl lenient raw
          = inr (Some (Paragraph (replace (lit "## ") [] (strip raw)) Heading2)))
  /\ ~ (forall tbl rl raw,
          startswith (lit "## ") (strip raw) = true ->
          exists t, render_line tbl rl raw = inr (Some (Paragraph t Heading2)))
  /\ render_line uncased strict (lit "## if x<y then stop") = inl ValueError.
Proof.
  split; [|split; [|split]].
  - intros H. specialize (H uncased (lit "## A ## B") eq_refl).
    vm_compute in H. discriminate H.
  - intros H. specialize (H uncased (lit "## A ## B") eq_refl).
    vm_compute in H. discriminate H.
  - intros H.
    destruct (H uncased strict (lit "## if x<y then stop") eq_refl) as [t Ht].
    vm_compute in Ht. discriminate Ht.
  - vm_compute. reflexivity.
Qed.

Lemma heading_marker_stripped_witness :
  strip (lit "  ## Key Points ") = lit "## " ++ lit "Key Points"
  /\ render_line uncased lenient (lit "  ## Key Points ")
     = inr (Some (Paragraph (lit "Key Points") Heading2))
  /\ render_line uncased strict (lit "  ## Key Points ")
     = inr (Some (Paragraph (lit "Key Points") Heading2)).
Proof.
  assert (T : strip (replace HASHES [] (strip (lit "  ## Key Points ")))
              = lit "Key Points") by (vm_compute; reflexivity).
  split; [reflexivity|]. split.
  - pose proof (heading_marker_stripped uncased lenient (lit "  ## Key Points ")
                  (lit "Key Points") eq_refl) as H.
    cbv zeta in H. rewrite T in H. destruct H as (_ & H & _).
    apply H. reflexivity.
  - pose proof (heading_marker_stripped uncased strict (lit "  ## Key Points ")
                  (lit "Key Points") eq_refl) as H.
    cbv zeta in H. rewrite T in H. destruct H as (_ & H & _).
    apply H. vm_compute. reflexivity.
Defined.

(** C10 as the spec words it: every line that opens with [##] would
    give a heading block.  A library that refuses a [<] that opens no
    tag, as the layout library does, raises on
    [##Compare: if x<y then stop]: no block is produced. *)
Lemma heading_not_always_built :
  ~ (forall tbl rl raw,
       startswith HASHES (strip raw) = true ->
       render_line tbl rl raw
       = inr (Some (Paragraph (strip (replace HASHES [] (strip raw))) Heading2)))
  /\ render_line uncased strict (lit "##Compare: if x<y then stop")
     = inl ValueError.
Proof.
  split.
  - intros H.
    specialize (H uncased strict (lit "##Compare: if x<y then stop") eq_refl).
    vm_compute in H. discriminate H.
  - vm_compute. reflexivity.
Qed.

Lemma heading_deletes_every_hashes_witness :
  startswith HASHES (strip (lit "### Topic")) = true
  /\ render_line uncased lenient (lit "### Topic")
     = inr (Some (Paragraph (lit "# Topic") Heading2))
  /\ render_line uncased strict (lit "##Compare: if x<y then stop")
     = inl ValueError.
Proof.
  assert (T : strip (replace HASHES [] (strip (lit "### Topic")))
              = lit "# Topic") by (vm_compute; reflexivity).
  assert (U : paragraph_ok strict
                (strip (replace HASHES []
                          (strip (lit "##Compare: if x<y then stop"))))
                Heading2 = false) by (vm_compute; reflexivity).
  split; [reflexivity|]. split.
  - pose proof (heading_deletes_every_hashes uncased lenient (lit "### Topic")
                  eq_refl) as H.
    cbv zeta in H. rewrite T in H. destruct H as (_ & H & _).
    apply H. reflexivity.
  - pose proof (heading_deletes_every_hashes uncased strict
                  (lit "##Compare: if x<y then stop") eq_refl) as H.
    cbv zeta in H. destruct H as (_ & _ & H & _). exact (H U).
Defined.

(** C6 as the spec words it: every line that opens with a bullet marker
    and a space would give a bullet block.  A library that refuses a
    [<] that opens no tag, as the layout library does, raises on
    [* if x<y then stop]: no block is produced. *)
Lemma bullet_not_always_built :
  ~ (forall tbl rl raw m rest,
       strip raw = m :: 32%N :: rest ->
       is_marker m = true ->
       exists t, render_line tbl rl raw = inr (Some (Paragraph t BulletStyle)))
  /\ render_line uncased strict (lit "* if x<y then stop") = inl ValueError.
Proof.
  split.
  - intros H.
    destruct (H uncased strict (lit "* if x<y then stop") STAR
                (lit "if x<y then stop") eq_refl eq_refl) as [t Ht].
    vm_compute in Ht. discriminate Ht.
  - vm_compute. reflexivity.
Qed.

Lemma bullet_line_bold_witness :
  strip ([BULLET; 32%N] ++ lit "**Term**: definition ")
  = BULLET :: 32%N :: lit "**Term**: definition"
  /\ is_marker BULLET = true
  /\ render_line uncased lenient ([BULLET; 32%N] ++ lit "**Term**: definition ")
     = inr (Some (Paragraph ([BULLET; 32%N] ++ lit "<b>Term</b>: definition")
                    BulletStyle))
  /\ bold_sub (marked [(lit "a ", lit "b"); (lit " c ", lit "d")] (lit " e"))
     = lit "a <b>b</b> c <b>d</b> e".
Proof.
  assert (T : bold_sub (strip (lit "**Term**: definition"))
              = lit "<b>Term</b>: definition") by (vm_compute; reflexivity).
  assert (S : strip (marked [(lit "a ", lit "b"); (lit " c ", lit "d")] (lit " e"))
              = marked [(lit "a ", lit "b"); (lit " c ", lit "d")] (lit " e"))
    by (vm_compute; reflexivity).
  assert (B : bold_sub (lit " e") = lit " e") by (vm_compute; reflexivity).
  assert (F : Forall bold_piece [(lit "a ", lit "b"); (lit " c ", lit "d")]).
  { repeat constructor; cbn [fst snd];
      try (apply occursb_false; vm_compute; reflexivity);
      intros [H|[]]; discriminate H. }
  split; [reflexivity|]. split; [reflexivity|]. split.
  - pose proof (bullet_line_bold uncased lenient
                  ([BULLET; 32%N] ++ lit "**Term**: definition ")
                  BULLET (lit "**Term**: definition")
                  eq_refl eq_refl (fun _ _ _ => eq_refl)) as H.
    cbv zeta in H. rewrite T in H. destruct H as (_ & H & _).
    apply H. reflexivity.
  - pose proof (bullet_line_bold uncased lenient
                  (lit "* " ++ marked [(lit "a ", lit "b"); (lit " c ", lit "d")]
                                 (lit " e"))
                  STAR
                  (marked [(lit "a ", lit "b"); (lit " c ", lit "d")] (lit " e"))
                  eq_refl eq_refl (fun E => ltac:(discriminate E))) as H.
    cbv zeta in H. destruct H as (_ & _ & _ & H & _).
    rewrite S in H. specialize (H _ _ eq_refl F). rewrite B in H. exact H.
Defined.

Lemma blank_and_refusal_dropped_witness :
  map ascii_lower (lit "Please PROVIDE the Transcript") = REFUSAL
  /\ render_line uncased strict (lit "  Please PROVIDE the Transcript of the talk.")
     = inr None
  /\ render_line uncased strict (lit "   ") = inr None.
Proof.
  split; [reflexivity|]. split.
  - apply (blank_and_refusal_dropped uncased strict
             (lit "  Please PROVIDE the Transcript of the talk.")).
    right. left.
    exists (lit "Please PROVIDE the Transcript"), (lit " of the talk.").
    split; reflexivity.
  - apply (blank_and_refusal_dropped uncased strict (lit "   ")).
    left. reflexivity.
Defined.

(** C8 as the spec words it: every summary text would give a story
    that ends in the spacer.  A library that refuses a [<] that opens
    no tag, as the layout library does, raises on
    [Compare: if x<y then stop]: there is no story, and no document. *)
Lemma story_not_always_built :
  ~ (forall tbl rl summary_text,
       exists blocks,
         build_story tbl rl summary_text = inr (blocks ++ [Spacer 1 20]))
  /\ build_story uncased strict (lit "Compare: if x<y then stop")
     = inl ValueError
  /\ create_pdf uncased strict (lit "Compare: if x<y then stop")
     = inl ValueError.
Proof.
  split; [|split].
  - intros H.
    destruct (H uncased strict (lit "Compare: if x<y then stop")) as [b Hb].
    vm_compute in Hb. discriminate Hb.
  - vm_compute. reflexivity.
  - vm_compute. reflexivity.
Qed.

Lemma story_ends_with_spacer_witness :
  build_story uncased strict (lit "Please provide the transcript.")
  = inr [Spacer 1 20]
  /\ build_story uncased strict (lit "Compare: if x<y then stop")
     = inl ValueError.
Proof.
  assert (L : split NL (strip (lit "Please provide the transcript."))
              = [lit "Please provide the transcript."])
    by (vm_compute; reflexivity).
  assert (A : Forall (fun l => render_line uncased strict l = inr None)
                (split NL (strip (lit "Please provide the transcript.")))).
  { rewrite L. constructor; [vm_compute; reflexivity|constructor]. }
  assert (B : forallb (accepted strict)
                (flat_map (blocks_of uncased)
                   (split NL (strip (lit "Compare: if x<y then stop"))))
              = false) by (vm_compute; reflexivity).
  split.
  - pose proof (story_ends_with_spacer uncased strict
                  (lit "Please provide the transcript.")) as H.
    cbv zeta in H. destruct H as (_ & _ & _ & _ & _ & _ & H).
    exact (proj1 H A).
  - pose proof (story_ends_with_spacer uncased strict
                  (lit "Compare: if x<y then stop")) as H.
    cbv zeta in H. destruct H as (H & _). rewrite B in H. exact H.
Defined.

(** ** The renderer: further properties *)

Section RendererExtras.

Variable tbl : str -> char -> str -> str.
Variable rl : reportlab.

(** X1.  On a trimmed line that opens with a single [#], or with a star
    or a hyphen that no space follows, or with any other ASCII
    character but [p] and [P], the loop calls [Paragraph] with the body
    style and with the trimmed line in which the bold pattern is
    rewritten.  When the library accepts the text the body block is
    appended; when it refuses it, the [ValueError] leaves the loop. *)
Theorem plain_line_is_body (raw : str) (c : char) (t : str) :
  strip raw = c :: t ->
  (c = HASH /\ startswith [HASH] t = false)
  \/ ((c = STAR \/ c = 45%N) /\ startswith [32%N] t = false)
  \/ (isascii c = true /\ c <> 80%N /\ c <> 112%N
      /\ c <> HASH /\ c <> STAR /\ c <> 45%N) ->
  let text := bold_sub (strip raw) in
  render_line tbl rl raw = appended (paragraph rl text BodyText)
  /\ (paragraph_ok rl text BodyText = true ->
      render_line tbl rl raw = inr (Some (Paragraph text BodyText)))
  /\ (paragraph_ok rl text BodyText = false ->
      render_line tbl rl raw = inl ValueError).
Proof.
  intros E H text.
  exact (render_line_paragraph tbl rl _ _ _ (planned_plain_line tbl raw c t E H)).
Qed.

(** X2.  White space around a line, and white space (blank lines
    included) around the whole summary, change nothing: the same block
    or the same exception for the line, the same story and the same
    document or the same exception for the text. *)
Theorem surrounding_blanks_ignored (a b s : str) :
  forallb isspace a = true -> forallb isspace b = true ->
  render_line tbl rl (a ++ s ++ b) = render_line tbl rl s
  /\ build_story tbl rl (a ++ s ++ b) = build_story tbl rl s
  /\ create_pdf tbl rl (a ++ s ++ b) = create_pdf tbl rl s.
Proof.
  intros Ha Hb.
  split; [unfold render_line; now rewrite strip_pad|].
  assert (E : build_story tbl rl (a ++ s ++ b) = build_story tbl rl s)
    by (unfold build_story; now rewrite strip_pad).
  split; [exact E|]. unfold create_pdf. now rewrite E.
Qed.

(** X3.  A line gives at most one block: a story that is built has at
    least the spacer and at most one block per line of the text and the
    spacer. *)
Theorem story_length_bound (summary_text : str) (story : list flowable) :
  build_story tbl rl summary_text = inr story ->
  1 <= List.length story
  /\ List.length story <= count_occ N.eq_dec summary_text NL + 2.
Proof.
  intros H. apply build_story_built in H. subst story.
  apply planned_story_length.
Qed.

(** X4.  The story of two texts joined by a newline is the blocks of
    the first, without its spacer, followed by the story of the
    second, and it is built when both are: no block depends on another
    line. *)
Theorem story_of_joined_texts (x y : str) :
  build_story tbl rl (x ++ NL :: y)
  = match build_story tbl rl x with
    | inl e => inl e
    | inr story_x =>
        match build_story tbl rl y with
        | inl e => inl e
        | inr story_y => inr (removelast story_x ++ story_y)
        end
    end.
Proof.
  rewrite !build_story_plan, !blocks_strip, split_app_sep, flat_map_app,
    forallb_app, planned_story_joined.
  destruct (forallb (accepted rl) (flat_map (blocks_of tbl) (split NL x)));
    [|reflexivity].
  now destruct (forallb (accepted rl) (flat_map (blocks_of tbl) (split NL y))).
Qed.

(** X5.  Every block of a story that is built is well formed: a heading
    text holds no [##] and is trimmed, a bullet text opens with the
    bullet and a space, a body text is not empty, no text holds a
    newline, and the spacer is 1 by 20. *)
Theorem story_blocks_well_formed (summary_text : str) (story : list flowable) :
  build_story tbl rl summary_text = inr story ->
  Forall well_formed_block story.
Proof.
  intros H. apply build_story_built in H. subst story.
  apply planned_story_well_formed.
Qed.

(** X6.  On a trimmed line that opens with a run of two or more [#]
    the loop calls [Paragraph] with the heading style and with a text
    from which the run went in pairs: an even run leaves nothing, an
    odd run leaves one [#], before the rest of the line with its own
    [##] deleted.  When the library accepts the text the heading block
    is appended; when it refuses it, the [ValueError] leaves the
    loop. *)
Theorem heading_hash_run (raw : str) (k : nat) (odd : bool) (rest : str) :
  strip raw = repeat HASH (2 * k + (if odd then 1 else 0)) ++ rest ->
  1 <= k ->
  startswith [HASH] rest = false ->
  let text := strip ((if odd then [HASH] else []) ++ replace HASHES [] rest) in
  render_line tbl rl raw = appended (paragraph rl text Heading2)
  /\ (paragraph_ok rl text Heading2 = true ->
      render_line tbl rl raw = inr (Some (Paragraph text Heading2)))
  /\ (paragraph_ok rl text Heading2 = false ->
      render_line tbl rl raw = inl ValueError).
Proof.
  intros E Hk Hr text.
  exact (render_line_paragraph tbl rl _ _ _
           (planned_heading_hash_run tbl raw k odd rest E Hk Hr)).
Qed.

(** X22.  White space next to a line break is ignored, blank lines and
    the carriage return of a CRLF line ending included: a run of white
    space before or after a newline changes neither the story nor the
    exception. *)
Theorem blanks_at_line_breaks_ignored (x y ws : str) :
  forallb isspace ws = true ->
  build_story tbl rl (x ++ ws ++ NL :: y) = build_story tbl rl (x ++ NL :: y)
  /\ build_story tbl rl (x ++ NL :: ws ++ y) = build_story tbl rl (x ++ NL :: y).
Proof.
  intros H.
  destruct (planned_blanks_at_breaks tbl x y ws H) as (P1 & P2).
  rewrite !build_story_plan, !blocks_strip, P1, P2. split.
  - rewrite app_assoc, !split_app_sep, !flat_map_app.
    now rewrite (blocks_trail_blank tbl x ws H).
  - change (x ++ NL :: ws ++ y) with (x ++ NL :: (ws ++ y)).
    rewrite !split_app_sep, !flat_map_app.
    now rewrite (blocks_lead_blank tbl ws y H).
Qed.

End RendererExtras.

Lemma plain_line_is_body_witness :
  render_line uncased lenient (lit " # Title")
  = inr (Some (Paragraph (lit "# Title") BodyText))
  /\ render_line uncased lenient (lit "*emphasis* and **bold**")
     = inr (Some (Paragraph (lit "*emphasis* and <b>bold</b>") BodyText))
  /\ render_line uncased strict (lit "Compare: if x<y then stop")
     = inl ValueError.
Proof.
  assert (T1 : bold_sub (strip (lit " # Title")) = lit "# Title")
    by (vm_compute; reflexivity).
  assert (T2 : bold_sub (strip (lit "*emphasis* and **bold**"))
               = lit "*emphasis* and <b>bold</b>")
    by (vm_compute; reflexivity).
  assert (T3 : paragraph_ok strict
                 (bold_sub (strip (lit "Compare: if x<y then stop"))) BodyText
               = false) by (vm_compute; reflexivity).
  split; [|split].
  - pose proof (plain_line_is_body uncased lenient (lit " # Title") HASH
                  (lit " Title") eq_refl (or_introl (conj eq_refl eq_refl)))
      as H.
    cbv zeta in H. rewrite T1 in H. destruct H as (_ & H & _).
    apply H. reflexivity.
  - pose proof (plain_line_is_body uncased lenient
                  (lit "*emphasis* and **bold**") STAR
                  (lit "emphasis* and **bold**") eq_refl
                  (or_intror (or_introl (conj (or_introl eq_refl) eq_refl))))
      as H.
    cbv zeta in H. rewrite T2 in H. destruct H as (_ & H & _).
    apply H. reflexivity.
  - assert (C : isascii 67%N = true /\ 67%N <> 80%N /\ 67%N <> 112%N
                /\ 67%N <> HASH /\ 67%N <> STAR /\ 67%N <> 45%N)
      by (repeat split; discriminate).
    pose proof (plain_line_is_body uncased strict
                  (lit "Compare: if x<y then stop") 67%N
                  (lit "ompare: if x<y then stop") eq_refl
                  (or_intror (or_intror C))) as H.
    cbv zeta in H. destruct H as (_ & _ & H). exact (H T3).
Defined.

Lemma surrounding_blanks_ignored_witness :
  build_story uncased strict ([32%N; NL; NL] ++ lit "## A" ++ [NL; 9%N])
  = build_story uncased strict (lit "## A").
Proof.
  exact (proj1 (proj2 (surrounding_blanks_ignored uncased strict [32%N; NL; NL]
                         [NL; 9%N] (lit "## A") eq_refl eq_refl))).
Defined.

Lemma story_length_bound_witness :
  build_story uncased strict (lit "## A" ++ NL :: lit "text")
  = inr [Paragraph (lit "A") Heading2; Paragraph (lit "text") BodyText;
         Spacer 1 20]
  /\ 1 <= 3
  /\ 3 <= count_occ N.eq_dec (lit "## A" ++ NL :: lit "text") NL + 2.
Proof.
  assert (E : build_story uncased strict (lit "## A" ++ NL :: lit "text")
              = inr [Paragraph (lit "A") Heading2;
                     Paragraph (lit "text") BodyText; Spacer 1 20])
    by (vm_compute; reflexivity).
  split; [exact E|].
  exact (story_length_bound uncased strict _ _ E).
Defined.

Lemma story_blocks_well_formed_witness :
  build_story uncased strict (lit "## A" ++ NL :: lit "- b")
  = inr [Paragraph (lit "A") Heading2;
         Paragraph ([BULLET; 32%N] ++ lit "b") BulletStyle; Spacer 1 20]
  /\ Forall well_formed_block
       [Paragraph (lit "A") Heading2;
        Paragraph ([BULLET; 32%N] ++ lit "b") BulletStyle; Spacer 1 20].
Proof.
  assert (E : build_story uncased strict (lit "## A" ++ NL :: lit "- b")
              = inr [Paragraph (lit "A") Heading2;
                     Paragraph ([BULLET; 32%N] ++ lit "b") BulletStyle;
                     Spacer 1 20])
    by (vm_compute; reflexivity).
  split; [exact E|].
  exact (story_blocks_well_formed uncased strict _ _ E).
Defined.

Lemma heading_hash_run_witness :
  render_line uncased lenient (lit "### Topic")
  = inr (Some (Paragraph (lit "# Topic") Heading2))
  /\ render_line uncased lenient (lit "####")
     = inr (Some (Paragraph [] Heading2)).
Proof.
  assert (T1 : strip ([HASH] ++ replace HASHES [] (lit " Topic")) = lit "# Topic")
    by (vm_compute; reflexivity).
  assert (T2 : strip ([] ++ replace HASHES [] []) = [])
    by (vm_compute; reflexivity).
  split.
  - pose proof (heading_hash_run uncased lenient (lit "### Topic") 1 true
                  (lit " Topic") eq_refl (le_n 1) eq_refl) as H.
    cbv zeta in H. cbv iota in H. rewrite T1 in H. destruct H as (_ & H & _).
    apply H. reflexivity.
  - pose proof (heading_hash_run uncased lenient (lit "####") 2 false []
                  eq_refl (le_S 1 1 (le_n 1)) eq_refl) as H.
    cbv zeta in H. cbv iota in H. rewrite T2 in H. destruct H as (_ & H & _).
    apply H. reflexivity.
Defined.

Lemma blanks_at_line_breaks_ignored_witness :
  build_story uncased strict (lit "## A" ++ [13%N] ++ NL :: lit "text")
  = build_story uncased strict (lit "## A" ++ NL :: lit "text").
Proof.
  exact (proj1 (blanks_at_line_breaks_ignored uncased strict (lit "## A")
                  (lit "text") [13%N] eq_refl)).
Defined.

(** X21.  An opening [**] that no [**] closes on the line is left as it
    is typed, after the text before it and the pairs before it have
    been treated: nothing is made bold up to the end of the line. *)
Theorem unclosed_bold_left_alone (a t : str) :
  ~ occurs STARS (a ++ [STAR]) ->
  ~ occurs STARS t ->
  bold_sub (a ++ STARS ++ t) = a ++ STARS ++ t
  /\ (forall g, ~ In NL g -> ~ occurs STARS (g ++ [STAR]) ->
        bold_sub (STARS ++ g ++ STARS ++ a ++ STARS ++ t)
        = lit "<b>" ++ g ++ lit "</b>" ++ a ++ STARS ++ t).
Proof.
  intros Ha Ht.
  assert (E : bold_sub (a ++ STARS ++ t) = a ++ STARS ++ t).
  { induction a as [|c a IH]; [now apply bold_sub_open_only|].
    cbn [app]. rewrite bold_sub_nomatch.
    - f_equal. apply IH. intros H. apply Ha. now apply occurs_tail.
    - unfold match_bold.
      assert (F : startswith STARS ((c :: a) ++ STARS ++ t) = false).
      { change STARS with [STAR; STAR] in *.
        apply (first_pair STAR [] (c :: a) t); [exact Ha|discriminate]. }
      cbn [app] in F. now rewrite F. }
  split; [exact E|]. intros g Hnl Hg.
  assert (Z : ~ occurs STARS ([] ++ [STAR]))
    by (intros (u & v & H); destruct u as [|? [|? ?]]; discriminate).
  pose proof (bold_sub_first [] g (a ++ STARS ++ t) Z Hnl Hg) as B.
  cbn [app] in B |- *. rewrite B. now rewrite E.
Qed.

Lemma unclosed_bold_left_alone_witness :
  bold_sub (lit "2 * 3 = 6 and **unfinished") = lit "2 * 3 = 6 and **unfinished"
  /\ bold_sub (lit "**a** then **b") = lit "<b>a</b> then **b".
Proof.
  assert (A : ~ occurs STARS (lit "2 * 3 = 6 and " ++ [STAR]))
    by (apply occursb_false; vm_compute; reflexivity).
  assert (T : ~ occurs STARS (lit "unfinished"))
    by (apply occursb_false; vm_compute; reflexivity).
  assert (A2 : ~ occurs STARS (lit " then " ++ [STAR]))
    by (apply occursb_false; vm_compute; reflexivity).
  assert (T2 : ~ occurs STARS (lit "b"))
    by (apply occursb_false; vm_compute; reflexivity).
  assert (G : ~ occurs STARS (lit "a" ++ [STAR]))
    by (apply occursb_false; vm_compute; reflexivity).
  assert (N : ~ In NL (lit "a")) by (intros [H|[]]; discriminate H).
  split.
  - exact (proj1 (unclosed_bold_left_alone (lit "2 * 3 = 6 and ")
                    (lit "unfinished") A T)).
  - exact (proj2 (unclosed_bold_left_alone (lit " then ") (lit "b") A2 T2)
             (lit "a") N G).
Defined.

(** ** The style sheet *)

Lemma pystr_eqb_eq (a b : str) : PyStr.eqb a b = true <-> a = b.
Proof.
  revert b; induction a as [|x a IH]; intros [|y b]; cbn [PyStr.eqb];
    try (split; congruence).
  rewrite andb_true_iff, N.eqb_eq, IH. split; [intros [-> ->]|intros [= -> ->]]; auto.
Qed.

Lemma pystr_eqb_neq (a b : str) : a <> b -> PyStr.eqb a b = false.
Proof.
  intros H. destruct (PyStr.eqb a b) eqn:E; [|reflexivity].
  now apply pystr_eqb_eq in E.
Qed.

(** Looks a style up in a sheet built by [sheet_put] on literal names. *)
Ltac sheet_steps :=
  repeat first
    [ progress cbv beta iota zeta delta [sheet_put]
    | match goal with
      | |- context [PyStr.eqb (lit ?a) (lit ?b)] =>
          let v := eval vm_compute in (PyStr.eqb (lit a) (lit b)) in
          change (PyStr.eqb (lit a) (lit b)) with v
      end
    | match goal with
      | H : ?sh (lit ?a) = _ |- context [?sh (lit ?a)] => rewrite H
      end ].

(** X7.  Whatever the sample sheet holds, after the set-up each of the
    three styles is in the sheet, and it is the sample style of that
    name, or the default style when the sample sheet has none, with the
    attributes the function sets and every other attribute as it was:
    the same on the branch that adds the style and on the branch that
    updates it.  The attributes set are those of the table [styles];
    no other style of the sheet is touched. *)
Theorem style_setup_fixed (defaults : rl_style) (sample : stylesheet)
    (n : style_name) :
  (let base := match sample (style_key n) with
               | Some old => old
               | None => defaults
               end in
   setup_styles defaults sample (style_key n)
   = Some (match n with
           | BodyText =>
               {| rl_fontName := rl_fontName base; rl_fontSize := 11;
                  rl_leading := 14; rl_leftIndent := rl_leftIndent base;
                  rl_bulletIndent := rl_bulletIndent base;
                  rl_alignment := TA_LEFT; rl_spaceAfter := 6;
                  rl_textColor := rl_textColor base |}
           | Heading2 =>
               {| rl_fontName := lit "Helvetica-Bold"; rl_fontSize := 14;
                  rl_leading := 18; rl_leftIndent := rl_leftIndent base;
                  rl_bulletIndent := rl_bulletIndent base;
                  rl_alignment := rl_alignment base; rl_spaceAfter := 10;
                  rl_textColor := black |}
           | BulletStyle =>
               {| rl_fontName := rl_fontName base; rl_fontSize := 11;
                  rl_leading := 14; rl_leftIndent := 20;
                  rl_bulletIndent := 10;
                  rl_alignment := rl_alignment base; rl_spaceAfter := 4;
                  rl_textColor := black |}
           end))
  /\ (exists st,
        setup_styles defaults sample (style_key n) = Some st
        /\ rl_fontSize st = fontSize (styles n)
        /\ rl_leading st = leading (styles n)
        /\ rl_spaceAfter st = spaceAfter (styles n)
        /\ (forall v, leftIndent (styles n) = Some v -> rl_leftIndent st = v)
        /\ (forall v, bulletIndent (styles n) = Some v -> rl_bulletIndent st = v)
        /\ (n = BodyText -> rl_alignment st = TA_LEFT)
        /\ (n <> BodyText -> rl_textColor st = black)
        /\ (n = Heading2 -> rl_fontName st = lit "Helvetica-Bold")
        /\ (n <> Heading2 ->
            rl_fontName st
            = rl_fontName (match sample (style_key n) with
                           | Some old => old
                           | None => defaults
                           end)))
  /\ (forall k,
        k <> lit "BodyText" -> k <> lit "Heading2" -> k <> lit "BulletStyle" ->
        setup_styles defaults sample k = sample k).
Proof.
  split; [|split].
  - unfold setup_styles, setup_bullet, setup_heading, setup_body.
    destruct n; cbn [style_key];
      destruct (sample (lit "BodyText")) eqn:?;
      destruct (sample (lit "Heading2")) eqn:?;
      destruct (sample (lit "BulletStyle")) eqn:?;
      sheet_steps; reflexivity.
  - unfold setup_styles, setup_bullet, setup_heading, setup_body.
    destruct n; cbn [style_key];
      destruct (sample (lit "BodyText")) eqn:?;
      destruct (sample (lit "Heading2")) eqn:?;
      destruct (sample (lit "BulletStyle")) eqn:?;
      sheet_steps; eexists; (split; [reflexivity|]);
      cbn; repeat split; try congruence; intros; congruence.
  - intros k H1 H2 H3.
    apply pystr_eqb_neq in H1, H2, H3.
    unfold setup_styles, setup_bullet, setup_heading, setup_body.
    destruct (sample (lit "BodyText")) eqn:?;
      destruct (sample (lit "Heading2")) eqn:?;
      destruct (sample (lit "BulletStyle")) eqn:?;
      sheet_steps; reflexivity.
Qed.

(** ** The workflow *)

Ltac script_steps :=
  cbv beta iota zeta delta
    [run script main_workflow summarize_full_text requests_post
     bind show get_cache set_cache ret lift raise st_stop st_rerun
     cache posts page uploaded_file pdf_name regenerate fst snd
     no_rerun has_summary].

Ltac script_cases :=
  repeat (script_steps;
          match goal with
          | |- context [match ?remote ?n (request_of ?k ?t) with _ => _ end] =>
              destruct (remote n (request_of k t)) as [?|?] eqn:?
          | |- context [match result_of_response ?r with _ => _ end] =>
              destruct (result_of_response r) as [?|[ | | | |?| | ]] eqn:?
          | |- context [if startswith ?p ?s then _ else _] =>
              destruct (startswith p s) eqn:?
          | |- context [match create_pdf ?t ?r ?s with _ => _ end] =>
              destruct (create_pdf t r s) as [?|?] eqn:?
          end);
  script_steps.

Ltac open_run w wd :=
  destruct w as [[[?|]|] ? []], wd as [[[?|]|] ? ?].

Section WorkflowFacts.

Variable API_KEY : str.
Variable remote : nat -> http_request -> exn + http_response.
Variable tbl : str -> char -> str -> str.
Variable rl : reportlab.

Abbreviation exec := (run API_KEY remote tbl rl).
Abbreviation post_of := (request_of API_KEY).

(** A run that finds a summary in the cache posts nothing and leaves
    the summary where it is, unless the button was clicked. *)
Lemma run_cached (w : widgets) (wd : world) :
  has_summary wd = true ->
  posts (snd (exec w wd)) = posts wd
  /\ (regenerate w = false -> cache (snd (exec w wd)) = cache wd).
Proof.
  open_run w wd; script_cases; intros H; try discriminate H;
    split; try reflexivity; intros; congruence.
Qed.

(** A run on a transcript that finds no summary in the cache posts
    once. *)
Lemma run_uncached (w : widgets) (wd : world) (t : str) :
  uploaded_file w = Some (Some t) -> has_summary wd = false ->
  posts (snd (exec w wd)) = posts wd ++ [post_of t].
Proof.
  open_run w wd; script_cases; intros [= ->] H; try discriminate H;
    reflexivity.
Qed.

(** A run without a transcript posts nothing. *)
Lemma run_no_transcript (w : widgets) (wd : world) :
  (forall t, uploaded_file w <> Some (Some t)) ->
  posts (snd (exec w wd)) = posts wd.
Proof.
  open_run w wd; script_cases; intros H; try reflexivity;
    now elim (H s).
Qed.

(** Only the click makes a run end in a rerun; the slot is then empty
    and the transcript is there. *)
Lemma run_rerun (w : widgets) (wd wd1 : world) :
  exec w wd = (Rerun, wd1) ->
  regenerate w = true /\ cache wd1 = Some None
  /\ exists t, uploaded_file w = Some (Some t).
Proof.
  open_run w wd; script_cases; intros H; try discriminate H;
    injection H as <-; (split; [reflexivity|]); (split; [reflexivity|]);
    eexists; reflexivity.
Qed.

Lemma run_no_rerun (w : widgets) (wd : world) :
  regenerate w = false -> fst (exec w wd) <> Rerun.
Proof.
  intros Hr H. destruct (exec w wd) as [o wd1] eqn:E. cbn in H. subst o.
  apply run_rerun in E as (E & _). congruence.
Qed.

(** When a run that does not end in a rerun drew the button, it left a
    summary in the cache and had a transcript. *)
Lemma run_button (w : widgets) (wd : world) :
  fst (exec w wd) <> Rerun ->
  existsb is_button (page (snd (exec w wd))) = true ->
  has_summary (snd (exec w wd)) = true
  /\ exists t, uploaded_file w = Some (Some t).
Proof.
  open_run w wd; script_cases; intros Hr H; try discriminate H;
    try (now elim Hr); (split; [reflexivity|]); eexists; reflexivity.
Qed.

(** The click on a cached summary: the slot is cleared, nothing is
    posted, a rerun is asked for. *)
Lemma run_click_cached (w : widgets) (wd : world) (t : str) :
  has_summary wd = true -> uploaded_file w = Some (Some t) ->
  regenerate w = true ->
  exists wd1, exec w wd = (Rerun, wd1)
              /\ posts wd1 = posts wd /\ cache wd1 = Some None.
Proof.
  open_run w wd; script_cases; intros H Hf Hr; try discriminate H;
    try discriminate Hf; try discriminate Hr;
    eexists; repeat split.
Qed.

Abbreviation exec_rerun := (run_with_rerun API_KEY remote tbl rl).
Abbreviation react := (interact API_KEY remote tbl rl).
Abbreviation next := (step API_KEY remote tbl rl).
Abbreviation reach := (reachable API_KEY remote tbl rl).

Lemma run_with_rerun_button (f : option (option str)) (n : str) (click : bool)
    (wd : world) :
  existsb is_button (page (exec_rerun f n click wd)) = true ->
  has_summary (exec_rerun f n click wd) = true
  /\ exists t, f = Some (Some t).
Proof.
  unfold run_with_rerun.
  set (w := {| uploaded_file := f; pdf_name := n; regenerate := click |}).
  set (w' := {| uploaded_file := f; pdf_name := n; regenerate := false |}).
  destruct (exec w wd) as [o wd1] eqn:E.
  assert (B : forall w0 wd0, uploaded_file w0 = f ->
                fst (exec w0 wd0) <> Rerun ->
                existsb is_button (page (snd (exec w0 wd0))) = true ->
                has_summary (snd (exec w0 wd0)) = true
                /\ exists t, f = Some (Some t)).
  { intros w0 wd0 <-. apply run_button. }
  pose proof (B w wd eq_refl) as B1. rewrite E in B1. cbn [fst snd] in B1.
  destruct o; try (intros H; apply B1; [discriminate|exact H]).
  apply (B w' wd1 eq_refl). now apply run_no_rerun.
Qed.

(** In a reachable session the button is on the page only over a cached
    summary of an uploaded transcript. *)
Lemma session_button (a : session) :
  reach a ->
  existsb is_button (page (state a)) = true ->
  has_summary (state a) = true /\ exists t, file a = Some (Some t).
Proof.
  intros [|a0 ev a1 _ [a2 ev2 a3 H]].
  - cbn [initial state file]. apply run_with_rerun_button.
  - unfold interact in H. destruct (enabled ev2 a2); [|discriminate].
    injection H as <-. cbn [state file]. apply run_with_rerun_button.
Qed.

End WorkflowFacts.

Lemma skipn_app_exact {A} (l r : list A) : skipn (List.length l) (l ++ r) = r.
Proof. induction l; [reflexivity|assumption]. Qed.

Lemma firstn_app_exact {A} (l r : list A) : firstn (List.length l) (l ++ r) = l.
Proof. induction l as [|x l IH]; [reflexivity|]. cbn. now rewrite IH. Qed.

Section WorkflowClaims.

Variable API_KEY : str.
Variable remote : nat -> http_request -> exn + http_response.
Variable tbl : str -> char -> str -> str.
Variable rl : reportlab.

Abbreviation exec := (run API_KEY remote tbl rl).
Abbreviation post_of := (request_of API_KEY).
Abbreviation call := (summarize_full_text API_KEY remote).
Abbreviation next := (step API_KEY remote tbl rl).
Abbreviation reach := (reachable API_KEY remote tbl rl).

(** C1.  Whatever the transcript, the call posts one request whose
    body holds the fixed model identifier, the fixed temperature, and
    one user message: the fixed head of the template, the transcript as
    it is, the fixed tail. *)
Theorem request_embeds_transcript (transcript : str) (wd : world) :
  posts (snd (call transcript wd))
  = posts wd ++ [post_of transcript]
  /\ url (post_of transcript) = API_URL
  /\ json_body (post_of transcript) = payload_of transcript
  /\ getitem_key (payload_of transcript) (lit "model") = inr (VStr MODEL_NAME)
  /\ getitem_key (payload_of transcript) (lit "temperature")
     = inr (VFloat (3 # 10)%Q)
  /\ getitem_key (payload_of transcript) (lit "messages")
     = inr (VList
              [VDict [(lit "role", VStr (lit "user"));
                      (lit "content",
                        VStr (PROMPT_HEAD ++ transcript ++ PROMPT_TAIL))]])
  /\ firstn (List.length transcript)
       (skipn (List.length PROMPT_HEAD) (prompt_of transcript))
     = transcript
  /\ skipn (List.length transcript)
       (skipn (List.length PROMPT_HEAD) (prompt_of transcript))
     = PROMPT_TAIL.
Proof.
  split.
  { unfold summarize_full_text, requests_post, bind, lift.
    destruct (remote _ _) as [e|r]; [reflexivity|].
    cbn [posts snd]. now destruct (result_of_response r). }
  repeat (split; [reflexivity|]).
  unfold prompt_of. rewrite skipn_app_exact.
  now rewrite firstn_app_exact, skipn_app_exact.
Qed.

(** C2.  When the endpoint answers with a status other than 200, the
    call returns the string made of [ERROR: ], the status in decimal,
    [ - ] and the body of the answer; it starts with [ERROR] and does not
    depend on any parsed content.  On status 200 it returns the content
    field of the message of the first choice. *)
Theorem error_string_on_bad_status (transcript : str) (wd : world)
    (r : http_response) :
  remote (List.length (posts wd)) (post_of transcript) = inr r ->
  (status_code r <> 200%Z ->
     fst (call transcript wd)
     = Done (VStr (lit "ERROR: " ++ of_int (status_code r)
                     ++ lit " - " ++ text r))
     /\ startswith (lit "ERROR")
          (lit "ERROR: " ++ of_int (status_code r) ++ lit " - " ++ text r)
        = true
     /\ forall j, result_of_response
                    {| status_code := status_code r; text := text r; json := j |}
                  = result_of_response r)
  /\ (status_code r = 200%Z ->
      forall j choices choice message content,
        json r = Some j ->
        getitem_key j (lit "choices") = inr choices ->
        getitem_idx choices 0 = inr choice ->
        getitem_key choice (lit "message") = inr message ->
        getitem_key message (lit "content") = inr content ->
        fst (call transcript wd) = Done content).
Proof.
  intros Hr.
  assert (S : fst (call transcript wd)
              = match result_of_response r with
                | inl e => Raised e
                | inr v => Done v
                end).
  { unfold summarize_full_text, requests_post, bind, lift.
    rewrite Hr. now destruct (result_of_response r). }
  split.
  - intros Hs. apply Z.eqb_neq in Hs.
    assert (R : forall j,
               result_of_response
                 {| status_code := status_code r; text := text r; json := j |}
               = inr (VStr (lit "ERROR: " ++ of_int (status_code r)
                              ++ lit " - " ++ text r))).
    { intros j. unfold result_of_response. cbn [status_code text].
      now rewrite Hs. }
    assert (R0 : result_of_response r
                 = inr (VStr (lit "ERROR: " ++ of_int (status_code r)
                                ++ lit " - " ++ text r))).
    { unfold result_of_response. now rewrite Hs. }
    rewrite S, R0. split; [reflexivity|]. split; [reflexivity|].
    intros j. now rewrite R.
  - intros Hs j choices choice message content Hj H1 H2 H3 H4.
    rewrite S. unfold result_of_response.
    rewrite Hs, Hj, H1, H2, H3, H4. reflexivity.
Qed.

(** C3.  A run that finds a summary in the cache posts nothing, so an
    edit of the filename field over a cached summary posts nothing and
    keeps the cache.  A run ends in a rerun only through the regenerate
    button; the slot is then cleared, and the rerun that follows posts
    exactly one request, the one for the uploaded transcript, and asks
    for no further rerun.  In a reachable session a click on the button
    therefore adds exactly one request to those posted so far. *)
Theorem regenerate_posts_once (w : widgets) (wd : world) :
  (has_summary wd = true -> posts (snd (exec w wd)) = posts wd)
  /\ (forall wd1,
        exec w wd = (Rerun, wd1) ->
        regenerate w = true
        /\ cache wd1 = Some None
        /\ exists t,
             uploaded_file w = Some (Some t)
             /\ posts (snd (exec (no_rerun w) wd1))
                = posts wd1 ++ [post_of t]
             /\ fst (exec (no_rerun w) wd1) <> Rerun)
  /\ (forall a a',
        reach a -> next a ClickRegenerate a' ->
        exists t,
          file a = Some (Some t)
          /\ posts (state a') = posts (state a) ++ [post_of t])
  /\ (forall a a' v,
        has_summary (state a) = true -> next a (EditName v) a' ->
        posts (state a') = posts (state a)
        /\ cache (state a') = cache (state a)).
Proof.
  split; [apply run_cached|]. split; [|split].
  - intros wd1 H. destruct (run_rerun _ _ _ _ _ _ _ H) as (Hr & Hc & t & Hf).
    split; [exact Hr|]. split; [exact Hc|]. exists t. split; [exact Hf|].
    split.
    + apply run_uncached; [exact Hf|]. unfold has_summary. now rewrite Hc.
    + now apply run_no_rerun.
  - intros a a' Ha Hstep. inversion Hstep as [a0 ev a1 H]; subst.
    unfold interact in H.
    destruct (enabled ClickRegenerate a) eqn:En; [|discriminate].
    injection H as <-. cbn [state enabled next_file next_name clicked] in *.
    destruct (session_button _ _ _ _ _ Ha En) as (Hs & t & Hf).
    exists t. split; [exact Hf|].
    unfold run_with_rerun.
    destruct (run_click_cached API_KEY remote tbl rl
                {| uploaded_file := file a; pdf_name := name a;
                   regenerate := true |} (state a) t Hs Hf eq_refl)
      as (wd1 & -> & Hp & Hc).
    rewrite <- Hp. apply run_uncached; [exact Hf|].
    unfold has_summary. now rewrite Hc.
  - intros a a' v Hs Hstep. inversion Hstep as [a0 ev a1 H]; subst.
    unfold interact in H.
    cbn [enabled next_file next_name clicked] in H. injection H as <-.
    cbn [state]. unfold run_with_rerun.
    set (w0 := {| uploaded_file := file a; pdf_name := v;
                  regenerate := false |}).
    pose proof (run_no_rerun API_KEY remote tbl rl w0 (state a) eq_refl) as N.
    destruct (run_cached API_KEY remote tbl rl w0 (state a) Hs) as (P & C).
    specialize (C eq_refl).
    destruct (exec w0 (state a)) as [[ | | | ] wd1];
      cbn [fst snd] in *; try (split; assumption).
    now elim N.
Qed.

(** C4.  When the call returns a string that starts with [ERROR], the
    run shows it as an error, last on the page, and stops: the slot is
    left empty and the page has neither the regenerate button nor a
    download.  A run that starts without a summary and ends with one in
    the slot got it from a 200 answer whose content is a string not
    starting with [ERROR]. *)
Theorem error_halts_run (w : widgets) (wd : world) :
  (forall t r s,
     uploaded_file w = Some (Some t) ->
     has_summary wd = false ->
     remote (List.length (posts wd)) (post_of t) = inr r ->
     result_of_response r = inr (VStr s) ->
     startswith (lit "ERROR") s = true ->
     fst (exec w wd) = Stopped
     /\ cache (snd (exec w wd)) = Some None
     /\ page (snd (exec w wd))
        = header w
            ++ [ Info (lit "Summarizing the entire transcript...");
                 Spinner (lit "Generating full summary... This might take a moment for long transcripts.");
                 Error s ]
     /\ existsb is_download (page (snd (exec w wd))) = false
     /\ existsb is_button (page (snd (exec w wd))) = false)
  /\ (forall s,
        has_summary wd = false ->
        cache (snd (exec w wd)) = Some (Some s) ->
        exists t r,
          uploaded_file w = Some (Some t)
          /\ remote (List.length (posts wd)) (post_of t) = inr r
          /\ status_code r = 200%Z
          /\ result_of_response r = inr (VStr s)
          /\ startswith (lit "ERROR") s = false).
Proof.
  split.
  - intros t r s Hf Hc Hr Hres He.
    destruct w as [f n g], wd as [c p pg].
    cbn [uploaded_file posts] in Hf, Hr. subst f.
    assert (Hc' : c = None \/ c = Some None)
      by (destruct c as [[?|]|]; [discriminate Hc|now right|now left]).
    destruct Hc' as [-> | ->]; script_steps; rewrite Hr; script_steps;
      rewrite Hres; script_steps; rewrite He; script_steps; repeat split.
  - intros s. 
    assert (G : forall r s0, result_of_response r = inr (VStr s0) ->
                  startswith (lit "ERROR") s0 = false -> status_code r = 200%Z).
    { intros r s0 Hres He. unfold result_of_response in Hres.
      destruct (Z.eqb_spec (status_code r) 200) as [E|E]; [exact E|].
      injection Hres as <-. discriminate He. }
    open_run w wd; script_cases; intros Hc H; try discriminate Hc;
      try discriminate H; injection H as <-;
      do 2 eexists; (split; [reflexivity|]); (split; [eassumption|]);
      (split; [eapply G; eassumption|]); split; assumption.
Qed.

(** C9.  The download is named by the trimmed filename field followed
    by [.pdf], and by [summary.pdf] when the field is empty or white
    space only.  Every download button a run draws carries that name,
    and a run on a transcript that runs to its end draws one. *)
Theorem download_named (w : widgets) (wd : world) :
  (strip (pdf_name w) <> [] ->
     download_name (pdf_name w) = strip (pdf_name w) ++ lit ".pdf")
  /\ (strip (pdf_name w) = [] ->
      download_name (pdf_name w) = lit "summary.pdf")
  /\ (forallb isspace (pdf_name w) = true ->
      download_name (pdf_name w) = lit "summary.pdf")
  /\ (forall label data file_name mime,
        In (DownloadButton label data file_name mime) (page (snd (exec w wd))) ->
        file_name = download_name (pdf_name w)
        /\ mime = lit "application/pdf")
  /\ (forall t, uploaded_file w = Some (Some t) -> fst (exec w wd) = Done tt ->
        exists label data,
          In (DownloadButton label data (download_name (pdf_name w))
                (lit "application/pdf"))
            (page (snd (exec w wd)))).
Proof.
  assert (E : strip (pdf_name w) = [] ->
              download_name (pdf_name w) = lit "summary.pdf").
  { intros H. unfold download_name. now rewrite H. }
  split; [|split; [exact E|split]].
  - unfold download_name. now destruct (strip (pdf_name w)).
  - intros H. apply E. now apply strip_blank.
  - split.
    + intros label data file_name mime.
      open_run w wd; script_cases; cbn [In app]; intros H;
        repeat (destruct H as [H|H]; [try discriminate H|]);
        try contradiction; injection H as <- <- <- <-; split; reflexivity.
    + intros t.
      open_run w wd; script_cases; intros Hf H; try discriminate Hf;
        try discriminate H; do 2 eexists; cbn [In app];
        repeat (first [left; reflexivity | right]).
Qed.

End WorkflowClaims.

(** ** Closed instances on the workflow *)

Lemma error_string_on_bad_status_witness :
  fst (summarize_full_text Sample.key Sample.remote_500 Sample.transcript
         Sample.fresh)
  = Done (VStr (lit "ERROR: 500 - oops"))
  /\ fst (summarize_full_text Sample.key Sample.remote_ok Sample.transcript
            Sample.fresh)
     = Done (VStr (lit "## Notes")).
Proof.
  split.
  - refine (proj1 (proj1 (error_string_on_bad_status Sample.key
                            Sample.remote_500 Sample.transcript Sample.fresh
                            Sample.answer_500 eq_refl) _)).
    discriminate.
  - refine (proj2 (error_string_on_bad_status Sample.key
                     Sample.remote_ok Sample.transcript Sample.fresh
                     Sample.answer_ok eq_refl) eq_refl _ _ _ _ _
              eq_refl eq_refl eq_refl eq_refl eq_refl).
Defined.

Lemma regenerate_posts_once_witness :
  posts (snd (run Sample.key Sample.remote_ok uncased lenient (Sample.form false)
                Sample.cached)) = []
  /\ (exists wd1,
        run Sample.key Sample.remote_ok uncased lenient (Sample.form true) Sample.cached
        = (Rerun, wd1)
        /\ cache wd1 = Some None
        /\ posts (snd (run Sample.key Sample.remote_ok uncased lenient
                         (no_rerun (Sample.form true)) wd1))
           = posts wd1 ++ [request_of Sample.key Sample.transcript])
  /\ reachable Sample.key Sample.remote_ok uncased lenient Sample.loaded
  /\ step Sample.key Sample.remote_ok uncased lenient Sample.loaded ClickRegenerate
       Sample.regenerated
  /\ exists t,
       file Sample.loaded = Some (Some t)
       /\ posts (state Sample.regenerated)
          = posts (state Sample.loaded) ++ [request_of Sample.key t].
Proof.
  split; [|split].
  - exact (proj1 (regenerate_posts_once Sample.key Sample.remote_ok uncased lenient
                    (Sample.form false) Sample.cached) eq_refl).
  - exists (snd (run Sample.key Sample.remote_ok uncased lenient (Sample.form true)
                   Sample.cached)).
    assert (H : run Sample.key Sample.remote_ok uncased lenient (Sample.form true)
                  Sample.cached
                = (Rerun, snd (run Sample.key Sample.remote_ok uncased lenient
                                 (Sample.form true) Sample.cached)))
      by (vm_compute; reflexivity).
    split; [exact H|].
    destruct (proj1 (proj2 (regenerate_posts_once Sample.key Sample.remote_ok
                              uncased lenient (Sample.form true) Sample.cached))
                _ H) as (_ & Hc & t & Hf & Hp & _).
    split; [exact Hc|].
    injection Hf as <-. exact Hp.
  - assert (R : reachable Sample.key Sample.remote_ok uncased lenient Sample.loaded).
    { eapply reach_step; [apply reach_initial|].
      apply (step_interact _ _ _ _ _ (Upload (Some Sample.transcript))).
      vm_compute. reflexivity. }
    assert (S : step Sample.key Sample.remote_ok uncased lenient Sample.loaded
                  ClickRegenerate Sample.regenerated).
    { constructor. vm_compute. reflexivity. }
    split; [exact R|]. split; [exact S|].
    exact (proj1 (proj2 (proj2 (regenerate_posts_once Sample.key
             Sample.remote_ok uncased lenient (Sample.form false) Sample.fresh)))
             _ _ R S).
Defined.

Lemma error_halts_run_witness :
  fst (run Sample.key Sample.remote_500 uncased lenient (Sample.form false) Sample.fresh)
  = Stopped
  /\ cache (snd (run Sample.key Sample.remote_500 uncased lenient (Sample.form false)
                   Sample.fresh)) = Some None
  /\ existsb is_download
       (page (snd (run Sample.key Sample.remote_500 uncased lenient (Sample.form false)
                     Sample.fresh))) = false
  /\ exists t r,
       uploaded_file (Sample.form false) = Some (Some t)
       /\ Sample.remote_ok (List.length (posts Sample.fresh))
            (request_of Sample.key t) = inr r
       /\ status_code r = 200%Z
       /\ result_of_response r = inr (VStr (lit "## Notes"))
       /\ startswith (lit "ERROR") (lit "## Notes") = false.
Proof.
  assert (A : result_of_response Sample.answer_500
              = inr (VStr (lit "ERROR: 500 - oops")))
    by (vm_compute; reflexivity).
  assert (B : startswith (lit "ERROR") (lit "ERROR: 500 - oops") = true)
    by (vm_compute; reflexivity).
  destruct (proj1 (error_halts_run Sample.key Sample.remote_500 uncased lenient
                     (Sample.form false) Sample.fresh)
              Sample.transcript Sample.answer_500 (lit "ERROR: 500 - oops")
              eq_refl eq_refl eq_refl A B)
    as (H1 & H2 & _ & H3 & _).
  split; [exact H1|]. split; [exact H2|]. split; [exact H3|].
  assert (C : cache (snd (run Sample.key Sample.remote_ok uncased lenient
                            (Sample.form false) Sample.fresh))
              = Some (Some (lit "## Notes")))
    by (vm_compute; reflexivity).
  exact (proj2 (error_halts_run Sample.key Sample.remote_ok uncased lenient
                  (Sample.form false) Sample.fresh)
           (lit "## Notes") eq_refl C).
Defined.

Lemma download_named_witness :
  download_name (lit "  week1 ") = lit "week1.pdf"
  /\ download_name (lit "   ") = lit "summary.pdf"
  /\ exists label data,
       In (DownloadButton label data (download_name (lit "  week1 "))
             (lit "application/pdf"))
         (page (snd (run Sample.key Sample.remote_ok uncased lenient
                       (Sample.form false) Sample.fresh))).
Proof.
  assert (A : strip (lit "  week1 ") <> [])
    by (vm_compute; discriminate).
  assert (B : forallb isspace (lit "   ") = true)
    by (vm_compute; reflexivity).
  assert (C : fst (run Sample.key Sample.remote_ok uncased lenient
                     (Sample.form false) Sample.fresh) = Done tt)
    by (vm_compute; reflexivity).
  split; [|split].
  - exact (proj1 (download_named Sample.key Sample.remote_ok uncased lenient
                    (Sample.form false) Sample.fresh) A).
  - exact (proj1 (proj2 (proj2 (download_named Sample.key Sample.remote_ok
             uncased lenient
             {| uploaded_file := None; pdf_name := lit "   ";
                regenerate := false |} Sample.fresh))) B).
  - exact (proj2 (proj2 (proj2 (proj2 (download_named Sample.key
             Sample.remote_ok uncased lenient (Sample.form false) Sample.fresh))))
             Sample.transcript eq_refl C).
Defined.

(** ** More on the call and the workflow *)

Section WorkflowExtras.

Variable API_KEY : str.
Variable remote : nat -> http_request -> exn + http_response.
Variable tbl : str -> char -> str -> str.
Variable rl : reportlab.

Abbreviation exec := (run API_KEY remote tbl rl).
Abbreviation post_of := (request_of API_KEY).
Abbreviation call := (summarize_full_text API_KEY remote).
Abbreviation next := (step API_KEY remote tbl rl).
Abbreviation reach := (reachable API_KEY remote tbl rl).

Lemma call_result (transcript : str) (wd : world) :
  call transcript wd
  = (match remote (List.length (posts wd)) (post_of transcript) with
     | inl e => Raised e
     | inr r => match result_of_response r with
                | inl e => Raised e
                | inr v => Done v
                end
     end,
     {| cache := cache wd; posts := posts wd ++ [post_of transcript];
        page := page wd |}).
Proof.
  unfold summarize_full_text, requests_post, bind, lift.
  destruct (remote _ _) as [e|r]; [reflexivity|].
  now destruct (result_of_response r).
Qed.

(** X8.  Failures other than a bad status are raised, not returned: a
    failing post raises its exception, and a 200 answer raises
    [JSONDecodeError] when the body does not parse, [TypeError] when it
    is not an object, [KeyError] when [choices], [message] or
    [content] is missing, [IndexError] when [choices] is empty.  The
    request has been posted in every case. *)
Theorem malformed_answer_raises (transcript : str) (wd : world) :
  posts (snd (call transcript wd)) = posts wd ++ [post_of transcript]
  /\ (forall e,
        remote (List.length (posts wd)) (post_of transcript) = inl e ->
        fst (call transcript wd) = Raised e)
  /\ (forall r,
        remote (List.length (posts wd)) (post_of transcript) = inr r ->
        status_code r = 200%Z ->
        (json r = None -> fst (call transcript wd) = Raised JSONDecodeError)
        /\ (forall j, json r = Some j -> (forall d, j <> VDict d) ->
              fst (call transcript wd) = Raised TypeError)
        /\ (forall d, json r = Some (VDict d) ->
              assoc (lit "choices") d = None ->
              fst (call transcript wd) = Raised KeyError)
        /\ (forall d, json r = Some (VDict d) ->
              assoc (lit "choices") d = Some (VList []) ->
              fst (call transcript wd) = Raised IndexError)
        /\ (forall d c cs, json r = Some (VDict d) ->
              assoc (lit "choices") d = Some (VList (VDict c :: cs)) ->
              assoc (lit "message") c = None ->
              fst (call transcript wd) = Raised KeyError)
        /\ (forall d c cs m, json r = Some (VDict d) ->
              assoc (lit "choices") d = Some (VList (VDict c :: cs)) ->
              assoc (lit "message") c = Some (VDict m) ->
              assoc (lit "content") m = None ->
              fst (call transcript wd) = Raised KeyError)).
Proof.
  rewrite call_result. cbn [fst snd]. split; [reflexivity|].
  split; [now intros e ->|].
  intros r -> Hs. unfold result_of_response. rewrite Hs. cbn [Z.eqb Pos.eqb].
  split; [now intros ->|].
  split.
  { intros j -> Hj. destruct j; try reflexivity. now elim (Hj d). }
  split; [intros d -> H; cbn [getitem_key]; now rewrite H|].
  split; [intros d -> H; cbn [getitem_key]; now rewrite H|].
  split.
  - intros d c cs -> H1 H2. cbn [getitem_key]. rewrite H1.
    cbn [getitem_idx nth_error getitem_key]. now rewrite H2.
  - intros d c cs m -> H1 H2 H3. cbn [getitem_key]. rewrite H1.
    cbn [getitem_idx nth_error getitem_key]. rewrite H2.
    cbn [getitem_key]. now rewrite H3.
Qed.

Lemma run_first_call (w : widgets) (wd : world) (t : str) :
  uploaded_file w = Some (Some t) -> has_summary wd = false ->
  exec w wd
  = match remote (List.length (posts wd)) (post_of t) with
    | inl e =>
        (Raised e,
         {| cache := Some None; posts := posts wd ++ [post_of t];
            page := header w ++ [INFO_RUNNING; SPINNER] |})
    | inr r =>
        match result_of_response r with
        | inl e =>
            (Raised e,
             {| cache := Some None; posts := posts wd ++ [post_of t];
                page := header w ++ [INFO_RUNNING; SPINNER] |})
        | inr (VStr s) =>
            if startswith (lit "ERROR") s then
              (Stopped,
               {| cache := Some None; posts := posts wd ++ [post_of t];
                  page := header w ++ [INFO_RUNNING; SPINNER; Error s] |})
            else if regenerate w then
              (Rerun,
               {| cache := Some None; posts := posts wd ++ [post_of t];
                  page := header w ++ [INFO_RUNNING; SPINNER]
                            ++ summary_calls s |})
            else
              (match create_pdf tbl rl s with
               | inr _ => Done tt
               | inl e => Raised e
               end,
               {| cache := Some (Some s); posts := posts wd ++ [post_of t];
                  page := header w ++ [INFO_RUNNING; SPINNER]
                            ++ summary_calls s
                            ++ download_calls w (create_pdf tbl rl s) |})
        | inr _ =>
            (Raised AttributeError,
             {| cache := Some None; posts := posts wd ++ [post_of t];
                page := header w ++ [INFO_RUNNING; SPINNER] |})
        end
    end.
Proof.
  destruct w as [f n g], wd as [c p pg]. cbn [uploaded_file]. intros -> Hc.
  assert (Hc' : c = None \/ c = Some None)
    by (destruct c as [[?|]|]; [discriminate Hc|now right|now left]).
  destruct Hc' as [-> | ->]; script_steps;
    (destruct (remote (List.length p) (post_of t)) as [e|r];
     [reflexivity|]);
    script_steps;
    (destruct (result_of_response r) as [e|[ | | | |s| | ]];
     script_steps; try reflexivity);
    (destruct (startswith (lit "ERROR") s); [reflexivity|]);
    (destruct g; [reflexivity|]);
    script_steps; destruct (create_pdf tbl rl s); reflexivity.
Qed.

Lemma run_on_cached (w : widgets) (wd : world) (t s : str) :
  uploaded_file w = Some (Some t) -> cache wd = Some (Some s) ->
  exec w wd
  = if regenerate w then
      (Rerun,
       {| cache := Some None; posts := posts wd;
          page := header w ++ [INFO_RUNNING] ++ summary_calls s |})
    else
      (match create_pdf tbl rl s with
       | inr _ => Done tt
       | inl e => Raised e
       end,
       {| cache := Some (Some s); posts := posts wd;
          page := header w ++ [INFO_RUNNING] ++ summary_calls s
                    ++ download_calls w (create_pdf tbl rl s) |}).
Proof.
  destruct w as [f n g], wd as [c p pg]. cbn [uploaded_file cache regenerate].
  intros -> ->. destruct g; script_steps; [reflexivity|].
  destruct (create_pdf tbl rl s); reflexivity.
Qed.

Lemma run_without_file (w : widgets) (wd : world) :
  uploaded_file w = None ->
  exec w wd
  = (Done tt,
     {| cache := cache wd; posts := posts wd;
        page := header w ++ [Info (lit "Upload a transcript to begin.")] |}).
Proof.
  open_run w wd; script_cases; intros Hf; try discriminate Hf; reflexivity.
Qed.

Lemma run_undecodable (w : widgets) (wd : world) :
  uploaded_file w = Some None ->
  exec w wd
  = (Raised UnicodeDecodeError,
     {| cache := cache wd; posts := posts wd; page := header w |}).
Proof.
  open_run w wd; script_cases; intros Hf; try discriminate Hf; reflexivity.
Qed.

Lemma result_bad_status (r : http_response) :
  status_code r <> 200%Z ->
  result_of_response r
  = inr (VStr (lit "ERROR: " ++ of_int (status_code r) ++ lit " - " ++ text r)).
Proof.
  intros H. apply Z.eqb_neq in H. unfold result_of_response. now rewrite H.
Qed.

Lemma result_content (r : http_response) (d c m : list (str * pyval))
    (cs : list pyval) (v : pyval) :
  status_code r = 200%Z ->
  json r = Some (VDict d) ->
  assoc (lit "choices") d = Some (VList (VDict c :: cs)) ->
  assoc (lit "message") c = Some (VDict m) ->
  assoc (lit "content") m = Some v ->
  result_of_response r = inr v.
Proof.
  intros Hs Hj H1 H2 H3. unfold result_of_response. rewrite Hs, Hj.
  cbn [Z.eqb Pos.eqb getitem_key]. rewrite H1.
  cbn [getitem_idx nth_error getitem_key]. rewrite H2.
  cbn [getitem_key]. now rewrite H3.
Qed.

(** X9.  A run on a transcript with no summary in the cache, answered
    with a status other than 200, ends in [st.stop()] whether or not
    the button was clicked: one request posted, the slot holding
    [None], and on the page the header, the two notices and the error
    string made of the status and the body, nothing after it. *)
Theorem bad_status_stops_run (w : widgets) (wd : world) (t : str)
    (r : http_response) :
  uploaded_file w = Some (Some t) ->
  has_summary wd = false ->
  remote (List.length (posts wd)) (post_of t) = inr r ->
  status_code r <> 200%Z ->
  exec w wd
  = (Stopped,
     {| cache := Some None;
        posts := posts wd ++ [post_of t];
        page := header w
                  ++ [ INFO_RUNNING; SPINNER;
                       Error (lit "ERROR: " ++ of_int (status_code r)
                                ++ lit " - " ++ text r) ] |}).
Proof.
  intros Hf Hc Hr Hs. rewrite (run_first_call w wd t Hf Hc), Hr.
  rewrite (result_bad_status r Hs). reflexivity.
Qed.

(** X10.  A run on a transcript with no summary in the cache, answered
    200 with a string content that does not start with [ERROR], stores
    that string in the slot, calls the text area with it as value, and
    draws the regenerate button.  When [create_pdf] returns a document
    for that same string the run ends with the download of it under the
    name taken from the filename field; when [create_pdf] raises, the
    run ends in that exception after the button, with the summary
    stored and no download. *)
Theorem first_success_caches_and_shows (w : widgets) (wd : world) (t : str)
    (r : http_response) (d c m : list (str * pyval)) (cs : list pyval)
    (s : str) :
  uploaded_file w = Some (Some t) ->
  regenerate w = false ->
  has_summary wd = false ->
  remote (List.length (posts wd)) (post_of t) = inr r ->
  status_code r = 200%Z ->
  json r = Some (VDict d) ->
  assoc (lit "choices") d = Some (VList (VDict c :: cs)) ->
  assoc (lit "message") c = Some (VDict m) ->
  assoc (lit "content") m = Some (VStr s) ->
  startswith (lit "ERROR") s = false ->
  (forall pdf,
     create_pdf tbl rl s = inr pdf ->
     exec w wd
     = (Done tt,
        {| cache := Some (Some s);
           posts := posts wd ++ [post_of t];
           page := header w ++ [INFO_RUNNING; SPINNER] ++ summary_calls s
                     ++ [download_call w pdf] |}))
  /\ (forall e,
        create_pdf tbl rl s = inl e ->
        exec w wd
        = (Raised e,
           {| cache := Some (Some s);
              posts := posts wd ++ [post_of t];
              page := header w ++ [INFO_RUNNING; SPINNER] ++ summary_calls s |})).
Proof.
  intros Hf Hg Hc Hr Hs Hj H1 H2 H3 He.
  rewrite (run_first_call w wd t Hf Hc), Hr.
  rewrite (result_content r d c m cs (VStr s) Hs Hj H1 H2 H3), He, Hg.
  split; [intros pdf E|intros e E]; rewrite E; cbn [download_calls];
    [reflexivity|now rewrite app_nil_r].
Qed.

(** X11.  A 200 answer whose content is not a string (JSON [null], a
    number, a list, an object) makes the run raise [AttributeError] at
    the [startswith] test: nothing is stored and nothing of the summary
    view is drawn. *)
Theorem non_string_content_raises (w : widgets) (wd : world) (t : str)
    (r : http_response) (d c m : list (str * pyval)) (cs : list pyval)
    (v : pyval) :
  uploaded_file w = Some (Some t) ->
  has_summary wd = false ->
  remote (List.length (posts wd)) (post_of t) = inr r ->
  status_code r = 200%Z ->
  json r = Some (VDict d) ->
  assoc (lit "choices") d = Some (VList (VDict c :: cs)) ->
  assoc (lit "message") c = Some (VDict m) ->
  assoc (lit "content") m = Some v ->
  (forall s, v <> VStr s) ->
  exec w wd
  = (Raised AttributeError,
     {| cache := Some None;
        posts := posts wd ++ [post_of t];
        page := header w ++ [INFO_RUNNING; SPINNER] |}).
Proof.
  intros Hf Hc Hr Hs Hj H1 H2 H3 Hv.
  rewrite (run_first_call w wd t Hf Hc), Hr.
  rewrite (result_content r d c m cs v Hs Hj H1 H2 H3).
  destruct v; try reflexivity. now elim (Hv s).
Qed.

(** X12.  A run that raises draws no download.  When it raised
    before the regenerate button was drawn, whether the slot holds a
    summary is as before the run; when the button is on the page, the
    exception is the one [create_pdf] raised on the summary the slot
    holds, and the button had not been clicked.  A run over a cached
    summary leaves the slot as it was, and raises only on an upload
    that does not decode or in [create_pdf]. *)
Theorem raised_run_draws_no_download (w : widgets) (wd : world) (e : exn) :
  fst (exec w wd) = Raised e ->
  existsb is_download (page (snd (exec w wd))) = false
  /\ (existsb is_button (page (snd (exec w wd))) = false ->
      has_summary (snd (exec w wd)) = has_summary wd)
  /\ (existsb is_button (page (snd (exec w wd))) = true ->
      regenerate w = false
      /\ exists s, cache (snd (exec w wd)) = Some (Some s)
                   /\ create_pdf tbl rl s = inl e)
  /\ (has_summary wd = true ->
      cache (snd (exec w wd)) = cache wd
      /\ ((e = UnicodeDecodeError /\ uploaded_file w = Some None)
          \/ exists s, cache wd = Some (Some s)
                       /\ create_pdf tbl rl s = inl e)).
Proof.
  open_run w wd; script_cases; intros H; try discriminate H;
    injection H as <-;
    (split; [reflexivity|]);
    (split; [intros D; first [discriminate D|reflexivity]|]);
    (split; [intros D; first [discriminate D
                             |split; [reflexivity|eexists; split; [reflexivity|eassumption]]]|]);
    intros D; first [discriminate D|split; [reflexivity|]];
    first [left; split; reflexivity
          |right; eexists; split; [reflexivity|eassumption]].
Qed.

Abbreviation exec_rerun := (run_with_rerun API_KEY remote tbl rl).
Abbreviation react := (interact API_KEY remote tbl rl).

Lemma header_name (w1 w2 : widgets) :
  pdf_name w1 = pdf_name w2 ->
  header w1 = header w2
  /\ forall r, download_calls w1 r = download_calls w2 r.
Proof.
  intros H. unfold header, download_calls, download_call.
  split; [now rewrite H|]. intros [e|pdf]; [reflexivity|now rewrite H].
Qed.

Lemma rerun_no_click (f : option (option str)) (n : str) (wd : world) :
  exec_rerun f n false wd
  = snd (exec {| uploaded_file := f; pdf_name := n; regenerate := false |} wd).
Proof.
  unfold run_with_rerun.
  pose proof (run_no_rerun API_KEY remote tbl rl
                {| uploaded_file := f; pdf_name := n; regenerate := false |}
                wd eq_refl) as N.
  destruct (exec _ wd) as [[ | | | ] wd1]; try reflexivity. now elim N.
Qed.

(** The world a user event leaves is the one a run that did not ask for
    a rerun left, on the same upload and the same filename field. *)
Lemma rerun_as_run (f : option (option str)) (n : str) (click : bool)
    (wd : world) :
  exists w1 wd1,
    exec_rerun f n click wd = snd (exec w1 wd1)
    /\ fst (exec w1 wd1) <> Rerun
    /\ uploaded_file w1 = f /\ pdf_name w1 = n.
Proof.
  unfold run_with_rerun.
  destruct (exec {| uploaded_file := f; pdf_name := n; regenerate := click |} wd)
    as [o wd1] eqn:E.
  destruct o.
  1-3: exists {| uploaded_file := f; pdf_name := n; regenerate := click |}, wd;
       rewrite E; repeat split; discriminate.
  exists {| uploaded_file := f; pdf_name := n; regenerate := false |}, wd1.
  repeat split. now apply run_no_rerun.
Qed.

Lemma session_as_run (a : session) :
  reach a ->
  exists w1 wd1,
    state a = snd (exec w1 wd1)
    /\ fst (exec w1 wd1) <> Rerun
    /\ uploaded_file w1 = file a /\ pdf_name w1 = name a.
Proof.
  intros [|a0 ev a1 _ Hs].
  - cbn [initial state file name]. apply rerun_as_run.
  - inversion Hs as [a2 ev2 a3 H]; subst. unfold interact in H.
    destruct (enabled ev a0); [|discriminate].
    injection H as <-. cbn [state file name]. apply rerun_as_run.
Qed.

Lemma run_cache_clean (w : widgets) (wd : world) :
  cache_clean wd -> cache_clean (snd (exec w wd)).
Proof.
  unfold cache_clean.
  open_run w wd; script_cases; intros H x Hx; try discriminate Hx;
    try (now apply H); now injection Hx as <-.
Qed.

Lemma rerun_cache_clean (f : option (option str)) (n : str) (click : bool)
    (wd : world) :
  cache_clean wd -> cache_clean (exec_rerun f n click wd).
Proof.
  intros H. unfold run_with_rerun.
  pose proof (run_cache_clean
                {| uploaded_file := f; pdf_name := n; regenerate := click |}
                wd H) as H1.
  destruct (exec _ wd) as [[ | | | ] wd1]; cbn [snd] in H1; try exact H1.
  now apply run_cache_clean.
Qed.

(** After a run that did not ask for a rerun, the calls of the summary
    view are on the page exactly when the slot holds a summary and a
    transcript is uploaded, and they are made on the summary in the
    slot. *)
Lemma run_view (w : widgets) (wd : world) :
  fst (exec w wd) <> Rerun ->
  (has_summary (snd (exec w wd)) = true
   /\ (exists t, uploaded_file w = Some (Some t))
   -> existsb is_button (page (snd (exec w wd))) = true)
  /\ (forall s t,
        cache (snd (exec w wd)) = Some (Some s) ->
        uploaded_file w = Some (Some t) ->
        exists mid,
          page (snd (exec w wd))
          = header w ++ mid ++ summary_calls s
              ++ download_calls w (create_pdf tbl rl s)
          /\ (mid = [INFO_RUNNING] \/ mid = [INFO_RUNNING; SPINNER])).
Proof.
  open_run w wd; script_cases; intros N; try (now elim N); split;
    try (intros [H [t Ht]]; first [discriminate H|discriminate Ht|reflexivity]);
    intros x t Hx Ht; try discriminate Hx; try discriminate Ht;
    injection Hx as <-;
    match goal with E : create_pdf _ _ _ = _ |- _ => rewrite E end;
    first [ exists [INFO_RUNNING]; split; [reflexivity|now left]
          | exists [INFO_RUNNING; SPINNER]; split; [reflexivity|now right] ].
Qed.

Lemma run_posts_at_most_one (w : widgets) (wd : world) :
  exists l, posts (snd (exec w wd)) = posts wd ++ l /\ List.length l <= 1.
Proof.
  destruct (has_summary wd) eqn:Hc.
  - exists []. rewrite app_nil_r. split; [|cbn; lia].
    now apply run_cached.
  - destruct (uploaded_file w) as [[t|]|] eqn:Hf.
    + exists [post_of t]. split; [now apply run_uncached|reflexivity].
    + exists []. rewrite app_nil_r. split; [|cbn; lia].
      apply run_no_transcript. intros t. congruence.
    + exists []. rewrite app_nil_r. split; [|cbn; lia].
      apply run_no_transcript. intros t. congruence.
Qed.

(** X13.  Only the regenerate button invalidates the cache: after any
    other event (a new upload, the removal of the file, an edit of the
    filename field) on a session with a cached summary, the slot holds
    the same summary and nothing was posted.  When a transcript is then
    uploaded, even another one, the run makes the calls of the summary
    view on the old summary: the text area is called with it as value,
    and the download, when [create_pdf] returns a document, is the
    document of the old summary. *)
Theorem only_regenerate_invalidates (a a' : session) (ev : event) (s : str) :
  cache (state a) = Some (Some s) ->
  ev <> ClickRegenerate ->
  next a ev a' ->
  cache (state a') = Some (Some s)
  /\ posts (state a') = posts (state a)
  /\ (forall t, file a' = Some (Some t) ->
        page (state a')
        = header (form_of a') ++ [INFO_RUNNING] ++ summary_calls s
            ++ download_calls (form_of a') (create_pdf tbl rl s)).
Proof.
  intros Hc Hev Hs. inversion Hs as [a0 ev0 a1 H]; subst.
  unfold interact in H.
  assert (E : enabled ev a = true /\ clicked ev = false)
    by (destruct ev; try (split; reflexivity); now elim Hev).
  destruct E as [E1 E2]. rewrite E1, E2 in H. injection H as <-.
  cbn [state file name form_of]. rewrite rerun_no_click.
  set (w := {| uploaded_file := next_file ev a; pdf_name := next_name ev a;
               regenerate := false |}).
  assert (Hh : has_summary (state a) = true)
    by (unfold has_summary; now rewrite Hc).
  destruct (run_cached API_KEY remote tbl rl w (state a) Hh) as [P C].
  specialize (C eq_refl). rewrite C, P. repeat split; try assumption.
  intros t Ht. now rewrite (run_on_cached w (state a) t s Ht Hc).
Qed.

(** X25.  A summary the layout library refuses stays: when the slot
    holds a summary on which [create_pdf] raises, every event but the
    click on the regenerate button that leaves a transcript uploaded
    starts a run that ends in the same exception: nothing is posted,
    the slot is as it was, the button is drawn and there is no
    download. *)
Theorem render_failure_persists (a a' : session) (ev : event) (s t : str)
    (e : exn) :
  cache (state a) = Some (Some s) ->
  create_pdf tbl rl s = inl e ->
  ev <> ClickRegenerate ->
  next a ev a' ->
  file a' = Some (Some t) ->
  exec (form_of a') (state a) = (Raised e, state a')
  /\ cache (state a') = Some (Some s)
  /\ posts (state a') = posts (state a)
  /\ page (state a') = header (form_of a') ++ [INFO_RUNNING] ++ summary_calls s
  /\ existsb is_download (page (state a')) = false
  /\ enabled ClickRegenerate a' = true.
Proof.
  intros Hc Hp Hev Hs. inversion Hs as [a0 ev0 a1 H]; subst.
  unfold interact in H.
  assert (E : enabled ev a = true /\ clicked ev = false)
    by (destruct ev; try (split; reflexivity); now elim Hev).
  destruct E as [E1 E2]. rewrite E1, E2 in H. injection H as <-.
  unfold form_of, enabled. cbn [state file name]. intros Ht.
  rewrite rerun_no_click.
  set (w := {| uploaded_file := next_file ev a; pdf_name := next_name ev a;
               regenerate := false |}).
  assert (R : exec w (state a)
              = (Raised e,
                 {| cache := Some (Some s); posts := posts (state a);
                    page := header w ++ [INFO_RUNNING] ++ summary_calls s |})).
  { rewrite (run_on_cached w (state a) t s Ht Hc), Hp.
    cbn [regenerate w download_calls]. now rewrite app_nil_r. }
  rewrite R. cbn [snd cache posts page]. repeat split.
Qed.

(** X14.  In every reachable session the slot never holds a string that
    starts with [ERROR]: error strings are displayed, never cached. *)
Theorem cached_summary_never_error (a : session) (s : str) :
  reach a ->
  cache (state a) = Some (Some s) ->
  startswith (lit "ERROR") s = false.
Proof.
  intros Ha. revert s. change (cache_clean (state a)).
  induction Ha as [|a0 ev a1 _ IH Hs].
  - cbn [initial state]. apply rerun_cache_clean. intros s H. discriminate H.
  - inversion Hs as [a2 ev2 a3 H]; subst. unfold interact in H.
    destruct (enabled ev a0); [|discriminate].
    injection H as <-. cbn [state]. now apply rerun_cache_clean.
Qed.

(** X15.  In every reachable session the calls on the page agree with
    the cache: the regenerate button is on the page exactly when the
    slot holds a summary and a transcript is uploaded; and then the
    page ends with the calls of the summary view on the cached summary:
    the text area called with it as value and, when [create_pdf]
    returns a document for it, the download of that document; when
    [create_pdf] raises, the button is the last call. *)
Theorem page_matches_cache (a : session) :
  reach a ->
  (existsb is_button (page (state a)) = true
   <-> has_summary (state a) = true /\ exists t, file a = Some (Some t))
  /\ (forall s t,
        cache (state a) = Some (Some s) -> file a = Some (Some t) ->
        exists mid,
          page (state a)
          = header (form_of a) ++ mid ++ summary_calls s
              ++ download_calls (form_of a) (create_pdf tbl rl s)
          /\ (mid = [INFO_RUNNING] \/ mid = [INFO_RUNNING; SPINNER])).
Proof.
  intros Ha.
  destruct (session_as_run a Ha) as (w1 & wd1 & E & N & Hf & Hn).
  destruct (run_view w1 wd1 N) as [B V].
  destruct (header_name w1 (form_of a) Hn) as [Hh Hv].
  rewrite E, <- Hf. split; [split|].
  - now apply run_button.
  - exact B.
  - intros s t Hc Ht. destruct (V s t Hc Ht) as (mid & P & M).
    exists mid. split; [|exact M]. now rewrite <- Hh, <- Hv.
Qed.

(** X16.  Regeneration is not safe: when the request it posts is
    answered with a status other than 200, the old summary is gone.
    The slot holds [None] and the page ends with the error string;
    the summary view, the button included, is no longer drawn. *)
Theorem failed_regenerate_loses_summary (a a' : session) (t : str)
    (r : http_response) :
  reach a ->
  next a ClickRegenerate a' ->
  file a = Some (Some t) ->
  remote (List.length (posts (state a))) (post_of t) = inr r ->
  status_code r <> 200%Z ->
  cache (state a') = Some None
  /\ posts (state a') = posts (state a) ++ [post_of t]
  /\ page (state a')
     = header (form_of a)
         ++ [ INFO_RUNNING; SPINNER;
              Error (lit "ERROR: " ++ of_int (status_code r)
                       ++ lit " - " ++ text r) ].
Proof.
  intros Ha Hs Hf Hr Hst. inversion Hs as [a0 ev a1 H]; subst.
  unfold interact in H.
  destruct (enabled ClickRegenerate a) eqn:En; [|discriminate].
  injection H as <-. cbn [state enabled next_file next_name clicked] in *.
  destruct (session_button _ _ _ _ _ Ha En) as (Hc & _).
  unfold run_with_rerun.
  destruct (run_click_cached API_KEY remote tbl rl
              {| uploaded_file := file a; pdf_name := name a;
                 regenerate := true |} (state a) t Hc Hf eq_refl)
    as (wd1 & -> & Hp & Hn).
  assert (Hu : has_summary wd1 = false)
    by (unfold has_summary; now rewrite Hn).
  rewrite (run_first_call
             {| uploaded_file := file a; pdf_name := name a;
                regenerate := false |} wd1 t Hf Hu).
  rewrite Hp, Hr, (result_bad_status r Hst). cbn [snd cache posts page].
  repeat split.
Qed.

(** X17.  Failures are not remembered: while the slot holds no summary,
    every event that leaves a transcript uploaded posts the request for
    it again. *)
Theorem empty_slot_posts_again (a a' : session) (ev : event) (t : str) :
  has_summary (state a) = false ->
  ev <> ClickRegenerate ->
  next a ev a' ->
  file a' = Some (Some t) ->
  posts (state a') = posts (state a) ++ [post_of t].
Proof.
  intros Hc Hev Hs. inversion Hs as [a0 ev0 a1 H]; subst.
  unfold interact in H.
  assert (E : enabled ev a = true /\ clicked ev = false)
    by (destruct ev; try (split; reflexivity); now elim Hev).
  destruct E as [E1 E2]. rewrite E1, E2 in H. injection H as <-.
  cbn [state file]. intros Hf. rewrite rerun_no_click.
  now apply run_uncached.
Qed.

(** X18.  In a reachable session an event posts at most one request,
    after those posted before. *)
Theorem at_most_one_post_per_event (a a' : session) (ev : event) :
  reach a -> next a ev a' ->
  exists l,
    posts (state a') = posts (state a) ++ l /\ List.length l <= 1.
Proof.
  intros Ha Hs. inversion Hs as [a0 ev0 a1 H]; subst.
  unfold interact in H.
  destruct (enabled ev a) eqn:En; [|discriminate].
  injection H as <-. cbn [state].
  destruct (clicked ev) eqn:Hk.
  - destruct ev; try discriminate Hk.
    cbn [enabled next_file next_name] in *.
    destruct (session_button _ _ _ _ _ Ha En) as (Hc & t & Hf).
    unfold run_with_rerun.
    destruct (run_click_cached API_KEY remote tbl rl
                {| uploaded_file := file a; pdf_name := name a;
                   regenerate := true |} (state a) t Hc Hf eq_refl)
      as (wd1 & -> & Hp & Hn).
    exists [post_of t]. split; [|reflexivity].
    rewrite <- Hp. apply run_uncached; [exact Hf|].
    unfold has_summary. now rewrite Hn.
  - rewrite rerun_no_click. apply run_posts_at_most_one.
Qed.

End WorkflowExtras.

(** X19.  The download name is always a non-empty trimmed stem followed
    by [.pdf]; white space around the filename field does not change
    it. *)
Theorem download_name_shape (n : str) :
  (exists stem,
     download_name n = stem ++ lit ".pdf"
     /\ stem <> [] /\ strip stem = stem)
  /\ (forall a b,
        forallb isspace a = true -> forallb isspace b = true ->
        download_name (a ++ n ++ b) = download_name n).
Proof.
  split.
  - unfold download_name. destruct (strip n) as [|c t] eqn:E.
    + exists (lit "summary"). repeat split. discriminate.
    + exists (c :: t). split; [reflexivity|]. split; [discriminate|].
      rewrite <- E. apply strip_idem.
  - intros a b Ha Hb. unfold download_name. now rewrite strip_pad.
Qed.

(** X20.  The request keeps the whole transcript: two transcripts that
    give the same prompt, or the same request, are the same. *)
Theorem request_determines_transcript (key t1 t2 : str) :
  (prompt_of t1 = prompt_of t2 -> t1 = t2)
  /\ (request_of key t1 = request_of key t2 -> t1 = t2)
  /\ List.length (prompt_of t1)
     = List.length PROMPT_HEAD + List.length t1 + List.length PROMPT_TAIL.
Proof.
  assert (P : prompt_of t1 = prompt_of t2 -> t1 = t2).
  { unfold prompt_of. intros H. apply app_inv_head in H.
    now apply app_inv_tail in H. }
  split; [exact P|]. split.
  - intros H. apply (f_equal json_body) in H.
    unfold request_of, payload_of in H. cbn [json_body] in H.
    apply P. congruence.
  - unfold prompt_of. rewrite !length_app. lia.
Qed.

Lemma step_apply_event (API_KEY : str)
    (remote : nat -> http_request -> exn + http_response)
    (tbl : str -> char -> str -> str) (rl : reportlab) (ev : event)
    (a : session) :
  enabled ev a = true ->
  step API_KEY remote tbl rl a ev (apply_event API_KEY remote tbl rl ev a).
Proof.
  intros H. constructor. unfold interact. now rewrite H.
Qed.

Lemma reach_apply_event (API_KEY : str)
    (remote : nat -> http_request -> exn + http_response)
    (tbl : str -> char -> str -> str) (rl : reportlab) (ev : event)
    (a : session) :
  reachable API_KEY remote tbl rl a -> enabled ev a = true ->
  reachable API_KEY remote tbl rl (apply_event API_KEY remote tbl rl ev a).
Proof.
  intros Ha H. eapply reach_step; [exact Ha|]. now apply step_apply_event.
Qed.

Lemma malformed_answer_raises_witness :
  fst (summarize_full_text Sample.key Scenario.remote_no_choices
         Sample.transcript Sample.fresh) = Raised KeyError
  /\ fst (summarize_full_text Sample.key Scenario.remote_null
            Sample.transcript Sample.fresh) = Done VNone.
Proof.
  split; [|reflexivity].
  destruct (proj2 (proj2 (malformed_answer_raises Sample.key
              Scenario.remote_no_choices Sample.transcript Sample.fresh))
              Scenario.answer_no_choices eq_refl eq_refl)
    as (_ & _ & H & _).
  exact (H [] eq_refl eq_refl).
Defined.

Lemma bad_status_stops_run_witness :
  fst (run Sample.key Sample.remote_500 uncased lenient (Sample.form true) Sample.fresh)
  = Stopped.
Proof.
  assert (N : status_code Sample.answer_500 <> 200%Z) by discriminate.
  rewrite (bad_status_stops_run Sample.key Sample.remote_500 uncased lenient
             (Sample.form true) Sample.fresh Sample.transcript
             Sample.answer_500 eq_refl eq_refl eq_refl N).
  reflexivity.
Defined.

Lemma first_success_caches_and_shows_witness :
  cache (snd (run Sample.key Sample.remote_ok uncased lenient (Sample.form false)
                Sample.fresh)) = Some (Some (lit "## Notes"))
  /\ fst (run Sample.key Sample.remote_ok uncased lenient (Sample.form false)
            Sample.fresh) = Done tt
  /\ cache (snd (run Sample.key Scenario.remote_markup uncased strict
                   (Sample.form false) Sample.fresh))
     = Some (Some (lit "Compare: if x<y then stop"))
  /\ fst (run Sample.key Scenario.remote_markup uncased strict
            (Sample.form false) Sample.fresh) = Raised ValueError.
Proof.
  assert (P : create_pdf uncased lenient (lit "## Notes")
              = inr (planned_document uncased (lit "## Notes")))
    by (vm_compute; reflexivity).
  assert (Q : create_pdf uncased strict (lit "Compare: if x<y then stop")
              = inl ValueError)
    by (vm_compute; reflexivity).
  rewrite (proj1 (first_success_caches_and_shows Sample.key Sample.remote_ok
             uncased lenient
             (Sample.form false) Sample.fresh Sample.transcript
             Sample.answer_ok Scenario.ok_body Scenario.ok_choice
             Scenario.ok_message [] (lit "## Notes")
             eq_refl eq_refl eq_refl eq_refl eq_refl eq_refl eq_refl eq_refl
             eq_refl eq_refl) _ P).
  rewrite (proj2 (first_success_caches_and_shows Sample.key
             Scenario.remote_markup uncased strict
             (Sample.form false) Sample.fresh Sample.transcript
             Scenario.answer_markup Scenario.markup_body Scenario.markup_choice
             Scenario.markup_message [] (lit "Compare: if x<y then stop")
             eq_refl eq_refl eq_refl eq_refl eq_refl eq_refl eq_refl eq_refl
             eq_refl eq_refl) _ Q).
  repeat split.
Defined.

Lemma non_string_content_raises_witness :
  fst (run Sample.key Scenario.remote_null uncased lenient (Sample.form false)
         Sample.fresh) = Raised AttributeError.
Proof.
  assert (N : forall s, VNone <> VStr s) by discriminate.
  rewrite (non_string_content_raises Sample.key Scenario.remote_null uncased lenient
             (Sample.form false) Sample.fresh Sample.transcript
             Scenario.answer_null Scenario.null_body Scenario.null_choice
             Scenario.null_message [] VNone
             eq_refl eq_refl eq_refl eq_refl eq_refl eq_refl eq_refl eq_refl N).
  reflexivity.
Defined.

Lemma raised_run_draws_no_download_witness :
  existsb is_download
    (page (snd (run Sample.key Scenario.remote_markup uncased strict
                  (Sample.form false) Sample.fresh))) = false
  /\ (exists s,
        cache (snd (run Sample.key Scenario.remote_markup uncased strict
                      (Sample.form false) Sample.fresh)) = Some (Some s)
        /\ create_pdf uncased strict s = inl ValueError)
  /\ has_summary (snd (run Sample.key Scenario.remote_null uncased lenient
                         (Sample.form false) Sample.fresh)) = false.
Proof.
  assert (R : fst (run Sample.key Scenario.remote_markup uncased strict
                     (Sample.form false) Sample.fresh) = Raised ValueError)
    by (vm_compute; reflexivity).
  assert (B : existsb is_button
                (page (snd (run Sample.key Scenario.remote_markup uncased strict
                              (Sample.form false) Sample.fresh))) = true)
    by (vm_compute; reflexivity).
  assert (R' : fst (run Sample.key Scenario.remote_null uncased lenient
                      (Sample.form false) Sample.fresh) = Raised AttributeError)
    by (vm_compute; reflexivity).
  assert (B' : existsb is_button
                 (page (snd (run Sample.key Scenario.remote_null uncased lenient
                               (Sample.form false) Sample.fresh))) = false)
    by (vm_compute; reflexivity).
  destruct (raised_run_draws_no_download Sample.key Scenario.remote_markup
              uncased strict (Sample.form false) Sample.fresh ValueError R)
    as (H1 & _ & H3 & _).
  destruct (raised_run_draws_no_download Sample.key Scenario.remote_null
              uncased lenient (Sample.form false) Sample.fresh AttributeError R')
    as (_ & H2 & _).
  split; [exact H1|]. split; [exact (proj2 (H3 B))|exact (H2 B')].
Defined.

Lemma reach_summarised :
  reachable Sample.key Sample.remote_ok uncased lenient Scenario.summarised.
Proof.
  apply reach_apply_event; [apply reach_initial|reflexivity].
Qed.

Lemma reach_summarised_flaky :
  reachable Sample.key Scenario.remote_flaky uncased lenient Scenario.summarised_flaky.
Proof.
  apply reach_apply_event; [apply reach_initial|reflexivity].
Qed.

Lemma render_failure_persists_witness :
  cache (state (apply_event Sample.key Scenario.remote_markup uncased strict
                  (EditName (lit "notes")) Scenario.summarised_markup))
  = Some (Some (lit "Compare: if x<y then stop"))
  /\ existsb is_download
       (page (state (apply_event Sample.key Scenario.remote_markup uncased
                       strict (EditName (lit "notes"))
                       Scenario.summarised_markup))) = false.
Proof.
  assert (C : cache (state Scenario.summarised_markup)
              = Some (Some (lit "Compare: if x<y then stop")))
    by (vm_compute; reflexivity).
  assert (Q : create_pdf uncased strict (lit "Compare: if x<y then stop")
              = inl ValueError)
    by (vm_compute; reflexivity).
  assert (N : EditName (lit "notes") <> ClickRegenerate) by discriminate.
  destruct (render_failure_persists Sample.key Scenario.remote_markup uncased
              strict Scenario.summarised_markup
              (apply_event Sample.key Scenario.remote_markup uncased strict
                 (EditName (lit "notes")) Scenario.summarised_markup)
              (EditName (lit "notes")) (lit "Compare: if x<y then stop")
              Sample.transcript ValueError C Q N
              (step_apply_event Sample.key Scenario.remote_markup uncased
                 strict (EditName (lit "notes")) Scenario.summarised_markup
                 eq_refl)
              eq_refl)
    as (_ & H1 & _ & _ & H2 & _).
  split; [exact H1|exact H2].
Defined.

Lemma only_regenerate_invalidates_witness :
  cache (state Scenario.replaced) = Some (Some (lit "## Notes"))
  /\ posts (state Scenario.replaced) = posts (state Scenario.summarised)
  /\ file Scenario.replaced = Some (Some Scenario.other_transcript).
Proof.
  assert (C : cache (state Scenario.summarised) = Some (Some (lit "## Notes")))
    by (vm_compute; reflexivity).
  assert (N : Upload (Some Scenario.other_transcript) <> ClickRegenerate)
    by discriminate.
  destruct (only_regenerate_invalidates Sample.key Sample.remote_ok uncased lenient
              Scenario.summarised Scenario.replaced
              (Upload (Some Scenario.other_transcript)) (lit "## Notes") C N
              (step_apply_event Sample.key Sample.remote_ok uncased lenient
                 (Upload (Some Scenario.other_transcript)) Scenario.summarised
                 eq_refl))
    as (H1 & H2 & _).
  repeat split; assumption.
Defined.

Lemma cached_summary_never_error_witness :
  startswith (lit "ERROR") (lit "## Notes") = false.
Proof.
  assert (C : cache (state Scenario.summarised) = Some (Some (lit "## Notes")))
    by (vm_compute; reflexivity).
  exact (cached_summary_never_error Sample.key Sample.remote_ok uncased lenient
           Scenario.summarised (lit "## Notes") reach_summarised C).
Defined.

Lemma page_matches_cache_witness :
  existsb is_button (page (state Scenario.summarised)) = true
  /\ exists mid,
       page (state Scenario.summarised)
       = header (form_of Scenario.summarised) ++ mid
           ++ summary_calls (lit "## Notes")
           ++ download_calls (form_of Scenario.summarised)
                (create_pdf uncased lenient (lit "## Notes")).
Proof.
  assert (C : cache (state Scenario.summarised) = Some (Some (lit "## Notes")))
    by (vm_compute; reflexivity).
  assert (S : has_summary (state Scenario.summarised) = true)
    by (vm_compute; reflexivity).
  destruct (page_matches_cache Sample.key Sample.remote_ok uncased lenient
              Scenario.summarised reach_summarised) as [B V].
  split.
  - apply B. split; [exact S|]. now exists Sample.transcript.
  - destruct (V (lit "## Notes") Sample.transcript C eq_refl) as (mid & P & _).
    now exists mid.
Defined.

Lemma failed_regenerate_loses_summary_witness :
  cache (state Scenario.summarised_flaky) = Some (Some (lit "## Notes"))
  /\ cache (state Scenario.regenerated_flaky) = Some None
  /\ List.length (posts (state Scenario.regenerated_flaky)) = 2.
Proof.
  assert (C : cache (state Scenario.summarised_flaky)
              = Some (Some (lit "## Notes")))
    by (vm_compute; reflexivity).
  assert (E : enabled ClickRegenerate Scenario.summarised_flaky = true)
    by (vm_compute; reflexivity).
  assert (R : Scenario.remote_flaky
                (List.length (posts (state Scenario.summarised_flaky)))
                (request_of Sample.key Sample.transcript)
              = inr Sample.answer_500)
    by (vm_compute; reflexivity).
  assert (N : status_code Sample.answer_500 <> 200%Z) by discriminate.
  destruct (failed_regenerate_loses_summary Sample.key Scenario.remote_flaky
              uncased lenient Scenario.summarised_flaky Scenario.regenerated_flaky
              Sample.transcript Sample.answer_500 reach_summarised_flaky
              (step_apply_event _ _ _ _ _ _ E) eq_refl R N)
    as (H1 & H2 & _).
  split; [exact C|]. split; [exact H1|].
  rewrite H2, length_app. vm_compute. reflexivity.
Defined.

Lemma empty_slot_posts_again_witness :
  posts (state Scenario.failed_renamed)
  = posts (state Scenario.failed)
      ++ [request_of Sample.key Sample.transcript].
Proof.
  assert (C : has_summary (state Scenario.failed) = false)
    by (vm_compute; reflexivity).
  assert (N : EditName (lit "notes") <> ClickRegenerate) by discriminate.
  exact (empty_slot_posts_again Sample.key Sample.remote_500 uncased lenient
           Scenario.failed Scenario.failed_renamed (EditName (lit "notes"))
           Sample.transcript C N
           (step_apply_event Sample.key Sample.remote_500 uncased lenient
              (EditName (lit "notes")) Scenario.failed eq_refl)
           eq_refl).
Defined.

Lemma at_most_one_post_per_event_witness :
  exists l,
    posts (state Scenario.regenerated_flaky)
    = posts (state Scenario.summarised_flaky) ++ l
    /\ List.length l <= 1.
Proof.
  assert (E : enabled ClickRegenerate Scenario.summarised_flaky = true)
    by (vm_compute; reflexivity).
  exact (at_most_one_post_per_event Sample.key Scenario.remote_flaky uncased lenient
           Scenario.summarised_flaky Scenario.regenerated_flaky ClickRegenerate
           reach_summarised_flaky (step_apply_event _ _ _ _ _ _ E)).
Defined.

Lemma download_name_shape_witness :
  download_name ([32%N; 9%N] ++ lit "week 1" ++ [32%N])
  = download_name (lit "week 1").
Proof.
  exact (proj2 (download_name_shape (lit "week 1")) [32%N; 9%N] [32%N]
           eq_refl eq_refl).
Defined.

Lemma request_determines_transcript_witness :
  prompt_of Sample.transcript <> prompt_of Scenario.other_transcript.
Proof.
  intros H.
  apply (proj1 (request_determines_transcript Sample.key Sample.transcript
                  Scenario.other_transcript)) in H.
  vm_compute in H. discriminate H.
Defined.

Section PostsInvariant.

Variable API_KEY : str.
Variable remote : nat -> http_request -> exn + http_response.
Variable tbl : str -> char -> str -> str.
Variable rl : reportlab.

Abbreviation exec := (run API_KEY remote tbl rl).
Abbreviation post_of := (request_of API_KEY).
Abbreviation next := (step API_KEY remote tbl rl).
Abbreviation reach := (reachable API_KEY remote tbl rl).

Lemma run_posts_shape (w : widgets) (wd : world) :
  exists l,
    posts (snd (exec w wd)) = posts wd ++ l
    /\ Forall (fun rq => exists t, uploaded_file w = Some (Some t)
                                   /\ rq = post_of t) l.
Proof.
  destruct (has_summary wd) eqn:Hc.
  - exists []. rewrite app_nil_r. split; [now apply run_cached|constructor].
  - destruct (uploaded_file w) as [[t|]|] eqn:Hf.
    + exists [post_of t]. split; [now apply run_uncached|].
      constructor; [now exists t|constructor].
    + exists []. rewrite app_nil_r. split; [|constructor].
      apply run_no_transcript. intros t. congruence.
    + exists []. rewrite app_nil_r. split; [|constructor].
      apply run_no_transcript. intros t. congruence.
Qed.

Lemma rerun_posts_shape (f : option (option str)) (n : str) (click : bool)
    (wd : world) :
  exists l,
    posts (run_with_rerun API_KEY remote tbl rl f n click wd) = posts wd ++ l
    /\ Forall (fun rq => exists t, f = Some (Some t) /\ rq = post_of t) l.
Proof.
  unfold run_with_rerun.
  destruct (run_posts_shape
              {| uploaded_file := f; pdf_name := n; regenerate := click |} wd)
    as (l1 & P1 & F1).
  destruct (exec {| uploaded_file := f; pdf_name := n; regenerate := click |} wd)
    as [o wd1].
  cbn [snd uploaded_file] in *.
  destruct o; try (exists l1; now split).
  destruct (run_posts_shape
              {| uploaded_file := f; pdf_name := n; regenerate := false |} wd1)
    as (l2 & P2 & F2).
  cbn [uploaded_file] in *.
  exists (l1 ++ l2). rewrite P2, P1, app_assoc. split; [reflexivity|].
  apply Forall_app. now split.
Qed.

(** X23.  The page posts nothing but summary requests for the current
    upload: the requests an event adds are requests for the transcript
    uploaded after the event, so an event that leaves no decodable
    transcript posts nothing; and in a reachable session every request
    posted so far is the summary request of some transcript. *)
Theorem posts_are_requests_for_the_upload (a a' : session) (ev : event) :
  next a ev a' ->
  (exists l,
     posts (state a') = posts (state a) ++ l
     /\ Forall (fun rq => exists t, file a' = Some (Some t) /\ rq = post_of t) l)
  /\ ((forall t, file a' <> Some (Some t)) ->
      posts (state a') = posts (state a))
  /\ (reach a ->
      Forall (fun rq => exists t, rq = post_of t) (posts (state a'))).
Proof.
  intros Hs.
  assert (S : forall b ev0 b', next b ev0 b' ->
                exists l,
                  posts (state b') = posts (state b) ++ l
                  /\ Forall (fun rq => exists t, file b' = Some (Some t)
                                                 /\ rq = post_of t) l).
  { intros b ev0 b' Hb. inversion Hb as [b0 ev1 b1 H]; subst.
    unfold interact in H. destruct (enabled ev0 b); [|discriminate].
    injection H as <-. cbn [state file]. apply rerun_posts_shape. }
  assert (W : forall b l,
                Forall (fun rq => exists t, file b = Some (Some t)
                                            /\ rq = post_of t) l ->
                Forall (fun rq => exists t, rq = post_of t) l).
  { intros b l F. eapply Forall_impl; [|exact F].
    intros rq (t & _ & ->). now exists t. }
  split; [now apply (S a ev a')|]. split.
  - intros Hn. destruct (S a ev a' Hs) as (l & P & F).
    destruct l as [|rq l]; [now rewrite app_nil_r in P|].
    inversion F as [|? ? (t & Ht & _) _]; subst. now elim (Hn t).
  - intros Ha.
    assert (R : forall b, reach b ->
                  Forall (fun rq => exists t, rq = post_of t) (posts (state b))).
    { intros b Hb. induction Hb as [|b0 ev0 b1 _ IH Hb1].
      - cbn [initial state].
        destruct (rerun_posts_shape None (lit "summary") false
                    {| cache := None; posts := []; page := [] |})
          as (l & P & F).
        rewrite P. cbn [posts app].
        eapply Forall_impl; [|exact F]. intros rq (t & _ & ->). now exists t.
      - destruct (S b0 ev0 b1 Hb1) as (l & P & F). rewrite P.
        apply Forall_app. split; [exact IH|now apply (W b1)]. }
    apply R. eapply reach_step; [exact Ha|exact Hs].
Qed.

End PostsInvariant.

Lemma posts_are_requests_for_the_upload_witness :
  Forall (fun rq => exists t, rq = request_of Sample.key t)
    (posts (state Scenario.regenerated_flaky))
  /\ posts (state (apply_event Sample.key Sample.remote_ok uncased lenient RemoveFile
                     Scenario.summarised))
     = posts (state Scenario.summarised).
Proof.
  assert (E : enabled ClickRegenerate Scenario.summarised_flaky = true)
    by (vm_compute; reflexivity).
  split.
  - exact (proj2 (proj2 (posts_are_requests_for_the_upload Sample.key
             Scenario.remote_flaky uncased lenient Scenario.summarised_flaky
             Scenario.regenerated_flaky ClickRegenerate
             (step_apply_event Sample.key Scenario.remote_flaky uncased lenient
                ClickRegenerate Scenario.summarised_flaky E)))
             reach_summarised_flaky).
  - refine (proj1 (proj2 (posts_are_requests_for_the_upload Sample.key
              Sample.remote_ok uncased lenient Scenario.summarised
              (apply_event Sample.key Sample.remote_ok uncased lenient RemoveFile
                 Scenario.summarised)
              RemoveFile
              (step_apply_event Sample.key Sample.remote_ok uncased lenient
                 RemoveFile Scenario.summarised eq_refl))) _).
    intros t H. discriminate H.
Defined.

Section Regeneration.

Variable API_KEY : str.
Variable remote : nat -> http_request -> exn + http_response.
Variable tbl : str -> char -> str -> str.
Variable rl : reportlab.

(** X24.  A regeneration that is answered replaces the summary: in a
    reachable session, when the request posted after a click on the
    button is answered with a string that does not start with [ERROR],
    the slot holds that string, one request was added, and the rerun
    makes the calls of the summary view on the new summary: the text
    area is called with it as value and, when [create_pdf] returns a
    document for it, the download is that document. *)
Theorem regenerate_replaces_summary (a a' : session) (t s : str)
    (r : http_response) :
  reachable API_KEY remote tbl rl a ->
  step API_KEY remote tbl rl a ClickRegenerate a' ->
  file a = Some (Some t) ->
  remote (List.length (posts (state a))) (request_of API_KEY t) = inr r ->
  result_of_response r = inr (VStr s) ->
  startswith (lit "ERROR") s = false ->
  cache (state a') = Some (Some s)
  /\ posts (state a') = posts (state a) ++ [request_of API_KEY t]
  /\ page (state a')
     = header (form_of a) ++ [INFO_RUNNING; SPINNER] ++ summary_calls s
         ++ download_calls (form_of a) (create_pdf tbl rl s).
Proof.
  intros Ha Hs Hf Hr Hres He. inversion Hs as [a0 ev a1 H]; subst.
  unfold interact in H.
  destruct (enabled ClickRegenerate a) eqn:En; [|discriminate].
  injection H as <-. cbn [state enabled next_file next_name clicked] in *.
  destruct (session_button _ _ _ _ _ Ha En) as (Hc & _).
  unfold run_with_rerun.
  destruct (run_click_cached API_KEY remote tbl rl
              {| uploaded_file := file a; pdf_name := name a;
                 regenerate := true |} (state a) t Hc Hf eq_refl)
    as (wd1 & -> & Hp & Hn).
  assert (Hu : has_summary wd1 = false)
    by (unfold has_summary; now rewrite Hn).
  rewrite (run_first_call API_KEY remote tbl rl
             {| uploaded_file := file a; pdf_name := name a;
                regenerate := false |} wd1 t Hf Hu).
  rewrite Hp, Hr, Hres, He. cbn [regenerate snd cache posts page].
  repeat split.
Qed.

End Regeneration.

Lemma regenerate_replaces_summary_witness :
  cache (state Sample.regenerated) = Some (Some (lit "## Notes"))
  /\ List.length (posts (state Sample.regenerated)) = 2.
Proof.
  assert (R : reachable Sample.key Sample.remote_ok uncased lenient Sample.loaded).
  { eapply reach_step; [apply reach_initial|].
    apply (step_interact _ _ _ _ _ (Upload (Some Sample.transcript))).
    vm_compute. reflexivity. }
  assert (S : step Sample.key Sample.remote_ok uncased lenient Sample.loaded
                ClickRegenerate Sample.regenerated).
  { constructor. vm_compute. reflexivity. }
  assert (A : result_of_response Sample.answer_ok = inr (VStr (lit "## Notes")))
    by (vm_compute; reflexivity).
  destruct (regenerate_replaces_summary Sample.key Sample.remote_ok uncased lenient
              Sample.loaded Sample.regenerated Sample.transcript
              (lit "## Notes") Sample.answer_ok R S eq_refl eq_refl A eq_refl)
    as (H1 & H2 & _).
  split; [exact H1|]. rewrite H2, length_app. vm_compute. reflexivity.
Defined.
